(* ===== verification/_CoqProject ===== *)
-Q . S2P
Prelude.v
Filesystem.v
Utf8.v
Remote.v
Bunch.v
CacheLocator.v
Fetcher.v
Downloader.v
DownloadSteps.v
Composed.v
Datasets.v
Concurrency.v
MakedirsSteps.v
Interleaving.v
SharedCache.v
SharedTermination.v
