(* ===== verification/Prelude.v ===== *)
(** * A verification development of MDAnalysisData's dataset fetchers

    MDAnalysisData ships one Python module per dataset.  The two modules of
    this repository, [src/MDAnalysisData/adk_equilibrium.py] and
    [src/MDAnalysisData/ifabp_water.py], are copies of one pattern:

      - module constants [NAME], [DESCRIPTION] and an [ARCHIVE] dict that maps
        a role ("topology", "trajectory", "structure") to a
        [RemoteFileMetadata(filename, url, checksum)];
      - one function [fetch_<name>(data_home=None, download_if_missing=True)]
        that joins [get_data_home(data_home)] with [NAME], creates that
        directory when [exists] says it is absent, walks [ARCHIVE.items()] in
        insertion order, records [records[role] = join(data_location,
        filename)] in a [Bunch], and for each file that does not exist either
        raises [IOError] (downloads disabled) or logs the download with
        [logger.info] and calls [_fetch_remote(meta, dirname=data_location)];
        finally it reads [descr/<DESCRIPTION>] from the package directory
        into [records.DESCR] and returns [records].

    [get_data_home], [_fetch_remote], [RemoteFileMetadata] and [Bunch] live in
    [MDAnalysisData/base.py], which is not part of the sources here; they are
    modelled from the specification (cache root resolution; download into a
    temporary file, checksum verification, atomic rename, bounded retries).
    The Python library calls ([os], [os.path], [codecs.open], [logging], the
    HTTP transport) are operations on an explicit world; the UTF-8 decoding
    that [codecs.open(..., encoding="utf-8").read()] performs is modelled
    after CPython's decoder and stream reader.

    ** Layout (files in dependency order)

      - [Prelude]      this header; the state/exception monad [PyM] that
                       models Python's "statements with side effects that may
                       raise" (state changes made before an exception are
                       kept, as in Python); its reasoning lemmas ([pbind]
                       inversion, the frame predicate [preserves] with the
                       preorders [unchanged] and [implies]); the [pym] hint
                       database.
      - [Filesystem]   the world a fetch runs in ([World]: directories,
                       regular files, read-only directories, the answers of
                       the content host, the trace of events, the process
                       environment); [os.path.exists], [os.mkdir],
                       [os.makedirs] after CPython's recursion, [open]/[read],
                       [os.remove], [os.replace], HTTP GET, [time.sleep],
                       [logger.info] (a [Log] event); Python's exceptions as
                       [exn]; the tree invariant [wf_world] (decidable).
      - [Utf8]         [codecs.open(p, encoding="utf-8").read()] (lines
                       112-114 / 119-121): [utf8_scan] (one round of CPython's
                       [utf8_decode]), [decode_from]/[utf8_decode] (the loop
                       of [unicode_decode_utf8] with its [final] flag),
                       [stream_read] ([codecs.StreamReader.read()]),
                       [codecs_read] (the call, raising
                       [UnicodeDecodeError]); the reference [utf8_encode].
      - [Remote]       [RemoteFileMetadata] (with decidable equality), the
                       digest as the class [Digest], and the interface
                       [Downloader] / [DownloaderSpec]: the contract
                       [_fetch_remote] gives to the fetchers.
      - [Bunch]        the result object: a [gmap] from attribute name to a
                       path or a text, attribute access failing with
                       [AttributeError].
      - [CacheLocator] [get_data_home] (override, environment, default
                       [~/MDAnalysis_data]).
      - [Fetcher]      the body shared by both functions: [prologue] (lines
                       95-96), [fetch_files] (the loop, lines 98-109),
                       [fetch_into], [fetch_dataset]; proved against the
                       [Downloader] interface only (Section with
                       [Context `{DownloaderSpec D}]).
      - [Downloader]   the implementation [fetch_remote_impl] of
                       [_fetch_remote] ([mkstemp_from], [transfer], [place],
                       [download_attempts]) and its instance of
                       [DownloaderSpec].
      - [DownloadSteps] [_fetch_remote] statement by statement: program
                       counters [dpc] (cache check, each [mkstemp]
                       candidate, GET, write, [os.replace], removals,
                       sleep), one statement [dstep], the solo run [dsolo].
      - [Composed]     the fetch functions run with that implementation:
                       the downloader's behaviour lifted to the call.
      - [Datasets]     the modules [AdkEquilibrium] and [IfabpWater]
                       (constants literal from the source), concrete worlds
                       and the witnesses of the general theorems.
      - [Concurrency]  two calls sharing one cache: program counters over the
                       prologue, the interleaving relation [step], its race,
                       and the equivalence of one process's steps with
                       [prologue].
      - [MakedirsSteps] the prologue with [os.makedirs] statement by
                       statement: CPython's recursion as a call stack of
                       frames [mframe] (parent check, [mkdir]), the caught
                       [FileExistsError] of the [try] ([unwind]), one
                       statement [pstep], two prologues [pstep2] for two
                       dataset directories; the invariant [pinv].
      - [Interleaving] one whole call: program counters [fpc] over every
                       statement of [fetch_into], the step of one call
                       [fstep]; the equivalence of one call with
                       [fetch_into], and what each statement keeps of the
                       files its call has passed ([passed]).
      - [SharedCache]  two whole calls whose downloads run statement by
                       statement: [gpc] (a statement of [fetch_into] or of
                       the download it is in), [gstep], the interleaving
                       [gstep2] (an [interleave] of the prelude); the
                       invariant [ginv] (the cache is verified, each
                       download's temporary file is one of its [mkstemp]
                       names, exists, is not the other call's, and holds a
                       verified body before [os.replace]).
      - [SharedTermination] the ranks of the downloader's and the call's
                       program points ([drank], [grank]), lowered by every
                       statement.

    ** Theorems (claim ids of the manifest)

      - Fetcher (any downloader meeting the contract): the result of a
        successful call (C1), idempotence without network access (C2), the
        existence-only cache check (C3, a finding), no write and no network
        with downloads disabled (C4), the first missing role's [IOError]
        (C5), the directories a call may create (C12), the shape of the
        result (C13), the returned paths read back verified content (C14),
        on a complete cache the decoded description or [UnicodeDecodeError]
        (C19).
      - Downloader and Composed: refinement of the contract (C7); at the
        call: a corrupt download raises [IntegrityError] and leaves the files
        alone (C6), the events of a call are, per role missing when the call
        starts, a log record and a prefix of the retry schedule, and none
        for a role already cached (C9), a read-only directory is fatal
        (C10), enough retries give the dataset (C11).
      - Concurrency: the check-then-create race (C8, a finding).
      - Utf8: what the stream read returns (C15); round trip of a
        description file (C16); a truncated last character is dropped
        without an error (C17, a finding); a decoding error points at the
        first invalid byte and agrees with the final decode (C18); the
        decoded description has between [length s / 4] and [length s]
        characters, all scalar values (C24).
      - SharedCache: in every interleaving of two calls at the grain of the
        downloader's statements, the cache stays verified, a returned call
        finds all its files, and the two downloads never hold the same
        temporary file (C20).
      - SharedTermination: every such interleaving ends within
        [2 * (3 + 427 * |ARCHIVE|)] statements (C21).
      - MakedirsSteps: two calls of different datasets (the two of this
        repository in one data home) never raise in their prologues, in any
        interleaving of [os.makedirs]'s statements (C22); for any two calls
        the only exception of a prologue is [FileExistsError] for its own
        dataset directory (C23).

    Each statement-level model (the prologue steps of [Concurrency] and
    [MakedirsSteps], the call of [Interleaving], the download of
    [DownloadSteps], the call with its download of [SharedCache]) comes
    with a lemma that one process alone computes exactly the function it
    splits into statements: the interleaving theorems are about the code.

    ** Bounds and fuel

    [MAX_RETRIES = 3] and [TMP_MAX = 100] are the only bounds; both are
    counters of loops of the modelled downloader, not proof devices.  The
    retry loop [download_attempts] recurses on the attempts left; C11 shows
    that [MAX_RETRIES] transient failures still end in the file.  The
    [mkstemp] loop tries [TMP_MAX] names; the theorems that need it assume
    the first candidate is free.  Every other recursion is structural (the
    loop over [ARCHIVE], [os.makedirs] on the reversed path).  The
    prologue interleaving needs no fuel (each process has two statements);
    the whole-call models are relations, reasoned about by induction
    on their runs; the statement-level ones terminate by a rank that
    every statement lowers (C21: [424] statements bound one download, from
    [TMP_MAX] and [MAX_RETRIES]).  The UTF-8 loop [decode_from] takes fuel;
    every round consumes at least one byte, so [length s + 1] rounds are
    enough and more change nothing ([decode_from_fuel]); [utf8_decode] uses exactly that
    bound.  The scheduler [schedule] of the prelude takes a finite list of
    turns; it only builds runs for the witnesses.

    Concrete worlds are evaluated with [vm_compute]; a world that a run
    produces is defined by its normal form ([Eval vm_compute]), so that the
    kernel checks closed equations through one cast instead of re-running
    the fetch in each component of a record.

    ** Not modelled

      - [logger = logging.getLogger(__name__)] and the handlers: only the
        records given to [logger.info] are modelled.
      - The decoder's other error handlers and [read(size)]: the code uses
        neither.  Text is a list of code points, as Python's [str].
      - Permissions beyond a read-only flag, disk space, symbolic links,
        file modes, the content of the [.rst] files.
      - Interleavings below a statement: each [os] call and each GET is
        one atomic step (an [O_EXCL] create is atomic in POSIX); the
        streamed write of a body is one step.
      - The [dict] methods a [Bunch] inherits ([keys], [items], [get]):
        the fetchers never call them; [bunch_getattr] is attribute access
        for the roles and [DESCR] only.
*)

From stdpp Require Import base list relations.

(** ** A state and exception monad *)

(** [PyM S E A] is a computation on a state [S] that either raises an
    exception of type [E] ([inl]) or returns an [A] ([inr]).  The state
    reached at the point of the exception is kept: a Python function that
    creates a directory and then raises leaves the directory behind. *)
Definition PyM (S E A : Type) : Type := S -> S * (E + A).

Declare Scope py_scope.
Delimit Scope py_scope with py.

Section Monad.
Context {S E : Type}.

Definition pret {A} (a : A) : PyM S E A := fun s => (s, inr a).

Definition pbind {A B} (m : PyM S E A) (k : A -> PyM S E B) : PyM S E B :=
  fun s =>
    match m s with
    | (s1, inl e) => (s1, inl e)
    | (s1, inr a) => k a s1
    end.

Definition praise {A} (e : E) : PyM S E A := fun s => (s, inl e).

(** Read the state. *)
Definition pget : PyM S E S := fun s => (s, inr s).

(** Replace the state by a function of it. *)
Definition pmodify (f : S -> S) : PyM S E unit := fun s => (f s, inr tt).

(** [try: m except e if handles e: h e] *)
Definition pcatch {A} (m : PyM S E A) (handles : E -> bool) (h : E -> PyM S E A)
  : PyM S E A :=
  fun s =>
    match m s with
    | (s1, inl e) => if handles e then h e s1 else (s1, inl e)
    | r => r
    end.

(** *** Running a bind *)

Lemma pbind_inr {A B} (m : PyM S E A) (k : A -> PyM S E B) s s' b :
  pbind m k s = (s', inr b) ->
  exists s1 a, m s = (s1, inr a) /\ k a s1 = (s', inr b).
Proof.
  unfold pbind. destruct (m s) as [s1 [e|a]]; [congruence|eauto].
Qed.

Lemma pbind_inl {A B} (m : PyM S E A) (k : A -> PyM S E B) s s' e :
  pbind m k s = (s', inl e) ->
  m s = (s', inl e) \/ exists s1 a, m s = (s1, inr a) /\ k a s1 = (s', inl e).
Proof.
  unfold pbind. destruct (m s) as [s1 [e'|a]]; [left; congruence|eauto].
Qed.

Lemma pbind_run {A B} (m : PyM S E A) (k : A -> PyM S E B) s s1 a :
  m s = (s1, inr a) -> pbind m k s = k a s1.
Proof. unfold pbind. by intros ->. Qed.

Lemma pbind_run_err {A B} (m : PyM S E A) (k : A -> PyM S E B) s s1 e :
  m s = (s1, inl e) -> pbind m k s = (s1, inl e).
Proof. unfold pbind. by intros ->. Qed.

(** *** Frame conditions

    [preserves R m]: whatever [m] does, raising or returning, the final
    state is related to the initial one by [R].  With [R] a preorder this
    composes through [pbind], which is how every "this call does not touch
    X" lemma of the development is proved. *)
Definition preserves (R : relation S) {A} (m : PyM S E A) : Prop :=
  forall s s' r, m s = (s', r) -> R s s'.

Context (R : relation S) `{!PreOrder R}.

Lemma preserves_ret {A} (a : A) : preserves R (pret a).
Proof. intros s s' r [= <- _]. reflexivity. Qed.

Lemma preserves_raise {A} (e : E) : preserves R (A:=A) (praise e).
Proof. intros s s' r [= <- _]. reflexivity. Qed.

Lemma preserves_get : preserves R pget.
Proof. intros s s' r [= <- _]. reflexivity. Qed.

Lemma preserves_bind {A B} (m : PyM S E A) (k : A -> PyM S E B) :
  preserves R m -> (forall a, preserves R (k a)) -> preserves R (pbind m k).
Proof.
  intros Hm Hk s s' r. unfold pbind.
  destruct (m s) as [s1 [e|a]] eqn:E1; intros Hr.
  - injection Hr as <- _. eapply Hm; eauto.
  - etrans; [eapply Hm; eauto | eapply Hk; eauto].
Qed.

Lemma preserves_if {A} (b : bool) (m1 m2 : PyM S E A) :
  preserves R m1 -> preserves R m2 -> preserves R (if b then m1 else m2).
Proof. by destruct b. Qed.

Lemma preserves_catch {A} (m : PyM S E A) hd (h : E -> PyM S E A) :
  preserves R m -> (forall e, preserves R (h e)) -> preserves R (pcatch m hd h).
Proof.
  intros Hm Hh s s' r. unfold pcatch.
  destruct (m s) as [s1 [e|a]] eqn:E1; [destruct (hd e)|]; intros Hr.
  - etrans; [eapply Hm; eauto | eapply Hh; eauto].
  - injection Hr as <- _. eapply Hm; eauto.
  - injection Hr as <- _. eapply Hm; eauto.
Qed.

End Monad.

Arguments preserves {S E} R {A} m.

Notation "'let*' x ':=' m 'in' k" := (pbind m (fun x => k))
  (at level 10, x name, m at level 100, k at level 200,
   format "'[v' 'let*'  x  ':='  m  'in' '/' k ']'") : py_scope.

(** ** Automation *)

Create HintDb pym discriminated.
#[export] Hint Resolve preserves_ret preserves_raise preserves_get
  preserves_bind preserves_if preserves_catch : pym.

(** [run_bind H] splits a hypothesis [pbind m k s = (s', r)] into the run of
    [m] and the run of its continuation. *)
Ltac run_bind H :=
  lazymatch type of H with
  | pbind _ _ _ = (_, inr _) =>
      let s1 := fresh "s" in let a := fresh "a" in
      let H1 := fresh "Hrun" in
      apply pbind_inr in H as (s1 & a & H1 & H)
  | pbind _ _ _ = (_, inl _) =>
      let s1 := fresh "s" in let a := fresh "a" in
      let H1 := fresh "Hrun" in
      apply pbind_inl in H as [H | (s1 & a & H1 & H)]
  end.

(** Unfold the monad's combinators and reduce, exposing the state passing. *)
Ltac py_simpl := cbv beta iota delta [pbind pret praise pget pmodify pcatch].
Tactic Notation "py_simpl" "in" hyp(H) :=
  cbv beta iota delta [pbind pret praise pget pmodify pcatch] in H.

(** Frame goals [preserves R m] are closed structurally. *)
Ltac solve_preserves := repeat (intros; first
  [ apply preserves_bind | apply preserves_if | apply preserves_catch
  | apply preserves_ret | apply preserves_raise | apply preserves_get
  | progress (eauto with pym) ]).

(** ** Generic frame relations *)

(** [unchanged f s s']: the component [f] of the state is the same. *)
Definition unchanged {S B} (f : S -> B) : relation S := fun s s' => f s' = f s.

#[export] Instance unchanged_preorder {S B} (f : S -> B) : PreOrder (unchanged f).
Proof. split; [intros ?; done | intros ??? H1 H2; unfold unchanged in *; congruence]. Qed.

(** [implies P s s']: the state property [P] is preserved. *)
Definition implies {S} (P : S -> Prop) : relation S := fun s s' => P s -> P s'.

#[export] Instance implies_preorder {S} (P : S -> Prop) : PreOrder (implies P).
Proof. split; [intros ??; done | intros ??? H1 H2 ?; auto]. Qed.

Section Frames.
Context {S E : Type}.

Lemma preserves_mono (R R' : relation S) {A} (m : PyM S E A) :
  (forall s s', R s s' -> R' s s') -> preserves R m -> preserves R' m.
Proof. intros HR Hm s s' r H. eauto. Qed.

Lemma preserves_modify (R : relation S) (f : S -> S) :
  (forall s, R s (f s)) -> preserves (E:=E) R (pmodify f).
Proof. intros Hf s s' r [= <- _]. apply Hf. Qed.

(** A computation that never changes the state preserves every reflexive
    relation. *)
Definition pure_read {A} (m : PyM S E A) : Prop :=
  forall s s' r, m s = (s', r) -> s' = s.

Lemma preserves_pure_read (R : relation S) `{!Reflexive R} {A} (m : PyM S E A) :
  pure_read m -> preserves R m.
Proof. intros Hm s s' r H. apply Hm in H as ->. reflexivity. Qed.

Lemma pget_pure : pure_read (@pget S E).
Proof. by intros s s' r [= ->]. Qed.

Lemma preserves_and (R1 R2 : relation S) {A} (m : PyM S E A) :
  preserves R1 m -> preserves R2 m -> preserves (fun s s' => R1 s s' /\ R2 s s') m.
Proof. intros H1 H2 s s' r H. eauto. Qed.
End Frames.

#[export] Hint Resolve preserves_modify preserves_pure_read pget_pure : pym.

(** Step over a bind whose first computation only reads the state. *)
Ltac bind_read :=
  apply preserves_bind; [exact _|apply preserves_pure_read; [exact _|auto with pym]|]; intros ?.

(** ** Generic list lemmas *)

(** All prefixes of a path, the empty one and the path itself included,
    shortest first: the directories [os.makedirs] may have to create. *)
Fixpoint inits {A} (l : list A) : list (list A) :=
  match l with
  | [] => [[]]
  | x :: l' => [] :: (cons x <$> inits l')
  end.

Lemma elem_of_inits {A} (l p : list A) : p ∈ inits l <-> exists q, l = p ++ q.
Proof.
  revert p. induction l as [|x l IH]; intros p; simpl.
  - rewrite list_elem_of_singleton. split; [intros ->; by exists []|].
    intros [q Hq]. by destruct p.
  - rewrite elem_of_cons, list_elem_of_fmap. split.
    + intros [->|(p' & -> & Hp')]; [by exists (x :: l)|].
      apply IH in Hp' as [q ->]. by exists q.
    + intros [q Hq]. destruct p as [|y p]; [by left|right].
      injection Hq as <- Hq. exists p. split; [done|]. apply IH. by exists q.
Qed.

Lemma inits_app_last {A} (l : list A) (x : A) :
  inits (l ++ [x]) = inits l ++ [l ++ [x]].
Proof.
  induction l as [|y l IH]; [done|]. simpl. rewrite IH, fmap_app. done.
Qed.

Lemma elem_of_inits_self {A} (l : list A) : l ∈ inits l.
Proof. apply elem_of_inits. exists []. by rewrite app_nil_r. Qed.

Lemma inits_app_subseteq {A} (l1 l2 p : list A) : p ∈ inits l1 -> p ∈ inits (l1 ++ l2).
Proof. rewrite !elem_of_inits. intros [q ->]. exists (q ++ l2). by rewrite app_assoc. Qed.

#[export] Hint Resolve elem_of_inits_self inits_app_subseteq : pym.

(** ** Runs of a statement-level model

    The statement-level models step by a function from a program point and
    a world to the next ones: a state has at most one successor, so two
    runs from one state that both reach a state without successor reach
    the same state. *)
Lemma rtc_fun_final {A} (f : A -> option A) x y z :
  rtc (fun a b => f a = Some b) x y -> rtc (fun a b => f a = Some b) x z ->
  f y = None -> f z = None -> y = z.
Proof.
  intros Hy. revert z. induction Hy as [x|x x' y Hx _ IH]; intros z Hz Hfy Hfz.
  - inversion Hz as [|? z' ? Hs]; subst; [done|congruence].
  - inversion Hz as [|? z' ? Hs Hrest]; subst; [congruence|].
    rewrite Hx in Hs. injection Hs as <-. by apply IH.
Qed.

(** Two program counters over one shared state, each stepping by its own
    statement function: either takes its next statement. *)
Inductive interleave {P S} (f1 f2 : P -> S -> option (P * S)) : relation (P * P * S) :=
| inter_l p1 p2 s p1' s' : f1 p1 s = Some (p1', s') -> interleave f1 f2 (p1, p2, s) (p1', p2, s')
| inter_r p1 p2 s p2' s' : f2 p2 s = Some (p2', s') -> interleave f1 f2 (p1, p2, s) (p1, p2', s').

(** A scheduler: [true] runs a statement of the first, [false] one of the
    second; a program that has ended lets the turn pass. *)
Fixpoint schedule {P S} (f1 f2 : P -> S -> option (P * S)) (turns : list bool) (c : P * P * S)
    : P * P * S :=
  match turns with
  | [] => c
  | b :: turns =>
    let '(p1, p2, s) := c in
    match (if b then f1 p1 s else f2 p2 s) with
    | Some (p', s') => schedule f1 f2 turns (if b then (p', p2, s') else (p1, p', s'))
    | None => schedule f1 f2 turns c
    end
  end.

Lemma schedule_rtc {P S} (f1 f2 : P -> S -> option (P * S)) turns c :
  rtc (interleave f1 f2) c (schedule f1 f2 turns c).
Proof.
  revert c. induction turns as [|b turns IH]; intros [[p1 p2] s]; [apply rtc_refl|]. simpl.
  destruct b; [destruct (f1 p1 s) as [[p' s']|] eqn:E|destruct (f2 p2 s) as [[p' s']|] eqn:E];
    try apply IH; (eapply rtc_l; [|apply IH]); by constructor.
Qed.
