(* ===== verification/Filesystem.v ===== *)
(** * The world a fetch runs in, and the [os] calls the fetchers make

    A [World] holds the local filesystem (a set of directories and a map from
    file path to contents), the directories in which nothing may be created
    or removed (permission errors), the remote content host (for each URL the
    answers it will give to successive requests), the trace of network events
    (requests and back-off sleeps), and the process configuration that
    [get_data_home] and the description lookup read.

    Paths are lists of components from the filesystem root; [join p n] is
    [os.path.join(p, n)] for a component [n] without a separator, and
    [dirname] is [os.path.dirname].  [os_makedirs] follows CPython's
    [os.makedirs(name, exist_ok=False)] line by line: create the missing
    parent recursively, swallow a [FileExistsError] from that recursive call,
    then [mkdir] the leaf, which raises [FileExistsError] when it exists. *)

From stdpp Require Import base gmap strings list.
From Stdlib Require Import Strings.Byte.
From S2P Require Import Prelude.
Local Open Scope py_scope.

Definition path := list string.
Definition bytes := list byte.

(** What the content host answers to one GET request. *)
Inductive response :=
| Served (body : bytes)             (* 200, the whole body *)
| Interrupted (partial : bytes)     (* the transfer broke off after [partial] *)
| TimedOut                          (* the read timeout elapsed *)
| ConnectionReset
| HttpStatus (code : nat).          (* a non-2xx status or a redirect loop *)

(** Observable behaviour of a run: the network and the log. *)
Inductive event :=
| Request (url : string)
| Sleep (seconds : nat)
| Log (message : string).           (* a record handed to [logger.info] *)

(** The exceptions the modelled code raises. *)
Inductive exn :=
| FileExistsError (p : path)
| FileNotFoundError (p : path)
| NotADirectoryError (p : path)
| IsADirectoryError (p : path)
| PermissionError (p : path)
| IOError (role : string) (p : path)                  (* "Data {role}={p} not found ..." *)
| IntegrityError (p : path) (expected actual : string)
| TransientFetchError (url : string)
| AttributeError (name : string)
| UnicodeDecodeError (start stop : nat) (reason : string).  (* "'utf-8' codec can't decode ..." *)

Record World := mkWorld {
  w_dirs : gset path;
  w_files : gmap path bytes;
  w_readonly : gset path;
  w_remote : gmap string (list response);
  w_trace : list event;
  w_env_data_home : option path;     (* the process-wide default for data_home *)
  w_home : path;                     (* the user's home directory *)
  w_pkg_dir : path                   (* dirname(__file__) of the dataset modules *)
}.

Abbreviation M := (PyM World exn).

Definition with_dirs (d : gset path) (w : World) : World :=
  {| w_dirs := d; w_files := w_files w; w_readonly := w_readonly w;
     w_remote := w_remote w; w_trace := w_trace w;
     w_env_data_home := w_env_data_home w; w_home := w_home w;
     w_pkg_dir := w_pkg_dir w |}.

Definition with_files (f : gmap path bytes) (w : World) : World :=
  {| w_dirs := w_dirs w; w_files := f; w_readonly := w_readonly w;
     w_remote := w_remote w; w_trace := w_trace w;
     w_env_data_home := w_env_data_home w; w_home := w_home w;
     w_pkg_dir := w_pkg_dir w |}.

Definition with_net (r : gmap string (list response)) (t : list event) (w : World)
  : World :=
  {| w_dirs := w_dirs w; w_files := w_files w; w_readonly := w_readonly w;
     w_remote := r; w_trace := t;
     w_env_data_home := w_env_data_home w; w_home := w_home w;
     w_pkg_dir := w_pkg_dir w |}.

Lemma with_dirs_twice d d' w : with_dirs d (with_dirs d' w) = with_dirs d w.
Proof. done. Qed.

(** ** [os.path] *)

Definition join (p : path) (name : string) : path := p ++ [name].

Definition dirname (p : path) : path := removelast p.

Definition is_dir (w : World) (p : path) : bool := bool_decide (p ∈ w_dirs w).

Definition is_file (w : World) (p : path) : bool :=
  match w_files w !! p with Some _ => true | None => false end.

Definition path_exists (w : World) (p : path) : bool := is_dir w p || is_file w p.

Lemma is_file_with_dirs d w p : is_file (with_dirs d w) p = is_file w p.
Proof. done. Qed.

(** [os.path.exists(p)] *)
Definition os_path_exists (p : path) : M bool := fun w => (w, inr (path_exists w p)).

(** ** [os] *)

(** Creating or removing the entry [p] needs its parent to be a directory in
    which the process may write. *)
Definition check_parent (p : path) : M unit := fun w =>
  let d := dirname p in
  if is_dir w d then
    if bool_decide (d ∈ w_readonly w) then (w, inl (PermissionError p)) else (w, inr tt)
  else if is_file w d then (w, inl (NotADirectoryError p))
  else (w, inl (FileNotFoundError p)).

(** [os.mkdir(p)] *)
Definition os_mkdir (p : path) : M unit :=
  let* w := pget in
  if path_exists w p then praise (FileExistsError p) else
  let* _ := check_parent p in
  pmodify (fun w => with_dirs ({[p]} ∪ w_dirs w) w).

Definition is_FileExistsError (e : exn) : bool :=
  match e with FileExistsError _ => true | _ => false end.

(** [os.makedirs(name)] on the reversed component list [rp = rev name]:
<<
    head, tail = path.split(name)
    if head and tail and not path.exists(head):
        try:
            makedirs(head, exist_ok=exist_ok)
        except FileExistsError:
            pass
    mkdir(name, mode)
>>
    Paths are absolute, so [head] and [tail] are non-empty whenever [name] is
    not the root. *)
Fixpoint makedirs_rev (rp : list string) : M unit :=
  match rp with
  | [] => os_mkdir []
  | _ :: rhead =>
      let* ex := os_path_exists (rev rhead) in
      let* _ := (if ex then pret tt
          else pcatch (makedirs_rev rhead) is_FileExistsError (fun _ => pret tt)) in
      os_mkdir (rev rp)
  end.

Definition os_makedirs (p : path) : M unit := makedirs_rev (rev p).

(** [open(p, 'wb')] followed by [write(b)] and [close()]. *)
Definition write_file (p : path) (b : bytes) : M unit :=
  let* w := pget in
  if is_dir w p then praise (IsADirectoryError p) else
  let* _ := check_parent p in
  pmodify (fun w => with_files (<[p := b]> (w_files w)) w).

(** [open(p).read()] *)
Definition read_file (p : path) : M bytes := fun w =>
  match w_files w !! p with
  | Some b => (w, inr b)
  | None => if is_dir w p then (w, inl (IsADirectoryError p))
            else (w, inl (FileNotFoundError p))
  end.

(** [os.remove(p)] *)
Definition os_remove (p : path) : M unit :=
  let* w := pget in
  if is_file w p then
    let* _ := check_parent p in
    pmodify (fun w => with_files (delete p (w_files w)) w)
  else if is_dir w p then praise (IsADirectoryError p)
  else praise (FileNotFoundError p).

(** [os.replace(src, dst)]: one atomic step, [dst] is never seen half
    written. *)
Definition os_replace (src dst : path) : M unit :=
  let* w := pget in
  match w_files w !! src with
  | None => praise (FileNotFoundError src)
  | Some b =>
      if is_dir w dst then praise (IsADirectoryError dst) else
      let* _ := check_parent dst in
      pmodify (fun w => with_files (<[dst := b]> (delete src (w_files w))) w)
  end.

(** ** The network *)

(** One GET request: it is recorded in the trace and consumes the host's next
    answer for [url]; a host with no answer left times out. *)
Definition http_get (url : string) : M response := fun w =>
  let t := w_trace w ++ [Request url] in
  match w_remote w !! url with
  | Some (r :: rs) => (with_net (<[url := rs]> (w_remote w)) t w, inr r)
  | _ => (with_net (w_remote w) t w, inr TimedOut)
  end.

(** [time.sleep(n)] between retries. *)
Definition sleep (n : nat) : M unit :=
  pmodify (fun w => with_net (w_remote w) (w_trace w ++ [Sleep n]) w).

(** ** Logging *)

(** A path as the string [os.path.join] builds. *)
Definition path_str (p : path) : string := String.concat "" (map (fun c => "/" +:+ c) p).

(** [logger.info(msg)]: the record is appended to the run's events. *)
Definition logger_info (msg : string) : M unit :=
  pmodify (fun w => with_net (w_remote w) (w_trace w ++ [Log msg]) w).

(** A log record changes nothing but the events. *)
Abbreviation log_world w msg := (with_net (w_remote w) (w_trace w ++ [Log msg]) w).

Lemma logger_info_preserves (R : relation World) msg :
  (forall w, R w (log_world w msg)) -> preserves R (logger_info msg).
Proof. intros HR w w' r. unfold logger_info. py_simpl. intros [= <- _]. apply HR. Qed.

(** ** Frames: what each primitive leaves alone *)

(** The process configuration, the network and the filesystem parts of a
    world, as projections for [unchanged]. *)
Definition config (w : World) := (w_readonly w, w_env_data_home w, w_home w, w_pkg_dir w).
Definition net (w : World) := (w_remote w, w_trace w).

(** Directories only appear, and only inside [X]. *)
Definition dirs_within (X : gset path) : relation World := fun w w' =>
  w_dirs w ⊆ w_dirs w' /\ w_dirs w' ⊆ w_dirs w ∪ X.

#[export] Instance dirs_within_preorder X : PreOrder (dirs_within X).
Proof. split; [intros w; split; set_solver | intros ??? [] []; split; set_solver]. Qed.

(** A log record keeps the frames that do not look at the events. *)
Ltac log_frame :=
  intros; repeat intro; try unfold dirs_within in *; simpl in *;
  first [done | match goal with H : _ |- _ => exact H end | split; set_solver | solve [eauto with pym]].

Lemma dirs_within_mono X Y w w' : X ⊆ Y -> dirs_within X w w' -> dirs_within Y w w'.
Proof. intros ? []; split; set_solver. Qed.

Lemma os_path_exists_pure p : pure_read (os_path_exists p).
Proof. by intros w w' r [= ->]. Qed.

Lemma check_parent_pure p : pure_read (check_parent p).
Proof.
  intros w w' r. unfold check_parent.
  destruct (is_dir _ _); [destruct (bool_decide _)|destruct (is_file _ _)]; by intros [= ->].
Qed.

Lemma read_file_pure p : pure_read (read_file p).
Proof.
  intros w w' r. unfold read_file.
  destruct (_ !! _); [|destruct (is_dir _ _)]; by intros [= ->].
Qed.

#[export] Hint Resolve os_path_exists_pure check_parent_pure read_file_pure : pym.

Lemma read_file_inr p w w' t : read_file p w = (w', inr t) -> w' = w /\ w_files w !! p = Some t.
Proof. unfold read_file. destruct (_ !! _); [by intros [= <- <-]|by destruct (is_dir _ _)]. Qed.

Lemma config_pkg_dir w w' : config w' = config w -> w_pkg_dir w' = w_pkg_dir w.
Proof. unfold config. by intros [= _ _ _ ->]. Qed.

Lemma config_readonly w w' : config w' = config w -> w_readonly w' = w_readonly w.
Proof. unfold config. by intros [= -> _ _ _]. Qed.

(** The frame goals of this file: unfold the primitive, split binds, and
    close the state updates by computation. *)
Ltac frame_tac :=
  repeat (first [ exact _ | progress intros | solve [eauto with pym] | apply preserves_bind | apply preserves_if | apply preserves_catch
                | apply preserves_ret | apply preserves_raise | apply preserves_get
                | apply preserves_pure_read; [exact _ | by eauto with pym]
                | apply preserves_modify; intros
                | intros; progress case_match ]);
  try done; try (split; simpl; set_solver).

(** The recursion of [os.makedirs] keeps every preorder that [os.mkdir]
    keeps. *)
Lemma makedirs_rev_preserves (R : relation World) `{!PreOrder R} rp :
  (forall p, preserves R (os_mkdir p)) -> preserves R (makedirs_rev rp).
Proof.
  intros Hm. induction rp as [|x rp IH]; simpl; [apply Hm|].
  apply preserves_bind; [exact _|apply preserves_pure_read; [exact _|auto with pym]|].
  intros ex. apply preserves_bind; [exact _| |intros; apply Hm].
  apply preserves_if; [frame_tac|]. apply preserves_catch; [exact _|exact IH|frame_tac].
Qed.

Section Frames.
Context {B : Type} (f : World -> B).

(** A projection that the directory, file or network setters keep. *)
Hypothesis Hdirs : forall d w, f (with_dirs d w) = f w.
Hypothesis Hfiles : forall fs w, f (with_files fs w) = f w.
Hypothesis Hnet : forall r t w, f (with_net r t w) = f w.

Lemma os_mkdir_keeps p : preserves (unchanged f) (os_mkdir p).
Proof. unfold os_mkdir. frame_tac; apply Hdirs. Qed.

Lemma makedirs_rev_keeps rp : preserves (unchanged f) (makedirs_rev rp).
Proof.
  apply makedirs_rev_preserves; [exact _|apply os_mkdir_keeps].
Qed.

Lemma os_makedirs_keeps p : preserves (unchanged f) (os_makedirs p).
Proof. apply makedirs_rev_keeps. Qed.
End Frames.

Section FileFrames.
Context {B : Type} (f : World -> B).
Hypothesis Hfiles : forall fs w, f (with_files fs w) = f w.
Hypothesis Hnet : forall r t w, f (with_net r t w) = f w.

Lemma write_file_keeps p b : preserves (unchanged f) (write_file p b).
Proof. unfold write_file. frame_tac; apply Hfiles. Qed.

Lemma os_remove_keeps p : preserves (unchanged f) (os_remove p).
Proof. unfold os_remove. frame_tac; apply Hfiles. Qed.

Lemma os_replace_keeps p q : preserves (unchanged f) (os_replace p q).
Proof. unfold os_replace. frame_tac; apply Hfiles. Qed.

Lemma http_get_keeps u : preserves (unchanged f) (http_get u).
Proof. intros w w' r. unfold http_get. repeat case_match; intros [= <- _]; apply Hnet. Qed.

Lemma sleep_keeps n : preserves (unchanged f) (sleep n).
Proof. unfold sleep. frame_tac. apply Hnet. Qed.

Lemma logger_info_keeps msg : preserves (unchanged f) (logger_info msg).
Proof. unfold logger_info. frame_tac. apply Hnet. Qed.
End FileFrames.

(** [os.makedirs(p)] creates nothing but prefixes of [p]. *)
Lemma makedirs_rev_dirs rp : preserves (dirs_within (list_to_set (inits (rev rp)))) (makedirs_rev rp).
Proof.
  induction rp as [|x rp IH]; simpl.
  - unfold os_mkdir. frame_tac.
  - apply preserves_bind; [exact _|apply preserves_pure_read; [exact _|auto with pym]|].
    intros ex. apply preserves_bind; [exact _| |].
    + apply preserves_if; [frame_tac|]. apply preserves_catch; [exact _| |frame_tac].
      eapply preserves_mono; [|exact IH]. intros w w'. apply dirs_within_mono.
      rewrite inits_app_last. set_solver.
    + intros _. unfold os_mkdir. frame_tac.
      rewrite inits_app_last. split; simpl; set_solver.
Qed.

(** ** Running the primitives *)

Lemma dirname_join p x : dirname (join p x) = p.
Proof. apply removelast_last. Qed.

Lemma check_parent_inv p w w' r :
  check_parent p w = (w', r) ->
  w' = w /\ (r = inr tt <-> dirname p ∈ w_dirs w /\ dirname p ∉ w_readonly w).
Proof.
  unfold check_parent, is_dir.
  destruct (bool_decide_reflect (dirname p ∈ w_dirs w));
    [destruct (bool_decide_reflect (dirname p ∈ w_readonly w))|destruct (is_file _ _)];
    intros [= <- <-]; split; naive_solver.
Qed.

Lemma os_mkdir_inv p w w' r :
  os_mkdir p w = (w', r) ->
  (r = inr tt /\ path_exists w p = false /\ dirname p ∈ w_dirs w /\
   dirname p ∉ w_readonly w /\ w' = with_dirs ({[p]} ∪ w_dirs w) w)
  \/ (w' = w /\ (exists e, r = inl e)).
Proof.
  unfold os_mkdir. py_simpl. destruct (path_exists w p); [intros [= <- <-]; eauto|].
  destruct (check_parent p w) as [w1 [e|u]] eqn:Hc;
    apply check_parent_inv in Hc as [-> Hc]; intros [= <- <-]; [right; eauto|left; destruct u].
  naive_solver.
Qed.

Lemma os_mkdir_run p w :
  path_exists w p = false -> dirname p ∈ w_dirs w -> dirname p ∉ w_readonly w ->
  os_mkdir p w = (with_dirs ({[p]} ∪ w_dirs w) w, inr tt).
Proof.
  intros Hp Hd Hr. unfold os_mkdir. py_simpl. rewrite Hp.
  unfold check_parent, is_dir. rewrite !bool_decide_true, bool_decide_false by done. done.
Qed.

(** ** Well-formed filesystems

    A tree: the root is a directory, every directory and file sits in a
    directory, and no path is both a directory and a file. *)
Record wf_world (w : World) : Prop := {
  wf_root : [] ∈ w_dirs w;
  wf_dir_parent : forall p, p ∈ w_dirs w -> dirname p ∈ w_dirs w;
  wf_file_parent : forall p b, w_files w !! p = Some b -> dirname p ∈ w_dirs w;
  wf_disjoint : forall p, p ∈ w_dirs w -> w_files w !! p = None
}.

Lemma wf_world_iff w :
  wf_world w <->
  [] ∈ w_dirs w /\ set_Forall (fun p => dirname p ∈ w_dirs w) (w_dirs w) /\
  map_Forall (fun p _ => dirname p ∈ w_dirs w) (w_files w) /\
  set_Forall (fun p => w_files w !! p = None) (w_dirs w).
Proof.
  split; [intros []; split_and!; auto|].
  intros (? & ? & Hf & ?). split; auto.
Qed.

(** The network and the events are not part of the tree. *)
Lemma wf_world_with_net r t w : wf_world w -> wf_world (with_net r t w).
Proof. intros []. by split. Qed.

#[export] Hint Resolve wf_world_with_net : pym.

(** Well-formedness is decidable: a concrete world is checked by computation. *)
#[export] Instance wf_world_dec w : Decision (wf_world w).
Proof.
  destruct (decide ([] ∈ w_dirs w /\ set_Forall (fun p => dirname p ∈ w_dirs w) (w_dirs w) /\
                    map_Forall (fun p _ => dirname p ∈ w_dirs w) (w_files w) /\
                    set_Forall (fun p => w_files w !! p = None) (w_dirs w))) as [H|H];
    [left|right]; by rewrite wf_world_iff.
Defined.

Section WellFormed.
Context (w : World) (Hwf : wf_world w).

Lemma wf_inits p q : p ∈ w_dirs w -> q ∈ inits p -> q ∈ w_dirs w.
Proof.
  rewrite elem_of_inits. intros Hp [r ->]. revert Hp.
  induction r as [|x r IH] using rev_ind; [by rewrite app_nil_r|].
  intros Hp. apply IH. rewrite app_assoc in Hp.
  apply wf_dir_parent in Hp; [|done]. unfold dirname in Hp. by rewrite removelast_last in Hp.
Qed.

(** Nothing exists below a regular file. *)
Lemma wf_under_file d x : is_file w d = true -> path_exists w (join d x) = false.
Proof.
  unfold path_exists, is_file, is_dir. destruct (w_files w !! d) eqn:Hd; [intros _|done].
  apply orb_false_intro.
  - apply bool_decide_false. intros Hx%(wf_dir_parent _ Hwf).
    rewrite dirname_join in Hx. apply (wf_disjoint _ Hwf) in Hx. congruence.
  - destruct (w_files w !! join d x) eqn:Hx; [|done].
    apply (wf_file_parent _ Hwf) in Hx. rewrite dirname_join in Hx.
    apply (wf_disjoint _ Hwf) in Hx. congruence.
Qed.

Lemma wf_add_dir p :
  path_exists w p = false -> dirname p ∈ w_dirs w ->
  wf_world (with_dirs ({[p]} ∪ w_dirs w) w).
Proof.
  unfold path_exists, is_dir, is_file. intros [Hd Hf]%orb_false_elim Hp.
  apply bool_decide_eq_false in Hd. destruct (w_files w !! p) eqn:Hfp; [done|].
  destruct Hwf as [Hr Hdp Hfp' Hdis]. split; simpl.
  - set_solver.
  - intros q [->%elem_of_singleton|Hq]%elem_of_union; [set_solver|].
    apply elem_of_union_r. auto.
  - intros q c Hq. apply elem_of_union_r. eauto.
  - intros q [->%elem_of_singleton|Hq]%elem_of_union; auto.
Qed.

Lemma wf_write_file p b :
  p ∉ w_dirs w -> dirname p ∈ w_dirs w -> wf_world (with_files (<[p := b]> (w_files w)) w).
Proof.
  intros Hd Hp. destruct Hwf. split; simpl; [done|done| |].
  - intros q c. rewrite lookup_insert. case_decide; naive_solver.
  - intros q Hq. rewrite lookup_insert_ne by set_solver. auto.
Qed.

Lemma wf_delete_file p : wf_world (with_files (delete p (w_files w)) w).
Proof.
  destruct Hwf. split; simpl; [done|done| |].
  - intros q c. rewrite lookup_delete. case_decide; naive_solver.
  - intros q Hq. rewrite lookup_delete. case_decide; auto.
Qed.

Lemma wf_net r t : wf_world (with_net r t w).
Proof. destruct Hwf. by split. Qed.
End WellFormed.

Lemma write_file_inv p b w w' r :
  write_file p b w = (w', r) ->
  (r = inr tt /\ p ∉ w_dirs w /\ dirname p ∈ w_dirs w /\ dirname p ∉ w_readonly w /\
   w' = with_files (<[p := b]> (w_files w)) w)
  \/ (w' = w /\ (exists e, r = inl e)).
Proof.
  unfold write_file, is_dir. py_simpl.
  destruct (bool_decide_reflect (p ∈ w_dirs w)); [intros [= <- <-]; eauto|].
  destruct (check_parent p w) as [w1 [e|[]]] eqn:Hc;
    apply check_parent_inv in Hc as [-> Hc]; intros [= <- <-]; [right; eauto|left].
  naive_solver.
Qed.

Lemma os_remove_inv p w w' r :
  os_remove p w = (w', r) ->
  (r = inr tt /\ is_file w p = true /\ w' = with_files (delete p (w_files w)) w)
  \/ (w' = w /\ (exists e, r = inl e)).
Proof.
  unfold os_remove. py_simpl.
  destruct (is_file w p) eqn:Hf; [|destruct (is_dir w p); intros [= <- <-]; eauto].
  destruct (check_parent p w) as [w1 [e|[]]] eqn:Hc;
    apply check_parent_inv in Hc as [-> Hc]; intros [= <- <-]; [right; eauto|left; eauto].
Qed.

Lemma os_replace_inv src dst w w' r :
  os_replace src dst w = (w', r) ->
  (r = inr tt /\ dst ∉ w_dirs w /\ dirname dst ∈ w_dirs w /\
   exists b, w_files w !! src = Some b /\
             w' = with_files (<[dst := b]> (delete src (w_files w))) w)
  \/ (w' = w /\ (exists e, r = inl e)).
Proof.
  unfold os_replace, is_dir. py_simpl.
  destruct (w_files w !! src) as [b|] eqn:Hs; [|intros [= <- <-]; eauto].
  destruct (bool_decide_reflect (dst ∈ w_dirs w)); [intros [= <- <-]; eauto|].
  destruct (check_parent dst w) as [w1 [e|[]]] eqn:Hc;
    apply check_parent_inv in Hc as [-> Hc]; intros [= <- <-]; [right; eauto|left].
  naive_solver.
Qed.

(** ** Every operation keeps the filesystem a tree *)

Lemma os_mkdir_wf p : preserves (implies wf_world) (os_mkdir p).
Proof.
  intros w w' r H Hwf.
  apply os_mkdir_inv in H as [(_ & Hp & Hd & _ & ->)|(-> & _)]; [by apply wf_add_dir|done].
Qed.

Lemma os_makedirs_wf p : preserves (implies wf_world) (os_makedirs p).
Proof.
  apply makedirs_rev_preserves; [exact _|apply os_mkdir_wf].
Qed.

Lemma write_file_wf p b : preserves (implies wf_world) (write_file p b).
Proof.
  intros w w' r H Hwf.
  apply write_file_inv in H as [(_ & Hp & Hd & _ & ->)|(-> & _)]; [by apply wf_write_file|done].
Qed.

Lemma os_remove_wf p : preserves (implies wf_world) (os_remove p).
Proof.
  intros w w' r H Hwf.
  apply os_remove_inv in H as [(_ & _ & ->)|(-> & _)]; [by apply wf_delete_file|done].
Qed.

Lemma os_replace_wf p q : preserves (implies wf_world) (os_replace p q).
Proof.
  intros w w' r H Hwf.
  apply os_replace_inv in H as [(_ & Hq & Hd & b & _ & ->)|(-> & _)]; [|done].
  apply (wf_write_file (with_files _ w)); [by apply wf_delete_file|done|done].
Qed.

Lemma http_get_wf u : preserves (implies wf_world) (http_get u).
Proof.
  intros w w' r. unfold http_get. intros H Hwf.
  repeat case_match; injection H as <- _; by apply wf_net.
Qed.

Lemma sleep_wf n : preserves (implies wf_world) (sleep n).
Proof. intros w w' r [= <- _] Hwf. by apply wf_net. Qed.

#[export] Hint Resolve os_mkdir_wf os_makedirs_wf write_file_wf os_remove_wf
  os_replace_wf http_get_wf sleep_wf : pym.

(** ** [os.makedirs] *)

Lemma os_mkdir_created p w w' : os_mkdir p w = (w', inr tt) -> p ∈ w_dirs w'.
Proof. intros [(_ & _ & _ & _ & ->)|(_ & e & ?)]%os_mkdir_inv; [simpl; set_solver|done]. Qed.

(** A successful [os.makedirs(p)] leaves [p] a directory. *)
Lemma os_makedirs_created p w w' : os_makedirs p w = (w', inr tt) -> p ∈ w_dirs w'.
Proof.
  unfold os_makedirs. rewrite <- (rev_involutive p) at 2.
  destruct (rev p) as [|x rp]; simpl; [apply os_mkdir_created|].
  intros H. run_bind H. run_bind H. by apply os_mkdir_created in H.
Qed.

Lemma inits_length {A} (p q : list A) : p ∈ inits q -> length p <= length q.
Proof. intros [r ->]%elem_of_inits. rewrite length_app. lia. Qed.

(** [os.makedirs(p)] on a tree where [p] does not exist, no prefix of [p] is
    a file and every directory it has to create lies in a writable parent:
    it succeeds and adds exactly the missing prefixes of [p]. *)
Lemma os_makedirs_creates w p :
  wf_world w -> path_exists w p = false ->
  Forall (fun q => is_file w q = false) (inits p) ->
  Forall (fun q => q ∉ w_dirs w -> dirname q ∉ w_readonly w) (inits p) ->
  os_makedirs p w = (with_dirs (w_dirs w ∪ list_to_set (inits p)) w, inr tt).
Proof.
  revert w. induction p as [|x h IH] using rev_ind; intros w Hwf Hp Hf' Hro'.
  { unfold path_exists, is_dir in Hp. rewrite bool_decide_true in Hp; [done|apply Hwf]. }
  pose proof (proj1 (Forall_forall _ _) Hf') as Hf.
  pose proof (proj1 (Forall_forall _ _) Hro') as Hro. simpl in Hf, Hro.
  assert (Hx : h ++ [x] ∉ w_dirs w).
  { unfold path_exists, is_dir in Hp. apply orb_false_elim in Hp as [Hp _].
    by apply bool_decide_eq_false in Hp. }
  assert (Hdir : dirname (h ++ [x]) = h) by apply dirname_join.
  unfold os_makedirs. rewrite rev_unit. simpl. rewrite rev_involutive.
  unfold os_path_exists. py_simpl. rewrite inits_app_last.
  destruct (path_exists w h) eqn:Hh.
  - assert (h ∈ w_dirs w).
    { unfold path_exists, is_dir in Hh. rewrite (Hf h) in Hh by eauto with pym.
      apply orb_true_elim in Hh as [Hh|]; [by apply bool_decide_eq_true in Hh|done]. }
    rewrite os_mkdir_run; [|done|by rewrite Hdir|apply Hro; eauto with pym].
    do 2 f_equal. pose proof (wf_inits w Hwf h). set_solver.
  - assert (Hrec : os_makedirs h w = (with_dirs (w_dirs w ∪ list_to_set (inits h)) w, inr tt)).
    { apply IH; [done|done| |]; apply Forall_forall; [intros; apply Hf|intros; apply Hro];
        eauto with pym. }
    unfold os_makedirs in Hrec. rewrite Hrec. simpl.
    assert (Hlen : h ++ [x] ∉ inits h).
    { intros ?%inits_length. rewrite length_app in *. simpl in *. lia. }
    rewrite os_mkdir_run; simpl.
    + rewrite with_dirs_twice. do 2 f_equal. set_solver.
    + unfold path_exists. rewrite is_file_with_dirs, (Hf (h ++ [x])) by eauto with pym.
      unfold is_dir. rewrite bool_decide_false; [done|simpl; set_solver].
    + rewrite Hdir. simpl. apply elem_of_union_r, elem_of_list_to_set, elem_of_inits_self.
    + apply Hro; eauto with pym.
Qed.

Lemma write_file_run p b w :
  p ∉ w_dirs w -> dirname p ∈ w_dirs w -> dirname p ∉ w_readonly w ->
  write_file p b w = (with_files (<[p := b]> (w_files w)) w, inr tt).
Proof.
  intros Hp Hd Hr. unfold write_file, is_dir. py_simpl.
  rewrite bool_decide_false by done. unfold check_parent, is_dir.
  by rewrite bool_decide_true, bool_decide_false.
Qed.

Lemma os_remove_run p w :
  is_file w p = true -> dirname p ∈ w_dirs w -> dirname p ∉ w_readonly w ->
  os_remove p w = (with_files (delete p (w_files w)) w, inr tt).
Proof.
  intros Hp Hd Hr. unfold os_remove. py_simpl. rewrite Hp.
  unfold check_parent, is_dir. by rewrite bool_decide_true, bool_decide_false.
Qed.

Lemma http_get_inv u w w' r :
  http_get u w = (w', r) ->
  exists resp, r = inr resp /\ w_files w' = w_files w /\ w_dirs w' = w_dirs w /\
    config w' = config w /\ w_trace w' = w_trace w ++ [Request u] /\
    forall u', u' <> u -> w_remote w' !! u' = w_remote w !! u'.
Proof.
  unfold http_get. destruct (w_remote w !! u) as [[|resp rs]|] eqn:E;
    intros [= <- <-]; eexists; (split; [done|]); do 4 (split; [done|]); intros u' Hu';
    simpl; rewrite ?lookup_insert_ne; done.
Qed.

Lemma os_replace_run src dst b w :
  w_files w !! src = Some b -> dst ∉ w_dirs w -> dirname dst ∈ w_dirs w ->
  dirname dst ∉ w_readonly w ->
  os_replace src dst w = (with_files (<[dst := b]> (delete src (w_files w))) w, inr tt).
Proof.
  intros Hs Hd Hp Hr. unfold os_replace, is_dir. py_simpl. rewrite Hs.
  rewrite bool_decide_false by done. unfold check_parent, is_dir.
  by rewrite bool_decide_true, bool_decide_false.
Qed.

Lemma http_get_run u resp rs w :
  w_remote w !! u = Some (resp :: rs) ->
  http_get u w = (with_net (<[u := rs]> (w_remote w)) (w_trace w ++ [Request u]) w, inr resp).
Proof. unfold http_get. by intros ->. Qed.

Lemma with_files_twice f g w : with_files f (with_files g w) = with_files f w.
Proof. done. Qed.

(** [os.makedirs(p)] when [p] already exists raises [FileExistsError] and
    changes nothing. *)
Lemma os_makedirs_exists w p :
  wf_world w -> p <> [] -> path_exists w p = true ->
  os_makedirs p w = (w, inl (FileExistsError p)).
Proof.
  intros Hwf Hne Hp. destruct p as [|x' p'] using rev_ind; [done|]. clear IHp'.
  unfold os_makedirs. rewrite rev_unit. simpl. rewrite rev_involutive.
  unfold os_path_exists. py_simpl.
  assert (Hh : path_exists w p' = true).
  { unfold path_exists, is_dir, is_file in *. rewrite bool_decide_true; [done|].
    rewrite <- (dirname_join p' x').
    apply orb_true_elim in Hp as [Hp|Hp].
    - apply bool_decide_eq_true in Hp. by apply wf_dir_parent.
    - revert Hp. case_match; [intros _|discriminate]. by eapply wf_file_parent. }
  rewrite Hh. py_simpl. unfold os_mkdir. py_simpl. by rewrite Hp.
Qed.
