(* ===== verification/Utf8.v ===== *)
(** * Reading the description: [codecs.open(path, encoding="utf-8").read()]

    Both fetchers read [descr/<DESCRIPTION>] with
    [codecs.open(..., encoding="utf-8")] and [dfile.read()] (adk_equilibrium.py
    lines 111-114, ifabp_water.py lines 119-121).  That call decodes the
    file's bytes with CPython's strict UTF-8 decoder, through the stream
    reader of the [codecs] module.  This file models both layers as CPython
    writes them:

    - [utf8_scan] is the inner loop of [utf8_decode] in
      Objects/stringlib/codecs.h: it decodes one code point at the head of the
      input, or returns the code its caller switches on (0: end of input or a
      truncated sequence, 1: invalid start byte, 2-4: invalid continuation
      byte at that offset);
    - [decode_from] is the loop of [unicode_decode_utf8]
      (Objects/unicodeobject.c) with its [final] flag: a non-final decode keeps
      a truncated sequence at the end for the next chunk instead of raising;
    - [stream_read] is [codecs.StreamReader.read()] with no size: it decodes
      the whole file as a non-final chunk, keeps the undecoded rest in its
      byte buffer, decodes that rest once more when the file is exhausted,
      and returns the characters decoded, dropping whatever is still in the
      buffer;
    - [codecs_read] is the whole call on the modelled filesystem; a decoding
      error raises [UnicodeDecodeError(start, end, reason)].

    A Python [str] is its list of code points ([text]).  The reference is the
    UTF-8 encoding of Unicode scalar values, [utf8_encode] (the encoding of
    [str.encode("utf-8")] on strings without surrogates).  The theorems: the
    scan decodes exactly the encoding of one scalar value; a final decode
    accepts exactly the encodings of scalar-value strings and inverts the
    encoder (the reference the stream read is compared with: the stream
    reader itself never decodes with [final] set); the stream read is
    a single non-final decode, so it returns the text of the longest
    complete prefix and drops a truncated last character without an error;
    and a decoding error points at the first byte that is not UTF-8. *)

From stdpp Require Import base list strings.
From Stdlib Require Import ZArith Strings.Byte.
From S2P Require Import Prelude Filesystem.
Local Open Scope py_scope.

(** A Python [str]: its code points. *)
Abbreviation text := (list Z).

Local Open Scope Z_scope.

(** [(unsigned char)s[i]] *)
Definition byte_val (b : byte) : Z := Z.of_N (Byte.to_N b).

(** [IS_CONTINUATION_BYTE(ch)]: [0x80 <= ch < 0xC0]. *)
Definition is_continuation (ch : Z) : bool := (0x80 <=? ch) && (ch <? 0xC0).

(** What one round of the decoding loop finds at the head of the input. *)
Inductive scan :=
| Decoded (ch : Z) (rest : bytes)   (* a code point and the bytes after it *)
| Stop (code : nat).                    (* the value [utf8_decode] returns *)

(** One round of [utf8_decode] (Objects/stringlib/codecs.h).  The checks and
    their order are the C code's: a lead byte below [0xC2] or above [0xF4]
    is an invalid start; the second byte of a three- or four-byte sequence is
    checked for the overlong ([E0 80..9F], [F0 80..8F]), surrogate
    ([ED A0..BF]) and out-of-range ([F4 90..BF]) cases as soon as it is
    there, even when the sequence is truncated; a missing byte stops with 0. *)
Definition utf8_scan (s : bytes) : scan :=
  match s with
  | [] => Stop 0
  | b1 :: s1 =>
    let ch := byte_val b1 in
    if ch <? 0x80 then Decoded ch s1
    else if ch <? 0xE0 then
      if ch <? 0xC2 then Stop 1 else
      match s1 with
      | [] => Stop 0
      | b2 :: s2 =>
        let ch2 := byte_val b2 in
        if negb (is_continuation ch2) then Stop 2
        else Decoded (Z.shiftl ch 6 + ch2 - (Z.shiftl 0xC0 6 + 0x80)) s2
      end
    else if ch <? 0xF0 then
      match s1 with
      | [] => Stop 0
      | b2 :: s2 =>
        let ch2 := byte_val b2 in
        if negb (is_continuation ch2) || (if ch2 <? 0xA0 then ch =? 0xE0 else ch =? 0xED)
        then Stop 2 else
        match s2 with
        | [] => Stop 0
        | b3 :: s3 =>
          let ch3 := byte_val b3 in
          if negb (is_continuation ch3) then Stop 3
          else Decoded (Z.shiftl ch 12 + Z.shiftl ch2 6 + ch3
                        - (Z.shiftl 0xE0 12 + Z.shiftl 0x80 6 + 0x80)) s3
        end
      end
    else if ch <? 0xF5 then
      match s1 with
      | [] => Stop 0
      | b2 :: s2 =>
        let ch2 := byte_val b2 in
        if negb (is_continuation ch2) || (if ch2 <? 0x90 then ch =? 0xF0 else ch =? 0xF4)
        then Stop 2 else
        match s2 with
        | [] => Stop 0
        | b3 :: s3 =>
          let ch3 := byte_val b3 in
          if negb (is_continuation ch3) then Stop 3 else
          match s3 with
          | [] => Stop 0
          | b4 :: s4 =>
            let ch4 := byte_val b4 in
            if negb (is_continuation ch4) then Stop 4
            else Decoded (Z.shiftl ch 18 + Z.shiftl ch2 12 + Z.shiftl ch3 6 + ch4
                          - (Z.shiftl 0xF0 18 + Z.shiftl 0x80 12 + Z.shiftl 0x80 6 + 0x80)) s4
          end
        end
      end
    else Stop 1
  end.

(** [UnicodeDecodeError("utf-8", data, start, end, reason)] *)
Record decode_error := DecodeError {
  de_start : nat;
  de_end : nat;
  de_reason : string
}.

(** Case 2 of [unicode_decode_utf8]: [ED A0..BF] at the very end of a
    non-final chunk is taken as a truncated surrogate and left for the next
    chunk. *)
Definition truncated_surrogate (s : bytes) : bool :=
  match s with
  | [b1; b2] => (byte_val b1 =? 0xED) && (0xA0 <=? byte_val b2) && (byte_val b2 <=? 0xBF)
  | _ => false
  end.

(** The loop of [unicode_decode_utf8(s, size, errors="strict", consumed)],
    from offset [pos] of the data: the decoded code points and the number of
    bytes consumed, or the error the strict handler raises.  [final] is
    [consumed == NULL].  The loop consumes at least one byte a round, so
    [length s + 1] rounds are enough ([decode_from_fuel]). *)
Fixpoint decode_from (fuel : nat) (final : bool) (pos : nat) (s : bytes)
    : decode_error + (text * nat) :=
  match fuel with
  | O => inr ([], pos)
  | S fuel =>
    match utf8_scan s with
    | Decoded ch rest =>
        match decode_from fuel final (pos + (length s - length rest))%nat rest with
        | inl e => inl e
        | inr (cs, k) => inr (ch :: cs, k)
        end
    | Stop 0 =>
        if final && negb (bool_decide (s = [])) then
          inl (DecodeError pos (pos + length s) "unexpected end of data")
        else inr ([], pos)
    | Stop 1 => inl (DecodeError pos (pos + 1) "invalid start byte")
    | Stop code =>
        if negb final && (code =? 2)%nat && truncated_surrogate s then inr ([], pos)
        else inl (DecodeError pos (pos + code - 1) "invalid continuation byte")
    end
  end.

(** [codecs.utf_8_decode(data, "strict", final)] *)
Definition utf8_decode (final : bool) (s : bytes) : decode_error + (text * nat) :=
  decode_from (S (length s)) final 0 s.

(** [codecs.StreamReader.read()] with [size = chars = -1] on a file whose
    [read()] returns all its bytes and then [b''].  First round: decode the
    data as a non-final chunk, keep the undecoded rest in [bytebuffer].
    Second round: the file is exhausted; if the buffer is empty the loop
    stops, otherwise the buffer is decoded once more and the loop stops
    because there was no new data.  The characters decoded are returned;
    the buffer's remaining bytes are not. *)
Definition stream_read (data : bytes) : decode_error + text :=
  match data with
  | [] => inr []
  | _ =>
    match utf8_decode false data with
    | inl e => inl e
    | inr (cs, k) =>
        match drop k data with
        | [] => inr cs
        | buf =>
            match utf8_decode false buf with
            | inl e => inl e
            | inr (cs', _) => inr (cs ++ cs')
            end
        end
    end
  end.

(** ** The reference: UTF-8 encoding of scalar values *)

(** A Unicode scalar value: a code point that is not a surrogate. *)
Definition is_scalar (c : Z) : bool :=
  (0 <=? c) && (c <? 0x110000) && negb ((0xD800 <=? c) && (c <=? 0xDFFF)).

(** [(char)v] for [0 <= v < 256]. *)
Definition byte_of (z : Z) : byte :=
  match Byte.of_N (Z.to_N z) with Some b => b | None => x00 end.

(** The encoder of [PyUnicode_EncodeUTF8] for one code point. *)
Definition encode_char (c : Z) : bytes :=
  if c <? 0x80 then [byte_of c]
  else if c <? 0x800 then
    [byte_of (0xC0 + Z.shiftr c 6); byte_of (0x80 + Z.land c 0x3F)]
  else if c <? 0x10000 then
    [byte_of (0xE0 + Z.shiftr c 12); byte_of (0x80 + Z.land (Z.shiftr c 6) 0x3F);
     byte_of (0x80 + Z.land c 0x3F)]
  else
    [byte_of (0xF0 + Z.shiftr c 18); byte_of (0x80 + Z.land (Z.shiftr c 12) 0x3F);
     byte_of (0x80 + Z.land (Z.shiftr c 6) 0x3F); byte_of (0x80 + Z.land c 0x3F)].

Definition utf8_encode (t : text) : bytes := t ≫= encode_char.

(** A chunk end that a non-final decode leaves for the next chunk: empty,
    a truncated sequence, or a truncated surrogate. *)
Definition pending (s : bytes) : Prop :=
  utf8_scan s = Stop 0 \/ truncated_surrogate s = true.

(** ** Reading the description file *)

(** [codecs.open(p, encoding="utf-8")] and [read()]: the file's bytes
    through the stream reader; a decoding error raises
    [UnicodeDecodeError]. *)
Definition codecs_read (p : path) : M text :=
  let* raw := read_file p in
  match stream_read raw with
  | inl e => praise (UnicodeDecodeError (de_start e) (de_end e) (de_reason e))
  | inr t => pret t
  end.

(** The text [codecs_read p] returns in [w], when it returns one. *)
Definition read_text (w : World) (p : path) : option text :=
  match w_files w !! p : option bytes with
  | Some raw => match stream_read raw with inr t => Some t | inl _ => None end
  | None => None
  end.


(** Inputs of the examples: a description file, a text with characters of
    one to four bytes, and bytes with a stray continuation byte. *)
Definition sample_text : text := [0x41; 0xE9; 0x20AC; 0x1F600].

Definition descr_world (raw : bytes) : World :=
  {| w_dirs := ∅; w_files := {[ ["descr"; "x.rst"] := raw ]}; w_readonly := ∅;
     w_remote := ∅; w_trace := []; w_env_data_home := None; w_home := []; w_pkg_dir := [] |}.

Definition bad_bytes : bytes := [x61; x80; x62].

(** ** Bytes as integers *)

Lemma byte_val_range b : 0 <= byte_val b < 256.
Proof. unfold byte_val. pose proof (Byte.to_N_bounded b). lia. Qed.

Lemma byte_of_val b : byte_of (byte_val b) = b.
Proof. unfold byte_of, byte_val. by rewrite N2Z.id, Byte.of_to_N. Qed.

Lemma byte_val_of z : 0 <= z < 256 -> byte_val (byte_of z) = z.
Proof.
  intros Hz. unfold byte_of, byte_val.
  destruct (Byte.of_N (Z.to_N z)) as [b|] eqn:E.
  - apply Byte.to_of_N in E. rewrite E. lia.
  - apply Byte.of_N_None_iff in E. lia.
Qed.

Lemma byte_eq_val b1 b2 : byte_val b1 = byte_val b2 -> b1 = b2.
Proof. intros H. by rewrite <- (byte_of_val b1), H, byte_of_val. Qed.

(** The shifts and masks of the codec as division and remainder. *)
Lemma shiftr_div c n : 0 <= n -> Z.shiftr c n = c / 2 ^ n.
Proof. apply Z.shiftr_div_pow2. Qed.

Lemma land_3F c : Z.land c 0x3F = c mod 64.
Proof. change 0x3F with (Z.ones 6). by rewrite Z.land_ones. Qed.

Lemma shiftl_mul c n : 0 <= n -> Z.shiftl c n = c * 2 ^ n.
Proof. apply Z.shiftl_mul_pow2. Qed.

(** Shifts and masks by constants as arithmetic that [lia] reads. *)
Ltac shifts_arith :=
  rewrite ?shiftr_div, ?shiftl_mul, ?land_3F by lia;
  change (2 ^ 6) with 64 in *; change (2 ^ 12) with 4096 in *; change (2 ^ 18) with 262144 in *.

(** Turn the boolean comparisons of the codec into arithmetic facts. *)
Ltac zbools :=
  repeat match goal with
  | H : (_ && _) = true |- _ => apply andb_prop in H as [? ?]
  | H : (_ || _) = false |- _ => apply orb_false_iff in H as [? ?]
  | H : negb _ = true |- _ => apply negb_true_iff in H
  | H : negb _ = false |- _ => apply negb_false_iff in H
  | H : (_ <? _) = true |- _ => apply Z.ltb_lt in H
  | H : (_ <? _) = false |- _ => apply Z.ltb_ge in H
  | H : (_ <=? _) = true |- _ => apply Z.leb_le in H
  | H : (_ <=? _) = false |- _ => apply Z.leb_gt in H
  | H : (_ =? _) = true |- _ => apply Z.eqb_eq in H
  | H : (_ =? _) = false |- _ => apply Z.eqb_neq in H
  end.

(** Decide the comparisons of the goal, dropping the impossible cases. *)
Ltac zif :=
  repeat (match goal with
          | |- context [?a <? ?b] => destruct (Z.ltb_spec a b)
          | |- context [?a <=? ?b] => destruct (Z.leb_spec a b)
          | |- context [?a =? ?b] => destruct (Z.eqb_spec a b)
          end; cbn [andb orb negb]; try (exfalso; lia)).

(** A byte equal to a computed value. *)
Ltac byte_eqs :=
  repeat match goal with
  | |- byte_of ?e = byte_of ?e' => f_equal; lia
  | |- byte_of ?e = ?b => rewrite <- (byte_of_val b); f_equal; lia
  | |- _ :: _ = _ :: _ => f_equal
  end.

Create HintDb utf8 discriminated.

(** ** One round of the decoder against the encoder *)

(** The base-64 digits the encoder takes apart. *)
Lemma digits c d3 d2 d1 d0 :
  0 <= d3 -> 0 <= d2 < 64 -> 0 <= d1 < 64 -> 0 <= d0 < 64 ->
  c = 262144 * d3 + 4096 * d2 + 64 * d1 + d0 ->
  c / 262144 = d3 /\ c / 4096 = 64 * d3 + d2 /\ c / 64 = 4096 * d3 + 64 * d2 + d1 /\
  (c / 4096) mod 64 = d2 /\ (c / 64) mod 64 = d1 /\ c mod 64 = d0.
Proof.
  intros ???? ->.
  assert (A : (262144 * d3 + 4096 * d2 + 64 * d1 + d0) / 4096 = 64 * d3 + d2)
    by (Z.div_mod_to_equations; lia).
  assert (B : (262144 * d3 + 4096 * d2 + 64 * d1 + d0) / 64 = 4096 * d3 + 64 * d2 + d1)
    by (Z.div_mod_to_equations; lia).
  rewrite A, B. split_and!; Z.div_mod_to_equations; lia.
Qed.

Lemma digits_exist c : 0 <= c -> exists d3 d2 d1 d0,
  0 <= d3 /\ 0 <= d2 < 64 /\ 0 <= d1 < 64 /\ 0 <= d0 < 64 /\
  c = 262144 * d3 + 4096 * d2 + 64 * d1 + d0.
Proof.
  intros Hc. exists (c / 64 / 64 / 64), ((c / 64 / 64) mod 64), ((c / 64) mod 64), (c mod 64).
  pose proof (Z.div_mod c 64 ltac:(lia)). pose proof (Z.div_mod (c / 64) 64 ltac:(lia)).
  pose proof (Z.div_mod (c / 64 / 64) 64 ltac:(lia)).
  pose proof (Z.mod_pos_bound c 64 ltac:(lia)). pose proof (Z.mod_pos_bound (c / 64) 64 ltac:(lia)).
  pose proof (Z.mod_pos_bound (c / 64 / 64) 64 ltac:(lia)).
  assert (0 <= c / 64 / 64 / 64) by (apply Z.div_pos; [apply Z.div_pos; [apply Z.div_pos|]|]; lia).
  split_and!; lia.
Qed.

(** Rewrite the encoder's divisions of [c] by its digits. *)
Ltac by_digits c d3 d2 d1 d0 :=
  let D := fresh "D" in
  pose proof (digits c d3 d2 d1 d0) as D;
  destruct D as (?D & ?D & ?D & ?D & ?D & ?D); [lia..|];
  repeat match goal with E : (c / _) mod _ = _ |- _ => rewrite E; clear E
                        | E : c mod _ = _ |- _ => rewrite E; clear E
                        | E : c / _ = _ |- _ => rewrite E; clear E end.

(** The round decodes the encoding of a scalar value. *)
Lemma scan_encode c rest :
  is_scalar c = true -> utf8_scan (encode_char c ++ rest) = Decoded c rest.
Proof.
  unfold is_scalar, encode_char. intros Hc. zbools.
  destruct (digits_exist c) as (d3 & d2 & d1 & d0 & ? & ? & ? & ? & Hd); [done|].
  destruct (Z.ltb_spec c 0x80); [|destruct (Z.ltb_spec c 0x800); [|destruct (Z.ltb_spec c 0x10000)]];
    cbn [app utf8_scan]; unfold is_continuation; shifts_arith; by_digits c d3 d2 d1 d0;
    rewrite !byte_val_of by lia; zif; f_equal; lia.
Qed.

(** Name the code point of an [encode_*] goal, keeping its definition. *)
Ltac name_code_point c :=
  intros; subst c;
  match goal with |- is_scalar ?e = true /\ _ => remember e as c eqn:?Hc end.

(** The encodings of the code points the decoder builds from two, three
    and four bytes. *)
Lemma encode_2 x1 x2 :
  194 <= x1 < 224 -> 128 <= x2 < 192 ->
  let c := x1 * 64 + x2 - (192 * 64 + 128) in
  is_scalar c = true /\ encode_char c = [byte_of x1; byte_of x2].
Proof.
  name_code_point c. unfold is_scalar, encode_char. shifts_arith.
  by_digits c 0 0 (x1 - 192) (x2 - 128). zif; (split; [done|byte_eqs]).
Qed.

Lemma encode_3 x1 x2 x3 :
  224 <= x1 < 240 -> 128 <= x2 < 192 -> 128 <= x3 < 192 ->
  (x1 = 224 -> 160 <= x2) -> (x1 = 237 -> x2 < 160) ->
  let c := x1 * 4096 + x2 * 64 + x3 - (224 * 4096 + 128 * 64 + 128) in
  is_scalar c = true /\ encode_char c = [byte_of x1; byte_of x2; byte_of x3].
Proof.
  name_code_point c. unfold is_scalar, encode_char. shifts_arith.
  by_digits c 0 (x1 - 224) (x2 - 128) (x3 - 128). zif; (split; [done|byte_eqs]).
Qed.

Lemma encode_4 x1 x2 x3 x4 :
  240 <= x1 < 245 -> 128 <= x2 < 192 -> 128 <= x3 < 192 -> 128 <= x4 < 192 ->
  (x1 = 240 -> 144 <= x2) -> (x1 = 244 -> x2 < 144) ->
  let c := x1 * 262144 + x2 * 4096 + x3 * 64 + x4 - (240 * 262144 + 128 * 4096 + 128 * 64 + 128) in
  is_scalar c = true /\ encode_char c = [byte_of x1; byte_of x2; byte_of x3; byte_of x4].
Proof.
  name_code_point c. unfold is_scalar, encode_char. shifts_arith.
  by_digits c (x1 - 240) (x2 - 128) (x3 - 128) (x4 - 128). zif; (split; [done|byte_eqs]).
Qed.

Ltac byte_ranges :=
  repeat match goal with
  | b : byte |- _ =>
      lazymatch goal with
      | _ : 0 <= byte_val b < 256 |- _ => fail
      | _ => pose proof (byte_val_range b)
      end
  end.

(** Whatever the round decodes is a scalar value, and the bytes it consumed
    are that value's encoding: the strict decoder accepts no overlong form,
    no surrogate and nothing above [U+10FFFF]. *)
Lemma scan_decoded s c rest :
  utf8_scan s = Decoded c rest -> is_scalar c = true /\ s = encode_char c ++ rest.
Proof.
  destruct s as [|b1 s1]; [done|]. cbn [utf8_scan]. unfold is_continuation.
  repeat (case_match; zbools; try done); intros [= <- <-]; shifts_arith; byte_ranges;
  lazymatch goal with
  | |- is_scalar (?x1 * 262144 + ?x2 * 4096 + ?x3 * 64 + ?x4 - _) = true /\ _ =>
      destruct (encode_4 x1 x2 x3 x4) as [-> ->]; [lia..|]
  | |- is_scalar (?x1 * 4096 + ?x2 * 64 + ?x3 - _) = true /\ _ =>
      destruct (encode_3 x1 x2 x3) as [-> ->]; [lia..|]
  | |- is_scalar (?x1 * 64 + ?x2 - _) = true /\ _ =>
      destruct (encode_2 x1 x2) as [-> ->]; [lia..|]
  | |- _ => unfold is_scalar, encode_char; zif
  end; (split; [done|cbn [app]; by rewrite ?byte_of_val]).
Qed.

Lemma encode_char_length c : (1 <= length (encode_char c) <= 4)%nat.
Proof. unfold encode_char. repeat case_match; simpl; lia. Qed.

Lemma scan_decoded_length s c rest : utf8_scan s = Decoded c rest -> (length rest < length s)%nat.
Proof.
  intros [_ ->]%scan_decoded. rewrite length_app. pose proof (encode_char_length c). lia.
Qed.

(** A stop code counts bytes that are there. *)
Lemma scan_stop_length s code : utf8_scan s = Stop code -> (code <= length s)%nat.
Proof. destruct s as [|b1 s1]; cbn [utf8_scan]; [by intros [= <-]|]. repeat case_match; intros [= <-]; simpl; lia. Qed.

Lemma truncated_surrogate_scan s : truncated_surrogate s = true -> utf8_scan s = Stop 2.
Proof.
  destruct s as [|b1 [|b2 [|]]]; try done. cbn [truncated_surrogate utf8_scan].
  unfold is_continuation. intros; zbools. rewrite H. zif; done.
Qed.

Lemma utf8_encode_cons c cs : utf8_encode (c :: cs) = encode_char c ++ utf8_encode cs.
Proof. done. Qed.

Lemma utf8_encode_app cs cs' : utf8_encode (cs ++ cs') = utf8_encode cs ++ utf8_encode cs'.
Proof. induction cs as [|c cs IH]; [done|]. by rewrite <- app_comm_cons, !utf8_encode_cons, IH, app_assoc. Qed.

(** ** The decoding loop *)

(** Termination: the loop consumes a byte a round, so any fuel above the
    length gives the same result. *)
Lemma decode_from_fuel fuel fuel' final pos s :
  (length s < fuel)%nat -> (length s < fuel')%nat ->
  decode_from fuel final pos s = decode_from fuel' final pos s.
Proof.
  revert fuel' pos s. induction fuel as [|fuel IH]; intros [|fuel'] pos s ??; try lia.
  cbn [decode_from]. destruct (utf8_scan s) as [c rest|] eqn:Hs; [|done].
  pose proof (scan_decoded_length _ _ _ Hs). by rewrite (IH fuel') by lia.
Qed.

(** A round that decodes a code point. *)
Lemma decode_from_step fuel final pos s c rest :
  utf8_scan s = Decoded c rest ->
  decode_from (S fuel) final pos s =
    match decode_from fuel final (pos + (length s - length rest))%nat rest with
    | inl e => inl e
    | inr (cs, k) => inr (c :: cs, k)
    end.
Proof. intros Hs. cbn [decode_from]. by rewrite Hs. Qed.

(** Decoding the encoding of scalar values, followed by anything. *)
Lemma decode_from_encode fuel final pos cs tail :
  Forall (fun c => is_scalar c = true) cs -> (length (utf8_encode cs ++ tail) < fuel)%nat ->
  decode_from fuel final pos (utf8_encode cs ++ tail) =
    match decode_from (S (length tail)) final (pos + length (utf8_encode cs)) tail with
    | inl e => inl e
    | inr (cs', k) => inr (cs ++ cs', k)
    end.
Proof.
  revert fuel pos. induction cs as [|c cs IH]; intros fuel pos Hcs Hlen.
  - change (utf8_encode []) with (@nil byte) in *. rewrite app_nil_l in *. cbn [length].
    rewrite Nat.add_0_r, (decode_from_fuel _ (S (length tail))) by lia.
    by destruct (decode_from _ _ _ _) as [|[]].
  - apply Forall_cons in Hcs as [Hc Hcs]. rewrite utf8_encode_cons, <- app_assoc in *.
    destruct fuel as [|fuel]; [lia|].
    rewrite (decode_from_step _ _ _ _ c (utf8_encode cs ++ tail)) by (by apply scan_encode).
    pose proof (encode_char_length c). rewrite length_app in Hlen.
    rewrite IH by (done || lia). rewrite !length_app.
    replace (pos + (length (encode_char c) + (length (utf8_encode cs) + length tail)
                    - (length (utf8_encode cs) + length tail)))%nat
      with (pos + length (encode_char c))%nat by lia.
    rewrite Nat.add_assoc. by destruct (decode_from _ _ _ _) as [|[]].
Qed.

(** What a successful loop has read: the encoding of scalar values, then a
    rest it leaves alone, which is empty for a final decode and a pending
    chunk end otherwise. *)
Lemma decode_from_inr fuel final pos s cs k :
  (length s < fuel)%nat -> decode_from fuel final pos s = inr (cs, k) ->
  exists tail, s = utf8_encode cs ++ tail /\ Forall (fun c => is_scalar c = true) cs /\
    k = (pos + length (utf8_encode cs))%nat /\ (if final then tail = [] else pending tail).
Proof.
  revert pos s cs k. induction fuel as [|fuel IH]; intros pos s cs k Hlen; [lia|].
  cbn [decode_from]. destruct (utf8_scan s) as [c rest|[|[|code]]] eqn:Hs.
  - destruct (decode_from fuel final _ rest) as [|[cs' k']] eqn:Hr; [done|]. intros [= <- <-].
    pose proof (scan_decoded_length _ _ _ Hs). apply scan_decoded in Hs as [Hc ->].
    apply IH in Hr as (tail & -> & Hcs & -> & Htail); [|rewrite length_app in *; lia].
    exists tail. rewrite utf8_encode_cons, <- app_assoc, !length_app. split_and!; [done|by constructor| |done].
    lia.
  - destruct (final && _) eqn:Hf; [intros [=]|]. intros [= <- <-].
    exists s. split_and!; [done|constructor|simpl; lia|].
    destruct final; [|by left]. simpl in Hf. by apply negb_false_iff, bool_decide_eq_true in Hf.
  - intros [=].
  - destruct (negb final && _ && _) eqn:Hf; [|intros [=]]. intros [= <- <-].
    exists s. split_and!; [done|constructor|simpl; lia|].
    destruct final; [by simpl in Hf|]. right. by apply andb_prop in Hf as [_ ->].
Qed.

(** Where a failing loop stops: the error lies within the data and starts
    after a prefix that is the encoding of scalar values. *)
Lemma decode_from_inl fuel final pos s e :
  (length s < fuel)%nat -> decode_from fuel final pos s = inl e ->
  (pos <= de_start e < de_end e)%nat /\ (de_end e <= pos + length s)%nat /\
  exists cs, Forall (fun c => is_scalar c = true) cs /\ take (de_start e - pos) s = utf8_encode cs.
Proof.
  revert pos s. induction fuel as [|fuel IH]; intros pos s Hlen; [lia|].
  cbn [decode_from]. destruct (utf8_scan s) as [c rest|[|[|code]]] eqn:Hs.
  - destruct (decode_from fuel final _ rest) as [e'|[]] eqn:Hr; [|intros [=]]. intros [= <-].
    pose proof (scan_decoded_length _ _ _ Hs). apply scan_decoded in Hs as [Hc ->].
    rewrite !length_app in *.
    replace (pos + (length (encode_char c) + length rest - length rest))%nat
      with (pos + length (encode_char c))%nat in Hr by lia.
    apply IH in Hr as (H1 & H2 & cs & Hcs & Htake); [|lia].
    split_and!; [lia..|]. exists (c :: cs). split; [by constructor|].
    rewrite utf8_encode_cons, <- Htake, <- take_app_add.
    f_equal. lia.
  - destruct (final && _) eqn:Hf; [|intros [=]]. intros [= <-]. cbn.
    apply andb_prop in Hf as [_ Hf%negb_true_iff%bool_decide_eq_false].
    destruct s; [done|]. split_and!; [simpl; lia..|]. exists []. by rewrite Nat.sub_diag.
  - intros [= <-]. apply scan_stop_length in Hs. cbn. split_and!; [lia..|].
    exists []. by rewrite Nat.sub_diag.
  - destruct (negb final && _ && _); [intros [=]|]. intros [= <-].
    apply scan_stop_length in Hs. cbn. split_and!; [lia..|]. exists []. by rewrite Nat.sub_diag.
Qed.

(** A pending chunk end decodes to nothing and is left for the next chunk. *)
Lemma pending_decode fuel pos s :
  pending s -> decode_from (S fuel) false pos s = inr ([], pos).
Proof.
  cbn [decode_from]. intros [Hs|Ht]; [by rewrite Hs|].
  by rewrite (truncated_surrogate_scan _ Ht), Ht.
Qed.

Lemma decode_final_encode cs :
  Forall (fun c => is_scalar c = true) cs ->
  forall final, utf8_decode final (utf8_encode cs) = inr (cs, length (utf8_encode cs)).
Proof.
  intros Hcs final. unfold utf8_decode. rewrite <- (app_nil_r (utf8_encode cs)).
  rewrite decode_from_encode by (done || lia). cbn [decode_from utf8_scan length].
  rewrite bool_decide_eq_true_2 by done. rewrite andb_false_r. by rewrite ?app_nil_r.
Qed.

(** A proper prefix of an encoding is a truncated sequence. *)
Lemma scan_encode_prefix c n :
  is_scalar c = true -> (n < length (encode_char c))%nat -> utf8_scan (take n (encode_char c)) = Stop 0.
Proof.
  unfold is_scalar. intros Hc. zbools.
  destruct (digits_exist c) as (d3 & d2 & d1 & d0 & ? & ? & ? & ? & Hd); [done|].
  unfold encode_char.
  destruct (Z.ltb_spec c 0x80); [|destruct (Z.ltb_spec c 0x800); [|destruct (Z.ltb_spec c 0x10000)]];
    cbn [length]; intros; (destruct n as [|[|[|[|n]]]]; [reflexivity|..]); try lia;
    cbn [take utf8_scan]; unfold is_continuation; shifts_arith; by_digits c d3 d2 d1 d0;
    rewrite !byte_val_of by lia; zif; reflexivity.
Qed.

(** A non-final decode that fails, fails the same way when final. *)
Lemma decode_from_inl_final fuel pos s e :
  decode_from fuel false pos s = inl e -> decode_from fuel true pos s = inl e.
Proof.
  revert pos s. induction fuel as [|fuel IH]; intros pos s; [done|]. cbn [decode_from].
  destruct (utf8_scan s) as [c rest|[|[|code]]].
  - destruct (decode_from fuel false _ rest) as [|[]] eqn:Hr; [|intros [=]]. intros [= <-]. by rewrite (IH _ _ Hr).
  - intros [=].
  - by intros <-.
  - destruct (negb false && _ && _); [intros [=]|by intros <-].
Qed.

(** The stream read is one non-final decode: the second round only sees a
    pending chunk end, which decodes to nothing. *)
Lemma stream_read_decode s :
  stream_read s = match utf8_decode false s with inl e => inl e | inr (cs, _) => inr cs end.
Proof.
  destruct s as [|b s']; [done|]. unfold stream_read. set (s := b :: s').
  destruct (utf8_decode false s) as [e|[cs k]] eqn:Hd; [done|].
  unfold utf8_decode in Hd. apply decode_from_inr in Hd as (tail & Hs & _ & -> & Hp); [|lia].
  rewrite Hs, Nat.add_0_l, drop_app_length.
  destruct tail as [|t tail]; [done|]. unfold utf8_decode.
  by rewrite pending_decode, app_nil_r.
Qed.

Lemma codecs_read_pure p : pure_read (codecs_read p).
Proof.
  intros w w' r. unfold codecs_read, read_file. py_simpl.
  destruct (w_files w !! p); [|destruct (is_dir w p); simpl; by intros [= <- _]].
  destruct (stream_read _); simpl; by intros [= <- _].
Qed.

#[export] Hint Resolve codecs_read_pure : pym.

Lemma codecs_read_inr p w w' t :
  codecs_read p w = (w', inr t) -> w' = w /\ read_text w p = Some t.
Proof.
  unfold codecs_read, read_file, read_text. py_simpl.
  destruct (w_files w !! p); [|destruct (is_dir w p); simpl; by intros [=]].
  destruct (stream_read _); simpl; by intros [= <- <-].
Qed.

Lemma codecs_read_text p w t : read_text w p = Some t -> codecs_read p w = (w, inr t).
Proof.
  unfold codecs_read, read_file, read_text. py_simpl.
  destruct (w_files w !! p); [|done]. destruct (stream_read _); by intros [= ->].
Qed.

(** The two directions of the stream read's contract. *)
Lemma stream_read_inr s cs :
  stream_read s = inr cs ->
  exists tail, s = utf8_encode cs ++ tail /\ Forall (fun c => is_scalar c = true) cs /\ pending tail.
Proof.
  rewrite stream_read_decode. destruct (utf8_decode false s) as [|[cs' k]] eqn:Hd; [done|].
  intros [= <-]. unfold utf8_decode in Hd.
  apply decode_from_inr in Hd as (tail & ? & ? & _ & ?); [|lia]. by exists tail.
Qed.

Lemma stream_read_encode_pending cs tail :
  Forall (fun c => is_scalar c = true) cs -> pending tail -> stream_read (utf8_encode cs ++ tail) = inr cs.
Proof.
  intros Hcs Hp. rewrite stream_read_decode. unfold utf8_decode.
  rewrite decode_from_encode by (done || lia). by rewrite pending_decode, app_nil_r.
Qed.

(** A chunk end kept for the next chunk is at most three bytes. *)
Lemma pending_length s : pending s -> (length s <= 3)%nat.
Proof.
  intros [Hs|Hs]; [|destruct s as [|? [|? [|]]]; cbn [length] in *; (lia || discriminate)].
  destruct s as [|b1 [|b2 [|b3 [|b4 s]]]]; cbn [length]; try lia. revert Hs.
  cbn [utf8_scan]. repeat case_match; discriminate.
Qed.

Lemma utf8_encode_length cs : (length cs <= length (utf8_encode cs) <= 4 * length cs)%nat.
Proof.
  induction cs as [|c cs IH]; [done|]. rewrite utf8_encode_cons, length_app.
  pose proof (encode_char_length c). simpl. lia.
Qed.

(** ** Theorems *)

(** CPython's final UTF-8 decode refines the Unicode definition (the
    stream reader of [codecs.open] never makes this call; it is the
    reference the non-final decode is compared with):
    [codecs.utf_8_decode(s, "strict", True)] returns the string [cs] and
    consumes [k] bytes exactly when [cs] is a string of scalar values (no
    surrogate, nothing above [U+10FFFF]), [s] is its UTF-8 encoding and [k]
    is the whole input: the decoder accepts no overlong form and inverts the
    encoder. *)
Theorem utf8_final_decode_spec s cs k :
  utf8_decode true s = inr (cs, k) <->
  Forall (fun c => is_scalar c = true) cs /\ s = utf8_encode cs /\ k = length s.
Proof.
  split.
  - unfold utf8_decode. intros (tail & -> & Hcs & -> & ->)%decode_from_inr; [|lia].
    by rewrite app_nil_r.
  - intros (Hcs & -> & ->). by apply decode_final_encode.
Qed.

(** C15: what [codecs.open(p, encoding="utf-8").read()] returns.  The
    stream read returns [cs] exactly when the file is the encoding of [cs]
    followed by a pending chunk end: nothing, a truncated multi-byte
    sequence, or the first two bytes [ED A0..BF] of a surrogate. *)
Theorem stream_read_spec s cs :
  stream_read s = inr cs <->
  exists tail, s = utf8_encode cs ++ tail /\ Forall (fun c => is_scalar c = true) cs /\ pending tail.
Proof.
  split; [apply stream_read_inr|]. intros (tail & -> & Hcs & Hp). by apply stream_read_encode_pending.
Qed.


(** C17: a truncated last character is dropped without an error.  When the
    file ends in a proper prefix of a character's encoding,
    [codecs.open(p, encoding="utf-8").read()] returns the text before it,
    while a final decode of the same bytes ([bytes.decode("utf-8")])
    raises "unexpected end of data": the stream reader keeps the prefix in
    its buffer and [read()] never reports it. *)
Theorem stream_read_drops_truncated cs c n :
  Forall (fun c => is_scalar c = true) cs -> is_scalar c = true ->
  (0 < n < length (encode_char c))%nat ->
  let s := utf8_encode cs ++ take n (encode_char c) in
  stream_read s = inr cs /\
  utf8_decode true s = inl (DecodeError (length (utf8_encode cs)) (length s) "unexpected end of data").
Proof.
  intros Hcs Hc Hn s. pose proof (scan_encode_prefix c n Hc ltac:(lia)) as Hpre.
  split; [apply stream_read_encode_pending; [done|by left]|].
  unfold utf8_decode, s. rewrite decode_from_encode by (done || lia). cbn [decode_from].
  rewrite Hpre, bool_decide_eq_false_2.
  - cbn. by rewrite length_app, length_take, Nat.min_l by lia.
  - intros Hnil. apply (f_equal length) in Hnil. rewrite length_take in Hnil. simpl in Hnil. lia.
Qed.

(** C18: a decoding error of the description read.  When
    [codecs.open(p, encoding="utf-8").read()] raises
    [UnicodeDecodeError(start, end, reason)], the span [start, end) lies
    within the file, the bytes before [start] are valid UTF-8 text, and a
    final decode of the file raises the same error: the stream reader
    reports the first byte that no UTF-8 text can contain. *)
Theorem stream_read_error s e :
  stream_read s = inl e ->
  (de_start e < de_end e <= length s)%nat /\
  (exists cs, Forall (fun c => is_scalar c = true) cs /\ take (de_start e) s = utf8_encode cs) /\
  utf8_decode true s = inl e.
Proof.
  rewrite stream_read_decode. destruct (utf8_decode false s) as [e'|[]] eqn:Hd; [|done]. intros [= <-].
  split; [|split].
  - unfold utf8_decode in Hd. apply decode_from_inl in Hd as (? & ? & _); lia.
  - unfold utf8_decode in Hd. apply decode_from_inl in Hd as (_ & _ & cs & ?); [|lia].
    exists cs. by rewrite Nat.sub_0_r in *.
  - by apply decode_from_inl_final.
Qed.

(** C24: bounds of the description text.  When
    [codecs.open(p, encoding="utf-8").read()] returns the string [cs] for
    the file [s], [cs] has at most one character per byte and at least one
    per four bytes (less the at most three bytes of a dropped last
    character), and every character is a Unicode scalar value: in
    [0, 0x10FFFF] and no surrogate. *)
Theorem stream_read_bounds s cs :
  stream_read s = inr cs ->
  (length cs <= length s <= 4 * length cs + 3)%nat /\
  Forall (fun c => 0 <= c < 0x110000 /\ ~ (0xD800 <= c <= 0xDFFF)) cs.
Proof.
  intros (tail & -> & Hcs & Hp)%stream_read_inr. split.
  - pose proof (utf8_encode_length cs). pose proof (pending_length _ Hp). rewrite length_app. lia.
  - eapply Forall_impl; [exact Hcs|]. intros c. unfold is_scalar. intros; zbools; lia.
Qed.

(** ** Examples *)


Lemma stream_read_drops_truncated_witness :
  let s := utf8_encode [0x41] ++ take 2 (encode_char 0x20AC) in
  stream_read s = inr [0x41] /\
  utf8_decode true s = inl (DecodeError (length (utf8_encode [0x41])) (length s) "unexpected end of data").
Proof. apply stream_read_drops_truncated; [repeat constructor|reflexivity|vm_compute; lia]. Defined.

Lemma stream_read_error_witness :
  stream_read bad_bytes = inl (DecodeError 1%nat 2%nat "invalid start byte") /\
  utf8_decode true bad_bytes = inl (DecodeError 1%nat 2%nat "invalid start byte").
Proof.
  split; [vm_compute; reflexivity|].
  destruct (stream_read_error bad_bytes (DecodeError 1%nat 2%nat "invalid start byte")) as (_ & _ & He);
    [vm_compute; reflexivity|exact He].
Defined.

Lemma stream_read_bounds_witness :
  let s := utf8_encode sample_text ++ take 3 (encode_char 0x1F600) in
  (length sample_text <= length s <= 4 * length sample_text + 3)%nat /\
  Forall (fun c => 0 <= c < 0x110000 /\ ~ (0xD800 <= c <= 0xDFFF)) sample_text.
Proof. apply stream_read_bounds. vm_compute. reflexivity. Defined.
