(* ===== verification/Remote.v ===== *)
(** * Remote file metadata and the downloader interface

    [RemoteFileMetadata] is the namedtuple of [MDAnalysisData/base.py]
    (filename, url, checksum).  The checksum is the hex digest of a fixed
    hash (SHA-256); the development never computes it and takes the digest as
    the class [Digest].

    [Downloader] is [_fetch_remote(remote, dirname, force=False)], and
    [DownloaderSpec] is what the dataset fetchers may rely on:
      - it touches no file but [join dirname remote.filename], creates no
        directory, changes no configuration, and only talks to [remote.url];
      - when it returns, it returns that path and the file there is either the
        one that was already cached (only without [force], and then without
        network access) or one whose digest is [remote.checksum];
      - when it raises, no file has changed (atomic placement);
      - without [force], an existing file is returned at once. *)

From stdpp Require Import base gmap strings list.
From S2P Require Import Prelude Filesystem.

Record RemoteFileMetadata := {
  filename : string;
  url : string;
  checksum : string
}.

#[export] Instance RemoteFileMetadata_eq_dec : EqDecision RemoteFileMetadata.
Proof. solve_decision. Defined.

Class Digest := sha256 : bytes -> string.

Class Downloader := fetch_remote : RemoteFileMetadata -> path -> bool -> M path.

Definition final_path (m : RemoteFileMetadata) (d : path) : path := join d (filename m).

(** A trace event caused by downloading from [u]; the downloader does not
    log. *)
Definition about (u : string) (e : event) : Prop :=
  match e with Request u' => u' = u | Sleep _ => True | Log _ => False end.

(** What talking to [u] may change besides files: no configuration, no
    directory, the host's answers for [u] only, and the trace only by events
    about [u]. *)
Record net_frame (u : string) (w w' : World) : Prop := {
  nf_config : config w' = config w;
  nf_dirs : w_dirs w' = w_dirs w;
  nf_remote : forall u', u' <> u -> w_remote w' !! u' = w_remote w !! u';
  nf_trace : exists evs, w_trace w' = w_trace w ++ evs /\ Forall (about u) evs
}.

(** What a download of [m] into [d] may change. *)
Record dl_frame (m : RemoteFileMetadata) (d : path) (w w' : World) : Prop := {
  dl_net : net_frame (url m) w w';
  dl_files : forall q, q <> final_path m d -> w_files w' !! q = w_files w !! q
}.

Class DownloaderSpec `{Digest} (D : Downloader) : Prop := {
  fetch_remote_frame m d force w w' r :
    fetch_remote m d force w = (w', r) -> dl_frame m d w w';
  fetch_remote_ok m d force w w' p :
    fetch_remote m d force w = (w', inr p) ->
    p = final_path m d /\
    exists b, w_files w' !! p = Some b /\
      ((force = false /\ w_files w !! p = Some b) \/ sha256 b = checksum m);
  fetch_remote_err m d force w w' e :
    fetch_remote m d force w = (w', inl e) -> w_files w' = w_files w;
  fetch_remote_cached m d w b :
    w_files w !! final_path m d = Some b ->
    fetch_remote m d false w = (w, inr (final_path m d))
}.

#[export] Instance net_frame_preorder u : PreOrder (net_frame u).
Proof.
  split.
  - intros w. split; try done. exists []. by rewrite app_nil_r.
  - intros w1 w2 w3 [H1 H2 H3 (e1 & T1 & F1)] [G1 G2 G3 (e2 & T2 & F2)].
    split; try congruence.
    + intros u' Hu. rewrite G3, H3; done.
    + exists (e1 ++ e2). rewrite T2, T1, app_assoc. split; [done|by apply Forall_app].
Qed.

#[export] Instance dl_frame_preorder m d : PreOrder (dl_frame m d).
Proof.
  split.
  - intros w. split; [reflexivity|done].
  - intros w1 w2 w3 [N1 F1] [N2 F2]. split; [by etrans|].
    intros q Hq. rewrite F2, F1; done.
Qed.
