(* ===== verification/Bunch.v ===== *)
(** * The result object

    [Bunch] of [MDAnalysisData/base.py] is a dict whose keys are also
    attributes: [records[file_type] = local_path] and [records.DESCR = text]
    both store a key, and reading an attribute that is not a key raises.  A
    value is a path (the role entries) or a text (the description).  The
    mapping is a [gmap] from attribute name to value. *)

From stdpp Require Import base gmap strings list.
From S2P Require Import Prelude Filesystem Utf8.

Inductive bunch_value :=
| BPath (p : path)
| BText (t : text).

Abbreviation Bunch := (gmap string bunch_value).

(** [Bunch()] *)
Definition bunch_empty : Bunch := ∅.

(** [b[k] = v] and [b.k = v] *)
Definition bunch_set (k : string) (v : bunch_value) (b : Bunch) : Bunch := <[k := v]> b.

(** [b.k] for a name [k] that is not one of the dict's own methods: the
    value stored under [k], or [AttributeError] (the specification's lookup
    error for an undefined role). *)
Definition bunch_getattr (b : Bunch) (k : string) : exn + bunch_value :=
  match b !! k with
  | Some v => inr v
  | None => inl (AttributeError k)
  end.
