(* ===== verification/CacheLocator.v ===== *)
(** * Resolving the cache root

    [get_data_home(data_home=None)] of [MDAnalysisData/base.py], modelled from
    the specification: an explicit [data_home] wins; otherwise the
    process-wide default from the environment; otherwise the fixed folder
    [~/MDAnalysis_data] (the name the docstring of [fetch_adk_equilibrium]
    gives).  It only resolves the path: the fetchers create the dataset
    directory themselves with [os.makedirs]. *)

From stdpp Require Import base gmap strings list.
From S2P Require Import Prelude Filesystem.

Definition default_data_folder : string := "MDAnalysis_data".

Definition data_home_of (w : World) (data_home : option path) : path :=
  match data_home with
  | Some d => d
  | None =>
      match w_env_data_home w with
      | Some d => d
      | None => join (w_home w) default_data_folder
      end
  end.

Definition get_data_home (data_home : option path) : M path :=
  fun w => (w, inr (data_home_of w data_home)).

Lemma get_data_home_pure dh : pure_read (get_data_home dh).
Proof. by intros w w' r [= ->]. Qed.

#[export] Hint Resolve get_data_home_pure : pym.

(** The root depends on the configuration only. *)
Lemma data_home_of_config w w' dh : config w' = config w -> data_home_of w' dh = data_home_of w dh.
Proof. unfold config, data_home_of. intros [= _ -> -> _]. done. Qed.
