(* ===== verification/Fetcher.v ===== *)
(** * The dataset fetcher

    [fetch_adk_equilibrium] (adk_equilibrium.py, lines 92-116) and
    [fetch_ifabp_water] (ifabp_water.py, lines 99-121) have the same body up
    to the module constants [NAME], [DESCRIPTION] and [ARCHIVE].  That body is
    [fetch_dataset]; its loop over [ARCHIVE.items()] is [fetch_files].  Both
    are written against the [Downloader] interface: every theorem here holds
    for any [_fetch_remote] that meets [DownloaderSpec].

    Theorems: the result of a successful call (every role mapped to
    [<data_home>/<NAME>/<filename>], [DESCR] the description text, every
    path existing); a second call returns the same bundle without changing
    anything, so without network access; with downloads disabled nothing is
    downloaded or written and the first missing role is reported; the
    verified-cache invariant; the directories a call may create; the
    existence-only cache check (a corrupted cached file is returned as is);
    the shape of the result; and that its paths read back verified data. *)

From stdpp Require Import base gmap strings list.
From S2P Require Import Prelude Filesystem Utf8 Remote Bunch CacheLocator.
Local Open Scope py_scope.

(** [ARCHIVE.items()]: the dict's entries in insertion order. *)
Abbreviation Archive := (list (string * RemoteFileMetadata)).

Section Fetcher.
Context `{Digest} `{D : Downloader}.

(** [dirname(__file__)] *)
Definition module_path : M path := fun w => (w, inr (w_pkg_dir w)).

(** The record logged before a download:
    ["Downloading {0}: {1} -> {2}...".format(file_type, meta.url, local_path)]. *)
Definition download_message (file_type : string) (meta : RemoteFileMetadata)
    (local_path : path) : string :=
  "Downloading " +:+ file_type +:+ ": " +:+ url meta +:+ " -> " +:+ path_str local_path +:+ "...".

(** The loop
<<
  for file_type, meta in ARCHIVE.items():
      local_path = join(data_location, meta.filename)
      records[file_type] = local_path
      if not exists(local_path):
          if not download_if_missing:
              raise IOError(...)
          logger.info("Downloading {0}: {1} -> {2}...".format(
              file_type, meta.url, local_path))
          archive_path = _fetch_remote(meta, dirname=data_location)
>> *)
Fixpoint fetch_files (data_location : path) (download_if_missing : bool)
    (items : Archive) (records : Bunch) : M Bunch :=
  match items with
  | [] => pret records
  | (file_type, meta) :: rest =>
      let local_path := join data_location (filename meta) in
      let records := bunch_set file_type (BPath local_path) records in
      let* ex := os_path_exists local_path in
      let* _ := (if ex then pret tt
                 else if negb download_if_missing
                 then praise (IOError file_type local_path)
                 else let* _ := logger_info (download_message file_type meta local_path) in
                      let* _ := fetch_remote meta data_location false in pret tt) in
      fetch_files data_location download_if_missing rest records
  end.

(** The prologue
<<
  if not exists(data_location):
      makedirs(data_location)
>> *)
Definition prologue (data_location : path) : M unit :=
  let* ex := os_path_exists data_location in
  if ex then pret tt else os_makedirs data_location.

(** The body of [fetch_adk_equilibrium] / [fetch_ifabp_water] once
    [data_location] is known. *)
Definition fetch_into (data_location : path) (description : string) (archive : Archive)
    (download_if_missing : bool) : M Bunch :=
  let* ex := os_path_exists data_location in
  let* _ := (if ex then pret tt else os_makedirs data_location) in
  let* records := fetch_files data_location download_if_missing archive bunch_empty in
  let* module_dir := module_path in
  let* text := codecs_read (join (join module_dir "descr") description) in
  pret (bunch_set "DESCR" (BText text) records).

(** The body of [fetch_adk_equilibrium] / [fetch_ifabp_water]. *)
Definition fetch_dataset (name description : string) (archive : Archive)
    (data_home : option path) (download_if_missing : bool) : M Bunch :=
  let* home := get_data_home data_home in
  let data_location := join home name in
  fetch_into data_location description archive download_if_missing.

(** ** What a call computes *)

(** The entries the loop records, whatever the filesystem holds. *)
Fixpoint archive_records (loc : path) (items : Archive) (records : Bunch) : Bunch :=
  match items with
  | [] => records
  | (ft, m) :: rest => archive_records loc rest (bunch_set ft (BPath (join loc (filename m))) records)
  end.

Definition descr_path (w : World) (description : string) : path :=
  join (join (w_pkg_dir w) "descr") description.

Definition dataset_location (w : World) (data_home : option path) (name : string) : path :=
  join (data_home_of w data_home) name.

(** Every file of the archive exists under [loc]. *)
Definition all_present (w : World) (loc : path) (items : Archive) : Prop :=
  forall ft m, (ft, m) ∈ items -> path_exists w (join loc (filename m)) = true.

Lemma module_path_pure : pure_read module_path.
Proof. by intros w w' r [= ->]. Qed.

#[local] Hint Resolve module_path_pure : pym.

(** ** Frames of the loop *)


(** A preorder that every download of an archive file keeps is kept by
    the loop. *)
Lemma fetch_files_preserves (R : relation World) `{!PreOrder R} loc dim items r :
  (forall w msg, R w (log_world w msg)) ->
  (forall ft m, (ft, m) ∈ items -> preserves R (fetch_remote m loc false)) ->
  preserves R (fetch_files loc dim items r).
Proof.
  intros Hlog. revert r. induction items as [|[ft m] items IH]; intros r Hdl; simpl; [frame_tac|].
  bind_read. apply preserves_bind; [exact _| |intros; apply IH; intros; eapply Hdl; by right].
  destruct a; [frame_tac|]. destruct dim; simpl; [|frame_tac].
  apply preserves_bind; [exact _|by apply logger_info_preserves|]. intros _.
  apply preserves_bind; [exact _|eapply Hdl; by left|frame_tac].
Qed.

Lemma fetch_into_preserves (R : relation World) `{!PreOrder R} loc description archive dim :
  preserves R (os_makedirs loc) -> (forall r, preserves R (fetch_files loc dim archive r)) ->
  preserves R (fetch_into loc description archive dim).
Proof.
  intros Hmk Hff. unfold fetch_into. bind_read.
  apply preserves_bind; [exact _|apply preserves_if; [frame_tac|apply Hmk]|]. intros _.
  apply preserves_bind; [exact _|apply Hff|]. intros recs.
  bind_read. bind_read. frame_tac.
Qed.

(** Paths that exist keep existing. *)
Definition exists_grow : relation World := fun w w' =>
  forall p, path_exists w p = true -> path_exists w' p = true.

#[global] Instance exists_grow_preorder : PreOrder exists_grow.
Proof. split; [intros ??; done|intros ??? H1 H2 ??; auto]. Qed.

Context `{!DownloaderSpec D}.

Lemma fetch_remote_exists_grow m d force : preserves exists_grow (fetch_remote m d force).
Proof.
  intros w w' r Hr p. pose proof (fetch_remote_frame _ _ _ _ _ _ Hr) as Hf.
  unfold path_exists, is_dir, is_file. rewrite (nf_dirs _ _ _ (dl_net _ _ _ _ Hf)).
  destruct (decide (p = final_path m d)) as [->|Hp]; [|by rewrite (dl_files _ _ _ _ Hf)].
  destruct r as [e|q].
  - by rewrite (fetch_remote_err _ _ _ _ _ _ Hr).
  - destruct (fetch_remote_ok _ _ _ _ _ _ Hr) as [<- (b & -> & _)]. by rewrite orb_true_r.
Qed.

(** When every file is already there the loop changes nothing and only
    records the paths. *)
Lemma fetch_files_present loc dim items r w :
  all_present w loc items ->
  fetch_files loc dim items r w = (w, inr (archive_records loc items r)).
Proof.
  revert r. induction items as [|[ft m] items IH]; intros r Hall; [done|]. simpl.
  unfold os_path_exists. py_simpl.
  rewrite (Hall ft m) by (by left). apply IH.
  intros ft' m' Hin. apply (Hall ft' m'). by right.
Qed.

(** A successful loop returns the recorded paths, and they all exist. *)
Lemma fetch_files_ok loc dim items r w w' b :
  fetch_files loc dim items r w = (w', inr b) ->
  b = archive_records loc items r /\ all_present w' loc items.
Proof.
  revert r w. induction items as [|[ft m] items IH]; intros r w Hrun.
  { injection Hrun as <- <-. split; [done|]. intros ?? []%elem_of_nil. }
  simpl in Hrun.
  apply pbind_inr in Hrun as (w1 & ex & [= <- <-] & Hrun).
  apply pbind_inr in Hrun as (w2 & [] & Hstep & Hrun).
  pose proof Hrun as Hrest. apply IH in Hrun as [-> Hall]. split; [done|].
  intros ft' m' [[= -> ->]|Hin]%elem_of_cons; [|by apply (Hall ft' m')].
  assert (Hex : path_exists w2 (join loc (filename m)) = true).
  { destruct (path_exists w _) eqn:E; [by injection Hstep as <-|].
    destruct dim; [|done]. simpl in Hstep.
    apply pbind_inr in Hstep as (w3 & [] & _ & Hstep).
    apply pbind_inr in Hstep as (w4 & q & Hdl & [= <-]).
    destruct (fetch_remote_ok _ _ _ _ _ _ Hdl) as [-> (b' & Hb & _)]. unfold final_path in Hb.
    unfold path_exists, is_file. by rewrite Hb, orb_true_r. }
  (* the rest of the loop keeps the path *)
  eapply (fetch_files_preserves exists_grow);
    [log_frame|intros; apply fetch_remote_exists_grow|exact Hrest|exact Hex].
Qed.

Lemma fetch_remote_config m d f : preserves (unchanged config) (fetch_remote m d f).
Proof. intros w w' r Hr. apply (nf_config _ _ _ (dl_net _ _ _ _ (fetch_remote_frame _ _ _ _ _ _ Hr))). Qed.

(** A file that is not one of the archive's final paths keeps its content
    through the loop. *)
Lemma fetch_files_keeps_file loc dim items r q :
  (forall ft m, (ft, m) ∈ items -> q <> join loc (filename m)) ->
  preserves (unchanged (fun w => w_files w !! q)) (fetch_files loc dim items r).
Proof.
  intros Hq. apply fetch_files_preserves; [exact _|log_frame|]. intros ft m Hin w w' r' Hr.
  apply (dl_files _ _ _ _ (fetch_remote_frame _ _ _ _ _ _ Hr)). by apply (Hq ft).
Qed.

Lemma fetch_into_config loc description archive dim :
  preserves (unchanged config) (fetch_into loc description archive dim).
Proof.
  apply fetch_into_preserves; [exact _|by apply os_makedirs_keeps|].
  intros. apply fetch_files_preserves; [exact _|log_frame|intros; apply fetch_remote_config].
Qed.

Lemma fetch_dataset_unfold name description archive dh dim w :
  fetch_dataset name description archive dh dim w =
  fetch_into (dataset_location w dh name) description archive dim w.
Proof. done. Qed.

(** [fetch_into] starts with the prologue. *)
Lemma fetch_into_prologue loc description archive dim w :
  fetch_into loc description archive dim w =
  (let* _ := prologue loc in
   let* records := fetch_files loc dim archive bunch_empty in
   let* module_dir := module_path in
   let* text := codecs_read (join (join module_dir "descr") description) in
   pret (bunch_set "DESCR" (BText text) records)) w.
Proof.
  unfold fetch_into, prologue, os_path_exists. py_simpl.
  destruct (path_exists w loc); [done|]. by destruct (os_makedirs loc w) as [? []].
Qed.

(** ** A successful call *)

Lemma fetch_into_ok loc description archive dim w w' b :
  fetch_into loc description archive dim w = (w', inr b) ->
  path_exists w' loc = true /\ all_present w' loc archive /\ config w' = config w /\
  exists text, read_text w' (descr_path w description) = Some text /\
    b = bunch_set "DESCR" (BText text) (archive_records loc archive bunch_empty).
Proof.
  intros Hrun. pose proof (fetch_into_config _ _ _ _ _ _ _ Hrun) as Hcfg.
  unfold fetch_into in Hrun.
  apply pbind_inr in Hrun as (w1 & ex & [= <- <-] & Hrun).
  apply pbind_inr in Hrun as (w2 & [] & Hmk & Hrun).
  apply pbind_inr in Hrun as (w3 & recs & Hff & Hrun).
  apply pbind_inr in Hrun as (w4 & mdir & [= <- <-] & Hrun).
  apply pbind_inr in Hrun as (w5 & text & Hrd & [= <- <-]).
  apply codecs_read_inr in Hrd as [-> Hrd].
  destruct (fetch_files_ok _ _ _ _ _ _ _ Hff) as [-> Hall].
  assert (Hloc : path_exists w2 loc = true).
  { destruct (path_exists w loc) eqn:E; [by injection Hmk as <-|].
    apply os_makedirs_created in Hmk. unfold path_exists, is_dir. by rewrite bool_decide_true. }
  split; [|split; [done|split; [done|]]].
  - eapply (fetch_files_preserves exists_grow);
      [log_frame|intros; apply fetch_remote_exists_grow|exact Hff|exact Hloc].
  - exists text. split; [|done]. unfold descr_path.
    by rewrite <- (config_pkg_dir w w3 Hcfg).
Qed.

(** C1: a successful [fetch_<name>(data_home, download_if_missing)]
    returns the bundle that maps every role of [ARCHIVE] to
    [join(join(get_data_home(data_home), NAME), filename)] and [DESCR] to
    the text of [descr/<DESCRIPTION>]; at return the dataset directory and
    every one of these paths exist. *)
Theorem fetch_dataset_ok name description archive dh dim w w' b :
  fetch_dataset name description archive dh dim w = (w', inr b) ->
  let loc := dataset_location w dh name in
  path_exists w' loc = true /\ all_present w' loc archive /\
  exists text, read_text w' (descr_path w description) = Some text /\
    b = bunch_set "DESCR" (BText text) (archive_records loc archive bunch_empty).
Proof.
  rewrite fetch_dataset_unfold. intros (? & ? & _ & ?)%fetch_into_ok. done.
Qed.

Lemma fetch_into_present loc description archive dim w text :
  path_exists w loc = true -> all_present w loc archive ->
  read_text w (descr_path w description) = Some text ->
  fetch_into loc description archive dim w =
    (w, inr (bunch_set "DESCR" (BText text) (archive_records loc archive bunch_empty))).
Proof.
  intros Hloc Hall Htext. unfold fetch_into.
  rewrite (pbind_run _ _ w w true) by (unfold os_path_exists; by rewrite Hloc).
  rewrite (pbind_run _ _ w w tt) by done.
  rewrite (pbind_run _ _ w w _) by (by apply fetch_files_present).
  rewrite (pbind_run _ _ w w (w_pkg_dir w)) by done.
  rewrite (pbind_run _ _ w w text) by (apply codecs_read_text; by unfold descr_path in *).
  done.
Qed.


(** C19: the description on a complete cache.  When the dataset directory
    and every role's file exist, a call reads [descr/<DESCRIPTION>] through
    [codecs.open(..., encoding="utf-8").read()] and nothing else: it
    returns the bundle with [DESCR] the text the stream reader decodes, or
    raises that reader's [UnicodeDecodeError], and changes nothing.  A
    description whose last character is truncated is returned without it
    ([stream_read_spec]). *)
Theorem fetch_dataset_description name description archive dh dim w raw :
  let loc := dataset_location w dh name in
  path_exists w loc = true -> all_present w loc archive ->
  w_files w !! descr_path w description = Some raw ->
  fetch_dataset name description archive dh dim w =
    (w, match stream_read raw with
        | inl e => inl (UnicodeDecodeError (de_start e) (de_end e) (de_reason e))
        | inr t => inr (bunch_set "DESCR" (BText t) (archive_records loc archive bunch_empty))
        end).
Proof.
  intros loc Hloc Hall Hraw. subst loc. rewrite fetch_dataset_unfold. unfold fetch_into.
  rewrite (pbind_run _ _ w w true) by (unfold os_path_exists; by rewrite Hloc).
  rewrite (pbind_run _ _ w w tt) by done.
  rewrite (pbind_run _ _ w w _) by (by apply fetch_files_present).
  rewrite (pbind_run _ _ w w (w_pkg_dir w)) by done.
  unfold descr_path in Hraw. unfold codecs_read, read_file. py_simpl. rewrite Hraw.
  by destruct (stream_read raw).
Qed.

(** C2: idempotence.  Calling a fetcher again after it succeeded returns
    the same bundle and leaves the world exactly as it is: no file, no
    directory, no network request. *)
Theorem fetch_dataset_idempotent name description archive dh dim w w' b :
  fetch_dataset name description archive dh dim w = (w', inr b) ->
  fetch_dataset name description archive dh dim w' = (w', inr b).
Proof.
  rewrite !fetch_dataset_unfold. intros Hrun.
  destruct (fetch_into_ok _ _ _ _ _ _ _ Hrun) as (Hloc & Hall & Hcfg & text & Htext & ->).
  unfold dataset_location in *. rewrite (data_home_of_config w w') by done.
  apply fetch_into_present; [done|done|].
  unfold descr_path. by rewrite (config_pkg_dir w w' Hcfg).
Qed.

(** ** Downloads disabled *)

(** With [download_if_missing=False] the loop is a lookup: it reports the
    first role, in [ARCHIVE] order, whose file is missing, and changes
    nothing. *)
Lemma fetch_files_disabled loc items r w :
  fetch_files loc false items r w =
    (w, match list_find (fun it => path_exists w (join loc (filename it.2)) = false) items with
        | Some (_, (ft, m)) => inl (IOError ft (join loc (filename m)))
        | None => inr (archive_records loc items r)
        end).
Proof.
  revert r. induction items as [|[ft m] items IH]; intros r; [done|]. simpl.
  unfold os_path_exists. py_simpl.
  destruct (path_exists w (join loc (filename m))) eqn:E.
  - rewrite IH, decide_False by congruence. by destruct (list_find _ _) as [[? []]|].
  - by rewrite decide_True.
Qed.

Lemma fetch_files_disabled_pure loc items r : pure_read (fetch_files loc false items r).
Proof. intros w w' r' H'. rewrite fetch_files_disabled in H'. by injection H'. Qed.

(** C4: with [download_if_missing=False] a call never writes a file and
    never touches the network, whatever it returns; it may only create the
    dataset directory. *)
Theorem fetch_dataset_disabled_frame name description archive dh w w' r :
  fetch_dataset name description archive dh false w = (w', r) ->
  w_files w' = w_files w /\ net w' = net w.
Proof.
  rewrite fetch_dataset_unfold. intros Hrun.
  assert (Hp : preserves (unchanged (fun w => (w_files w, net w)))
                 (fetch_into (dataset_location w dh name) description archive false)).
  { apply fetch_into_preserves; [exact _|by apply os_makedirs_keeps|].
    intros. apply preserves_pure_read; [exact _|apply fetch_files_disabled_pure]. }
  apply Hp in Hrun. unfold unchanged in Hrun. split; [exact (f_equal fst Hrun)|exact (f_equal snd Hrun)].
Qed.

(** C5: with [download_if_missing=False] and the dataset directory in
    place, a call whose archive has a missing file raises
    [IOError(file_type, local_path)] for the first missing role in
    [ARCHIVE] order, and changes nothing. *)
Theorem fetch_dataset_disabled_missing name description archive dh w i ft m :
  let loc := dataset_location w dh name in
  path_exists w loc = true ->
  list_find (fun it => path_exists w (join loc (filename it.2)) = false) archive = Some (i, (ft, m)) ->
  fetch_dataset name description archive dh false w = (w, inl (IOError ft (join loc (filename m)))).
Proof.
  intros loc Hloc Hfind. subst loc. rewrite fetch_dataset_unfold. unfold fetch_into.
  rewrite (pbind_run _ _ w w true) by (unfold os_path_exists; by rewrite Hloc).
  rewrite (pbind_run _ _ w w tt) by done.
  apply pbind_run_err. by rewrite fetch_files_disabled, Hfind.
Qed.

(** ** The verified cache *)

(** Every file of the archive that is present under [loc] has the digest
    its metadata promises. *)
Definition cache_ok (w : World) (loc : path) (items : Archive) : Prop :=
  forall ft m b, (ft, m) ∈ items ->
    w_files w !! join loc (filename m) = Some b -> sha256 b = checksum m.

(** Two roles that share a file name expect the same checksum. *)
Definition archive_consistent (items : Archive) : Prop :=
  forall ft m ft' m', (ft, m) ∈ items -> (ft', m') ∈ items ->
    filename m = filename m' -> checksum m = checksum m'.

Lemma fetch_remote_cache_ok loc items ft m :
  archive_consistent items -> (ft, m) ∈ items ->
  preserves (implies (fun w => cache_ok w loc items)) (fetch_remote m loc false).
Proof.
  intros Hcons Hin w w' r Hr Hok ft' m' b Hin' Hb.
  destruct (decide (join loc (filename m') = final_path m loc)) as [Heq|Hne].
  - destruct r as [e|q].
    + rewrite (fetch_remote_err _ _ _ _ _ _ Hr) in Hb. eauto.
    + destruct (fetch_remote_ok _ _ _ _ _ _ Hr) as [-> (c & Hc & Hold)].
      rewrite Heq, Hc in Hb. injection Hb as <-.
      assert (Hfn : filename m' = filename m) by (by apply app_inj_tail in Heq as [_ [=]]).
      destruct Hold as [[_ Hold]|Hdig].
      * rewrite <- Heq in Hold. eauto.
      * rewrite Hdig. symmetry. eauto.
  - rewrite (dl_files _ _ _ _ (fetch_remote_frame _ _ _ _ _ _ Hr)) in Hb by done. eauto.
Qed.

Lemma os_makedirs_cache_ok p loc items :
  preserves (implies (fun x => cache_ok x loc items)) (os_makedirs p).
Proof.
  eapply preserves_mono; [|by apply (os_makedirs_keeps w_files)].
  intros w1 w2 Heq Hok1 ft m b. unfold unchanged in Heq. rewrite Heq. apply Hok1.
Qed.

Lemma fetch_into_cache_ok loc description archive dim :
  archive_consistent archive ->
  preserves (implies (fun x => cache_ok x loc archive)) (fetch_into loc description archive dim).
Proof.
  intros Hcons. apply fetch_into_preserves; [exact _|apply os_makedirs_cache_ok|].
  intros recs. apply fetch_files_preserves; [exact _|log_frame|]. intros ft m.
  by apply fetch_remote_cache_ok.
Qed.

(** ** Directories *)

Lemma fetch_into_dirs loc description archive dim :
  preserves (dirs_within (list_to_set (inits loc))) (fetch_into loc description archive dim).
Proof.
  apply fetch_into_preserves; [exact _| |].
  - pose proof (makedirs_rev_dirs (rev loc)) as Hm.
    by rewrite rev_involutive in Hm.
  - intros recs. apply fetch_files_preserves; [exact _|log_frame|]. intros ft m _ w1 w2 r' H1.
    unfold dirs_within. rewrite (nf_dirs _ _ _ (dl_net _ _ _ _ (fetch_remote_frame _ _ _ _ _ _ H1))). set_solver.
Qed.

(** C12: a call creates no directory but [<data_home>/<NAME>] and its
    missing ancestors, and removes none. *)
Theorem fetch_dataset_dirs name description archive dh dim w w' r :
  fetch_dataset name description archive dh dim w = (w', r) ->
  dirs_within (list_to_set (inits (dataset_location w dh name))) w w'.
Proof. rewrite fetch_dataset_unfold. apply fetch_into_dirs. Qed.

(** ** Reading the result *)

Lemma archive_records_notin loc items r k :
  k ∉ items.*1 -> archive_records loc items r !! k = r !! k.
Proof.
  revert r. induction items as [|[ft m] items IH]; intros r Hk; [done|]. simpl in *.
  apply not_elem_of_cons in Hk as [Hne Hk]. rewrite IH by done.
  unfold bunch_set. by rewrite lookup_insert_ne.
Qed.

Lemma archive_records_in loc items r ft m :
  NoDup items.*1 -> (ft, m) ∈ items ->
  archive_records loc items r !! ft = Some (BPath (join loc (filename m))).
Proof.
  revert r. induction items as [|[ft' m'] items IH]; intros r Hnd Hin;
    [by apply elem_of_nil in Hin|]. simpl in *.
  apply NoDup_cons in Hnd as [Hn Hnd]. apply elem_of_cons in Hin as [[= -> ->]|Hin].
  - rewrite archive_records_notin by done. unfold bunch_set. by rewrite lookup_insert_eq.
  - by apply IH.
Qed.

(** ** The shape of the result *)

Lemma archive_records_dom loc items r :
  dom (archive_records loc items r) = list_to_set items.*1 ∪ dom r.
Proof.
  revert r. induction items as [|[ft m] items IH]; intros r; simpl; [set_solver|].
  rewrite IH. unfold bunch_set. rewrite dom_insert_L. set_solver.
Qed.

Lemma archive_records_paths loc items r k v :
  archive_records loc items r !! k = Some v -> r !! k = Some v \/ exists p, v = BPath p.
Proof.
  revert r. induction items as [|[ft m] items IH]; intros r Hk; simpl in *; [by left|].
  destruct (IH _ Hk) as [Hr|]; [|by right]. unfold bunch_set in Hr.
  destruct (decide (ft = k)) as [->|]; [rewrite lookup_insert_eq in Hr; injection Hr as <-; right; by eexists|].
  rewrite lookup_insert_ne in Hr by done. by left.
Qed.


(** ** Reading the files back *)

Lemma path_not_prefix (loc : path) x : join loc x ∉ inits loc.
Proof. intros ?%inits_length. unfold join in *. rewrite length_app in *. simpl in *. lia. Qed.

(** C14: the returned paths hold verified files.  If the cache was
    consistent with the checksums before a successful call and no role's
    path was a directory, then each role's attribute is a path from which
    [open(path).read()] returns content whose digest is the role's
    checksum: reading back what the call returns gives the verified data. *)
Theorem fetch_dataset_paths_verified name description archive dh dim w w' b :
  let loc := dataset_location w dh name in
  NoDup archive.*1 -> "DESCR" ∉ archive.*1 -> archive_consistent archive ->
  cache_ok w loc archive ->
  (forall ft m, (ft, m) ∈ archive -> is_dir w (join loc (filename m)) = false) ->
  fetch_dataset name description archive dh dim w = (w', inr b) ->
  forall ft m, (ft, m) ∈ archive ->
    exists c, bunch_getattr b ft = inr (BPath (join loc (filename m))) /\
      read_file (join loc (filename m)) w' = (w', inr c) /\ sha256 c = checksum m.
Proof.
  intros loc Hnd Hdescr Hcons Hok Hnodir Hrun ft m Hin.
  rewrite fetch_dataset_unfold in Hrun. fold loc in Hrun.
  pose proof (fetch_into_cache_ok _ _ _ _ Hcons _ _ _ Hrun Hok) as Hok'.
  pose proof (fetch_into_dirs _ _ _ _ _ _ _ Hrun) as [_ Hdirs].
  apply fetch_into_ok in Hrun as (_ & Hall & _ & text & _ & ->).
  specialize (Hall ft m Hin). specialize (Hnodir ft m Hin).
  assert (Hnd' : join loc (filename m) ∉ w_dirs w').
  { intros Hd%Hdirs. apply elem_of_union in Hd as [Hd|Hd%elem_of_list_to_set].
    - unfold is_dir in Hnodir. by rewrite bool_decide_true in Hnodir.
    - by apply path_not_prefix in Hd. }
  unfold path_exists, is_dir, is_file in Hall. rewrite bool_decide_false in Hall by done.
  destruct (w_files w' !! join loc (filename m)) as [c|] eqn:Hc; [|done].
  exists c. split_and!.
  - unfold bunch_getattr, bunch_set. rewrite lookup_insert_ne.
    + by rewrite (archive_records_in _ _ _ ft m).
    + intros <-. apply Hdescr. by apply (list_elem_of_fmap_2 fst _ ("DESCR", m)).
  - unfold read_file. by rewrite Hc.
  - by apply (Hok' ft m c).
Qed.

(** ** Executable checks of the hypotheses *)

Definition all_presentb (w : World) (loc : path) (items : Archive) : bool :=
  forallb (fun it => path_exists w (join loc (filename it.2))) items.

Lemma all_presentb_spec w loc items : all_presentb w loc items = true -> all_present w loc items.
Proof.
  unfold all_presentb. rewrite forallb_forall. intros Hall ft m Hin.
  apply (Hall (ft, m)). by apply list_elem_of_In.
Qed.

Definition cache_okb (w : World) (loc : path) (items : Archive) : bool :=
  forallb (fun it => match w_files w !! join loc (filename it.2) with
                     | Some b => String.eqb (sha256 b) (checksum it.2)
                     | None => true
                     end) items.

Lemma cache_okb_spec w loc items : cache_okb w loc items = true -> cache_ok w loc items.
Proof.
  unfold cache_okb. rewrite forallb_forall. intros Hall ft m b Hin Hb.
  specialize (Hall (ft, m) ltac:(by apply list_elem_of_In)). simpl in Hall.
  rewrite Hb in Hall. by apply String.eqb_eq.
Qed.

Lemma archive_consistent_of_nodup items :
  NoDup ((fun it => filename it.2) <$> items) -> archive_consistent items.
Proof.
  induction items as [|[ft0 m0] items IH]; intros Hnd ft m ft' m' Hin Hin' Hfn;
    [by apply elem_of_nil in Hin|].
  simpl in Hnd. apply NoDup_cons in Hnd as [Hn Hnd].
  apply elem_of_cons in Hin as [[= -> ->]|Hin], Hin' as [[= -> ->]|Hin'];
    [done| | |by eapply IH].
  - exfalso. apply Hn. rewrite Hfn. by apply (list_elem_of_fmap_2 (fun it => filename it.2) _ (ft', m')).
  - exfalso. apply Hn. rewrite <- Hfn. by apply (list_elem_of_fmap_2 (fun it => filename it.2) _ (ft, m)).
Qed.

End Fetcher.
