(* ===== verification/Downloader.v ===== *)
(** * The downloader: [_fetch_remote]

    [_fetch_remote(remote, dirname=None)] lives in [MDAnalysisData/base.py],
    which is not among the sources; it is modelled from the specification
    (section 4.2):

      - without [force], a file already at [dirname/remote.filename] is
        returned at once, without network access;
      - otherwise the resource is streamed into a fresh temporary file of
        [dirname] ([tempfile.mkstemp]: the first free name among [TMP_MAX]
        candidates, created exclusively), its digest is compared with
        [remote.checksum], and on a match the temporary file is moved onto the
        final path with one [os.replace]; on a mismatch it is removed and
        [IntegrityError] is raised;
      - a network failure (time-out, reset, interrupted transfer, non-2xx
        status) removes the temporary file and is retried after a back-off
        sleep of [2^k] seconds, at most [MAX_RETRIES] times, then surfaces as
        [TransientFetchError]; filesystem errors are not retried.

    The theorems: the implementation meets [DownloaderSpec] (so every theorem
    of [Fetcher] holds of it), the trace of a call is a prefix of the retry
    schedule, and its error behaviour. *)

From stdpp Require Import base gmap strings list pretty.
From S2P Require Import Prelude Filesystem Remote.
Local Open Scope py_scope.

Definition MAX_RETRIES : nat := 3.
Definition TMP_MAX : nat := 100.

(** Seconds to sleep before retry number [k + 1]. *)
Definition backoff (k : nat) : nat := 2 ^ k.

(** The [n]-th name [mkstemp] tries for [remote] in [d]. *)
Definition temp_candidate (m : RemoteFileMetadata) (d : path) (n : nat) : path :=
  join d (filename m +:+ ".part" +:+ pretty n).

(** [tempfile.mkstemp(dir=d, prefix=filename)]: create the first candidate
    that does not exist, trying [k] of them from number [n]. *)
Fixpoint mkstemp_from (k n : nat) (m : RemoteFileMetadata) (d : path) : M path :=
  match k with
  | 0 => praise (FileExistsError (temp_candidate m d n))
  | S k' =>
      let p := temp_candidate m d n in
      let* w := pget in
      if path_exists w p then mkstemp_from k' (S n) m d
      else let* _ := write_file p [] in pret p
  end.

Definition mkstemp (m : RemoteFileMetadata) (d : path) : M path := mkstemp_from TMP_MAX 0 m d.

(** [try: os.replace(tmp, final) except: os.remove(tmp); raise] *)
Definition place (tmp final : path) : M unit :=
  pcatch (os_replace tmp final) (fun _ => true)
         (fun e => let* _ := os_remove tmp in praise e).

(** The transfer into the temporary file [tmp] and what follows it.
    [true]: the verified file is in place; [false]: a transient network
    failure, the temporary file is gone. *)
Definition transfer `{Digest} (m : RemoteFileMetadata) (d : path) (tmp : path) : M bool :=
  let final := final_path m d in
  let* resp := http_get (url m) in
  match resp with
  | Served body =>
      let* _ := write_file tmp body in
      let digest := sha256 body in
      if String.eqb digest (checksum m) then
        let* _ := place tmp final in pret true
      else
        let* _ := os_remove tmp in praise (IntegrityError final (checksum m) digest)
  | Interrupted partial =>
      let* _ := write_file tmp partial in
      let* _ := os_remove tmp in pret false
  | TimedOut | ConnectionReset | HttpStatus _ =>
      let* _ := os_remove tmp in pret false
  end.

(** One attempt. *)
Definition download_once `{Digest} (m : RemoteFileMetadata) (d : path) : M bool :=
  let* tmp := mkstemp m d in
  transfer m d tmp.

(** The bounded retry loop: [n] attempts left, [k] of them already made. *)
Fixpoint download_attempts `{Digest} (n k : nat) (m : RemoteFileMetadata) (d : path) : M path :=
  match n with
  | 0 => praise (TransientFetchError (url m))
  | S n' =>
      let* placed := download_once m d in
      if placed then pret (final_path m d)
      else match n' with
           | 0 => praise (TransientFetchError (url m))
           | S _ => let* _ := sleep (backoff k) in download_attempts n' (S k) m d
           end
  end.

(** [_fetch_remote(remote, dirname, force)] *)
Definition fetch_remote_impl `{Digest} (m : RemoteFileMetadata) (d : path) (force : bool) : M path :=
  let final := final_path m d in
  let* w := pget in
  if negb force && is_file w final then pret final
  else download_attempts (S MAX_RETRIES) 0 m d.

#[export] Instance downloader_impl `{Digest} : Downloader := fetch_remote_impl.

(** ** The net effect of one attempt *)

Lemma string_app_r_id s t : s +:+ t = s -> t = ""%string.
Proof. induction s as [|a s IH]; simpl; [done|]. intros [= H]. auto. Qed.

Lemma temp_ne_final m d n : temp_candidate m d n <> final_path m d.
Proof.
  unfold temp_candidate, final_path, join. intros [_ Heq]%app_inj_tail.
  apply string_app_r_id in Heq. discriminate.
Qed.

(** The file operations leave the network part of the world alone. *)
Lemma net_frame_with_files u w w' f : net_frame u w w' -> net_frame u w (with_files f w').
Proof. by intros []. Qed.

(** Side conditions of the run lemmas after a few file updates. *)
Ltac fs_side := unfold is_file; simpl; rewrite ?lookup_insert_eq; done.

Section Attempt.
Context `{Digest} (m : RemoteFileMetadata) (d : path).

(** [mkstemp] either raises having changed nothing, or creates an empty
    file at a path that did not exist, next to the final path. *)
Lemma mkstemp_from_inv k n w w' r :
  mkstemp_from k n m d w = (w', r) ->
  (exists tmp, r = inr tmp /\ tmp <> final_path m d /\ tmp ∉ w_dirs w /\
     w_files w !! tmp = None /\ dirname tmp ∈ w_dirs w /\ dirname tmp ∉ w_readonly w /\
     w' = with_files (<[tmp := []]> (w_files w)) w)
  \/ (w' = w /\ exists e, r = inl e).
Proof.
  revert n. induction k as [|k IH]; intros n; simpl; [intros [= <- <-]; eauto|].
  py_simpl. destruct (path_exists w (temp_candidate m d n)) eqn:E; [apply IH|].
  unfold path_exists, is_dir, is_file in E. apply orb_false_elim in E as [E1 E2].
  apply bool_decide_eq_false in E1.
  destruct (write_file _ _ w) as [w1 [e|[]]] eqn:Hw;
    apply write_file_inv in Hw as [(? & Hp & Hd & Hr & ->)|(-> & e' & ?)];
    try congruence; intros [= <- <-]; [by eauto|].
  left. eexists. split; [done|]. split; [apply temp_ne_final|].
  by destruct (w_files w !! _).
Qed.

Lemma transfer_spec tmp w w' r :
  tmp <> final_path m d -> tmp ∉ w_dirs w -> dirname tmp ∈ w_dirs w ->
  dirname tmp ∉ w_readonly w -> is_file w tmp = true ->
  transfer m d tmp w = (w', r) ->
  net_frame (url m) w w' /\ w_trace w' = w_trace w ++ [Request (url m)] /\
  match r with
  | inr true => exists b, sha256 b = checksum m /\
                w_files w' = <[final_path m d := b]> (delete tmp (w_files w))
  | _ => w_files w' = delete tmp (w_files w)
  end.
Proof.
  intros Hne Hdir Hpar Hro Hfile. unfold transfer.
  destruct (http_get (url m) w) as [w1 r1] eqn:Hg.
  pose proof Hg as (resp & -> & Hf & Hd & Hc & Ht & Hrm)%http_get_inv.
  assert (Hnf : net_frame (url m) w w1).
  { split; [done|done|done|]. exists [Request (url m)]. split; [done|by constructor]. }
  assert (Hfile1 : is_file w1 tmp = true) by (unfold is_file in *; by rewrite Hf).
  rewrite <- Hd in Hdir, Hpar. rewrite <- (config_readonly w w1 Hc) in Hro.
  py_simpl. rewrite Hg. py_simpl.
  destruct resp as [body|partial| | |code].
  - rewrite write_file_run by fs_side. py_simpl.
    destruct (String.eqb_spec (sha256 body) (checksum m)) as [Hok|Hbad].
    + unfold place. py_simpl.
      destruct (os_replace tmp _ _) as [w2 [e|[]]] eqn:Hr;
        apply os_replace_inv in Hr as [(Hr1 & Hfd & _ & b & Hb & ->)|(-> & e' & Hr1)].
      * discriminate Hr1.
      * rewrite os_remove_run by fs_side.
        py_simpl. intros [= <- <-]. split; [by repeat apply net_frame_with_files|].
        split; [done|]. simpl. by rewrite delete_insert_eq, Hf.
      * simpl in Hb. rewrite lookup_insert_eq in Hb. injection Hb as <-. intros [= <- <-].
        split; [by repeat apply net_frame_with_files|]. split; [done|].
        exists body. split; [done|]. simpl. by rewrite delete_insert_eq, Hf.
      * discriminate Hr1.
    + rewrite os_remove_run by fs_side.
      py_simpl. intros [= <- <-]. split; [by repeat apply net_frame_with_files|].
      split; [done|]. simpl. by rewrite delete_insert_eq, Hf.
  - rewrite write_file_run by fs_side. py_simpl.
    rewrite os_remove_run by fs_side.
    py_simpl. intros [= <- <-]. split; [by repeat apply net_frame_with_files|].
    split; [done|]. simpl. by rewrite delete_insert_eq, Hf.
  - rewrite os_remove_run by fs_side. py_simpl. intros [= <- <-].
    split; [by repeat apply net_frame_with_files|]. split; [done|]. simpl. by rewrite Hf.
  - rewrite os_remove_run by fs_side. py_simpl. intros [= <- <-].
    split; [by repeat apply net_frame_with_files|]. split; [done|]. simpl. by rewrite Hf.
  - rewrite os_remove_run by fs_side. py_simpl. intros [= <- <-].
    split; [by repeat apply net_frame_with_files|]. split; [done|]. simpl. by rewrite Hf.
Qed.
Lemma download_once_spec w w' r :
  download_once m d w = (w', r) ->
  net_frame (url m) w w' /\
  (w_trace w' = w_trace w ++ [Request (url m)] \/
   (w_trace w' = w_trace w /\ exists e, r = inl e)) /\
  match r with
  | inr true => exists b, sha256 b = checksum m /\
                w_files w' = <[final_path m d := b]> (w_files w)
  | _ => w_files w' = w_files w
  end.
Proof.
  unfold download_once, mkstemp. py_simpl.
  destruct (mkstemp_from _ _ m d w) as [w1 [e|tmp]] eqn:Hm;
    apply mkstemp_from_inv in Hm as [(tmp' & Hr & Hne & Hdir & Hnone & Hpar & Hro & ->)|(-> & e' & Hr)];
    try discriminate.
  - intros [= <- <-]. split; [reflexivity|]. split; [by right; eauto|done].
  - injection Hr as <-. intros Ht.
    apply transfer_spec in Ht as (Hnf & Htr & Hfiles); [|done|done|done|done|fs_side].
    split; [etrans; [apply net_frame_with_files; reflexivity|exact Hnf]|]. split; [by left|].
    simpl in Hfiles. rewrite delete_insert_id in Hfiles by done.
    by destruct r as [|[]].
Qed.

(** The retry loop: it returns the final path holding a verified file, or
    raises with the files as they were. *)
Lemma download_attempts_spec n k w w' r :
  download_attempts n k m d w = (w', r) ->
  net_frame (url m) w w' /\
  match r with
  | inr p => p = final_path m d /\ exists b, sha256 b = checksum m /\
             w_files w' = <[final_path m d := b]> (w_files w)
  | inl _ => w_files w' = w_files w
  end.
Proof.
  revert k w. induction n as [|n IH]; intros k w; simpl; [intros [= <- <-]; split; done|].
  py_simpl. destruct (download_once m d w) as [w1 [e|[]]] eqn:Ho;
    apply download_once_spec in Ho as (Hnf1 & _ & Hf1).
  - intros [= <- <-]. done.
  - intros [= <- <-]. done.
  - destruct n as [|n'].
    + intros [= <- <-]. done.
    + py_simpl. intros Hrec. apply IH in Hrec as [Hnf2 Hf2].
      assert (Hs : net_frame (url m) w1 (with_net (w_remote w1) (w_trace w1 ++ [Sleep (backoff k)]) w1)).
      { split; try done. exists [Sleep (backoff k)]. split; [done|by constructor]. }
      split; [by etrans; [|etrans]|]. destruct r as [e|p]; [by rewrite Hf2, <- Hf1|].
      destruct Hf2 as [-> (b & Hb & ->)]. rewrite <- Hf1. eauto.
Qed.

End Attempt.

(** ** Runs of one attempt *)

Definition transient (r : response) : bool :=
  match r with Served _ => false | _ => true end.

Section Runs.
Context `{Digest} (m : RemoteFileMetadata) (d : path).

Lemma mkstemp_run w :
  path_exists w (temp_candidate m d 0) = false -> d ∈ w_dirs w -> d ∉ w_readonly w ->
  mkstemp m d w =
    (with_files (<[temp_candidate m d 0 := []]> (w_files w)) w, inr (temp_candidate m d 0)).
Proof.
  intros Hp Hd Hr. unfold mkstemp, TMP_MAX, mkstemp_from. py_simpl. rewrite Hp.
  unfold path_exists, is_dir in Hp. apply orb_false_elim in Hp as [Hp _].
  apply bool_decide_eq_false in Hp.
  unfold temp_candidate in *. rewrite write_file_run; [done|done|by rewrite dirname_join|by rewrite dirname_join].
Qed.

(** A transient answer: the temporary file goes and the attempt reports
    failure. *)
Lemma transfer_transient tmp resp rs w :
  transient resp = true -> w_remote w !! url m = Some (resp :: rs) ->
  tmp ∉ w_dirs w -> dirname tmp ∈ w_dirs w -> dirname tmp ∉ w_readonly w ->
  is_file w tmp = true ->
  transfer m d tmp w =
    (with_files (delete tmp (w_files w))
       (with_net (<[url m := rs]> (w_remote w)) (w_trace w ++ [Request (url m)]) w), inr false).
Proof.
  intros Htr Hrem Hdir Hpar Hro Hf. unfold transfer. py_simpl.
  rewrite (http_get_run _ resp rs) by done. py_simpl.
  destruct resp as [body|partial| | |code]; [done| | | |];
    rewrite ?write_file_run, os_remove_run by fs_side; simpl;
    rewrite ?delete_insert_eq; done.
Qed.

Lemma transfer_served tmp body rs w :
  w_remote w !! url m = Some (Served body :: rs) -> sha256 body = checksum m ->
  w_files w !! tmp = Some [] -> tmp <> final_path m d -> tmp ∉ w_dirs w ->
  dirname tmp ∈ w_dirs w -> dirname tmp ∉ w_readonly w ->
  final_path m d ∉ w_dirs w -> dirname (final_path m d) ∈ w_dirs w ->
  dirname (final_path m d) ∉ w_readonly w ->
  transfer m d tmp w =
    (with_files (<[final_path m d := body]> (delete tmp (w_files w)))
       (with_net (<[url m := rs]> (w_remote w)) (w_trace w ++ [Request (url m)]) w), inr true).
Proof.
  intros Hrem Hok Htmp Hne Hdir Hpar Hro Hfd Hfp Hfr. unfold transfer. py_simpl.
  rewrite (http_get_run _ (Served body) rs) by done. py_simpl.
  rewrite write_file_run by fs_side. py_simpl.
  rewrite Hok, String.eqb_refl. unfold place. py_simpl.
  rewrite (os_replace_run _ _ body) by (simpl; rewrite ?lookup_insert_eq; done). simpl.
  by rewrite delete_insert_eq.
Qed.
End Runs.

(** ** Every download keeps the filesystem a tree *)

Section Tree.
Context `{Digest} (m : RemoteFileMetadata) (d : path).

Lemma mkstemp_from_wf k n : preserves (implies wf_world) (mkstemp_from k n m d).
Proof. revert n. induction k; intros n; simpl; frame_tac. Qed.

Lemma download_once_wf : preserves (implies wf_world) (download_once m d).
Proof.
  unfold download_once, transfer, place. apply preserves_bind; [exact _|apply mkstemp_from_wf|].
  frame_tac.
Qed.

Lemma fetch_remote_impl_wf force : preserves (implies wf_world) (fetch_remote_impl m d force).
Proof.
  unfold fetch_remote_impl. cbv zeta. bind_read. cbv beta. apply preserves_if; [frame_tac|].
  generalize (S MAX_RETRIES), 0. intros n. induction n as [|n IH]; intros k; simpl; [frame_tac|].
  apply preserves_bind; [exact _|apply download_once_wf|]. intros [|]; [frame_tac|].
  destruct n; frame_tac.
Qed.
End Tree.

#[export] Hint Resolve fetch_remote_impl_wf : pym.

(** ** [_fetch_remote] meets the interface *)

Section Laws.
Context `{Digest}.

Lemma fetch_remote_impl_frame m d force w w' r :
  fetch_remote_impl m d force w = (w', r) -> dl_frame m d w w'.
Proof.
  unfold fetch_remote_impl. py_simpl. destruct (negb force && is_file w _).
  - intros [= <- <-]. reflexivity.
  - intros [Hnf Hf]%download_attempts_spec. split; [done|].
    intros q Hq. destruct r as [e|p]; [by rewrite Hf|].
    destruct Hf as [_ (b & _ & ->)]. by rewrite lookup_insert_ne.
Qed.

Lemma fetch_remote_impl_ok m d force w w' p :
  fetch_remote_impl m d force w = (w', inr p) ->
  p = final_path m d /\
  exists b, w_files w' !! p = Some b /\
    ((force = false /\ w_files w !! p = Some b) \/ sha256 b = checksum m).
Proof.
  unfold fetch_remote_impl. py_simpl.
  destruct (negb force && is_file w _) eqn:Hfast.
  - intros [= <- <-]. split; [done|]. apply andb_true_iff in Hfast as [Hf Hfile].
    unfold is_file in Hfile. destruct (w_files w !! final_path m d) as [b|] eqn:Hb; [|done].
    exists b. split; [done|]. left. by destruct force.
  - intros [_ (-> & b & Hb & ->)]%download_attempts_spec. split; [done|].
    exists b. rewrite lookup_insert_eq. auto.
Qed.

Lemma fetch_remote_impl_err m d force w w' e :
  fetch_remote_impl m d force w = (w', inl e) -> w_files w' = w_files w.
Proof.
  unfold fetch_remote_impl. py_simpl. destruct (negb force && is_file w _); [done|].
  by intros [_ ?]%download_attempts_spec.
Qed.

Lemma fetch_remote_impl_cached m d w b :
  w_files w !! final_path m d = Some b ->
  fetch_remote_impl m d false w = (w, inr (final_path m d)).
Proof. intros Hb. unfold fetch_remote_impl, is_file. py_simpl. by rewrite Hb. Qed.

#[export] Instance downloader_impl_spec : DownloaderSpec downloader_impl.
Proof.
  split; [apply fetch_remote_impl_frame|apply fetch_remote_impl_ok|
          apply fetch_remote_impl_err|apply fetch_remote_impl_cached].
Qed.
End Laws.

(** ** Properties of [_fetch_remote] *)

(** The network events of a call that retries [n - 1] times from attempt
    [k]: a request, then a back-off sleep before each retry. *)
Fixpoint retry_schedule (u : string) (n k : nat) : list event :=
  match n with
  | 0 => []
  | S n' => Request u :: match n' with
                         | 0 => []
                         | S _ => Sleep (backoff k) :: retry_schedule u n' (S k)
                         end
  end.

Section Properties.
Context `{Digest}.

Lemma download_attempts_trace m d n k w w' r :
  download_attempts n k m d w = (w', r) ->
  exists evs, w_trace w' = w_trace w ++ evs /\ evs `prefix_of` retry_schedule (url m) n k.
Proof.
  revert k w. induction n as [|n IH]; intros k w; simpl.
  { intros [= <- _]. exists []. rewrite app_nil_r. split; [done|apply prefix_nil]. }
  py_simpl. destruct (download_once m d w) as [w1 r1] eqn:Ho.
  apply download_once_spec in Ho as (_ & [Ht|[Ht (e & ->)]] & _).
  2: { intros [= <- _]. exists []. rewrite app_nil_r. split; [done|apply prefix_nil]. }
  assert (Hone : exists evs, w_trace w1 = w_trace w ++ evs /\
                   evs `prefix_of` retry_schedule (url m) (S n) k).
  { exists [Request (url m)]. split; [done|]. apply prefix_cons, prefix_nil. }
  destruct r1 as [e|[]]; [by intros [= <- _]|by intros [= <- _]|].
  destruct n as [|n']; [by intros [= <- _]|]. py_simpl. intros Hrec.
  apply IH in Hrec as (evs & Hevs & Hpre). simpl in Hevs.
  exists (Request (url m) :: Sleep (backoff k) :: evs). split.
  - rewrite Hevs, Ht, <- !app_assoc. done.
  - by apply prefix_cons, prefix_cons.
Qed.

(** Bounded retries with back-off.  The network events of a call are
    a prefix of [request; sleep 1; request; sleep 2; request; sleep 4;
    request]: at most [1 + MAX_RETRIES] requests, each retry after a
    doubling sleep, and nothing else. *)
Theorem fetch_remote_impl_schedule m d force w w' r :
  fetch_remote_impl m d force w = (w', r) ->
  exists evs, w_trace w' = w_trace w ++ evs /\
    evs `prefix_of` retry_schedule (url m) (S MAX_RETRIES) 0 /\
    length evs <= 2 * MAX_RETRIES + 1.
Proof.
  unfold fetch_remote_impl. py_simpl. destruct (negb force && is_file w _).
  - intros [= <- _]. exists []. rewrite app_nil_r. split; [done|]. split; [apply prefix_nil|simpl; lia].
  - intros (evs & Hevs & Hpre)%download_attempts_trace. exists evs.
    split; [done|]. split; [done|]. apply prefix_length in Hpre. simpl in *. lia.
Qed.

(** A download whose content does not match its checksum raises
    [IntegrityError(final, expected, actual)] after one request and leaves
    the files exactly as they were (the temporary file is removed, nothing
    appears at the final path); it is not retried. *)
Theorem fetch_remote_impl_integrity m d force w body rest :
  d ∈ w_dirs w -> d ∉ w_readonly w -> path_exists w (temp_candidate m d 0) = false ->
  (force = true \/ is_file w (final_path m d) = false) ->
  w_remote w !! url m = Some (Served body :: rest) -> sha256 body <> checksum m ->
  exists w', fetch_remote_impl m d force w =
               (w', inl (IntegrityError (final_path m d) (checksum m) (sha256 body))) /\
             w_files w' = w_files w /\ w_trace w' = w_trace w ++ [Request (url m)].
Proof.
  intros Hd Hro Htmp Hforce Hrem Hbad.
  assert (Hnone : w_files w !! temp_candidate m d 0 = None).
  { unfold path_exists, is_file in Htmp. apply orb_false_elim in Htmp as [_ ?].
    by destruct (w_files w !! _). }
  unfold fetch_remote_impl. py_simpl.
  replace (negb force && is_file w (final_path m d)) with false by (destruct Hforce as [->| ->]; [done|by rewrite andb_false_r]).
  simpl. py_simpl. unfold download_once. py_simpl. rewrite mkstemp_run by done.
  unfold transfer. py_simpl. rewrite (http_get_run _ (Served body) rest) by done. py_simpl.
  rewrite write_file_run by (unfold temp_candidate in *; rewrite ?dirname_join;
    try done; unfold path_exists, is_dir in Htmp; simpl; apply orb_false_elim in Htmp as [?%bool_decide_eq_false _]; done).
  py_simpl. destruct (String.eqb_spec (sha256 body) (checksum m)) as [|_]; [done|].
  rewrite os_remove_run by (unfold temp_candidate in *; fs_side || (simpl; rewrite dirname_join; done)).
  py_simpl. eexists. split; [reflexivity|]. simpl.
  by rewrite delete_insert_eq, delete_insert_id.
Qed.

(** A permission error is fatal: when the destination directory is
    read-only the call raises [PermissionError] for the temporary file
    without any network request and without changing the world. *)
Theorem fetch_remote_impl_permission m d force w :
  d ∈ w_dirs w -> d ∈ w_readonly w -> path_exists w (temp_candidate m d 0) = false ->
  (force = true \/ is_file w (final_path m d) = false) ->
  fetch_remote_impl m d force w = (w, inl (PermissionError (temp_candidate m d 0))).
Proof.
  intros Hd Hro Htmp Hforce. unfold fetch_remote_impl. py_simpl.
  replace (negb force && is_file w (final_path m d)) with false by (destruct Hforce as [->| ->]; [done|by rewrite andb_false_r]).
  simpl. unfold download_once, mkstemp, TMP_MAX, mkstemp_from. py_simpl. rewrite Htmp.
  unfold write_file, is_dir. py_simpl.
  unfold path_exists, is_dir in Htmp. apply orb_false_elim in Htmp as [Htmp _]. rewrite Htmp.
  unfold check_parent, is_dir, temp_candidate. rewrite dirname_join.
  by rewrite !bool_decide_true.
Qed.
(** The hypotheses under which an attempt can run in [d]. *)
Definition can_download (m : RemoteFileMetadata) (d : path) (w : World) : Prop :=
  d ∈ w_dirs w /\ d ∉ w_readonly w /\ path_exists w (temp_candidate m d 0) = false /\
  path_exists w (final_path m d) = false.

Lemma download_attempts_succeed m d rs body rest n k w :
  can_download m d w ->
  Forall (fun r => transient r = true) rs -> length rs < n ->
  w_remote w !! url m = Some (rs ++ Served body :: rest) -> sha256 body = checksum m ->
  exists w', download_attempts n k m d w = (w', inr (final_path m d)) /\
    w_files w' = <[final_path m d := body]> (w_files w) /\ w_remote w' !! url m = Some rest.
Proof.
  intros (Hd & Hro & Htmp & Hfin). revert n k w Hd Hro Htmp Hfin.
  induction rs as [|resp rs IH]; intros n k w Hd Hro Htmp Hfin Htr Hlen Hrem Hok;
    (destruct n as [|n]; [simpl in Hlen; lia|]).
  all: assert (Hnone : w_files w !! temp_candidate m d 0 = None) by
    (unfold path_exists, is_file in Htmp; apply orb_false_elim in Htmp as [_ ?];
     by destruct (w_files w !! _)).
  all: assert (Htd : temp_candidate m d 0 ∉ w_dirs w) by
    (unfold path_exists, is_dir in Htmp; apply orb_false_elim in Htmp as [?%bool_decide_eq_false _]; done).
  all: simpl; py_simpl; unfold download_once; py_simpl; rewrite mkstemp_run by done; py_simpl.
  - rewrite (transfer_served m d _ body rest); simpl;
      try (unfold final_path, temp_candidate; rewrite ?dirname_join); try done.
    + py_simpl. eexists. split; [reflexivity|]. simpl.
      split; [rewrite delete_insert_id; [done|exact Hnone]|apply lookup_insert_eq].
    + by rewrite lookup_insert_eq.
    + apply temp_ne_final.
    + unfold path_exists, is_dir in Hfin. apply orb_false_elim in Hfin as [?%bool_decide_eq_false _].
      done.
  - apply Forall_cons in Htr as [Htr1 Htr].
    rewrite (transfer_transient m d _ resp (rs ++ Served body :: rest));
      try (simpl; unfold temp_candidate; rewrite ?dirname_join, ?lookup_insert_eq); try done.
    destruct n as [|n]; [simpl in Hlen; lia|]. py_simpl.
    lazymatch goal with |- context [download_attempts _ _ m d ?W] => set (W' := W) end.
    assert (HF : w_files W' = w_files w) by (subst W'; simpl; by rewrite delete_insert_id).
    destruct (IH (S n) (S k) W') as (w' & Hrun & Hf & Hr).
    + done.
    + done.
    + unfold path_exists, is_file. rewrite HF. exact Htmp.
    + unfold path_exists, is_file. rewrite HF. exact Hfin.
    + done.
    + simpl in Hlen. lia.
    + subst W'. simpl. by rewrite lookup_insert_eq.
    + done.
    + exists w'. split; [exact Hrun|]. rewrite Hf, HF. by split.
    + fs_side.
Qed.

(** Transient failures are retried and enough retries give the file:
    when the host answers with at most [MAX_RETRIES] transient failures
    (time-outs, resets, interrupted transfers, error statuses) and then
    with content of the right digest, the call returns the final path,
    which holds that content, and nothing else in the filesystem changed. *)
Theorem fetch_remote_impl_retries_succeed m d w rs body rest :
  can_download m d w ->
  Forall (fun r => transient r = true) rs -> length rs <= MAX_RETRIES ->
  w_remote w !! url m = Some (rs ++ Served body :: rest) -> sha256 body = checksum m ->
  exists w', fetch_remote_impl m d false w = (w', inr (final_path m d)) /\
    w_files w' = <[final_path m d := body]> (w_files w) /\ w_remote w' !! url m = Some rest.
Proof.
  intros Hcan Htr Hlen Hrem Hok. unfold fetch_remote_impl. py_simpl.
  pose proof Hcan as (Hd & Hro & Htmp & Hfin).
  unfold path_exists in Hfin. apply orb_false_elim in Hfin as [_ Hfile]. rewrite Hfile.
  cbv beta iota delta [negb andb].
  apply (download_attempts_succeed m d rs body rest); [done|done|lia|done|done].
Qed.

(** C7: refinement.  The downloader modelled from the specification meets
    the contract the fetchers are proved against: frame, verified or
    cached result, unchanged files on error, fast path for cached files. *)
Theorem fetch_remote_impl_refines : DownloaderSpec downloader_impl.
Proof.
  split; [apply fetch_remote_impl_frame|apply fetch_remote_impl_ok|
          apply fetch_remote_impl_err|apply fetch_remote_impl_cached].
Qed.
End Properties.
