(* ===== verification/DownloadSteps.v ===== *)
(** * The downloader statement by statement

    [Downloader] writes [_fetch_remote] as one function of the world.  For
    interleavings each of its statements has to be a step of its own: the
    cache check, every [mkstemp] candidate (an [os.open] with [O_EXCL], so
    the test and the creation are one atomic step), the GET request, the
    write of the body into the temporary file, the [os.replace] onto the
    final path and its clean-up, the removal of a failed temporary file and
    the back-off sleep.  [dpc] is the downloader's program counter and
    [dstep] runs one statement; the states carry what the code keeps in
    local variables (the retry counters, the temporary path, the answer).

    Theorem: run alone, the statements compute exactly [fetch_remote_impl]
    ([dsolo_fetch_remote_equiv]); [SharedCache] lifts it to a whole call. *)

From stdpp Require Import base gmap strings list relations.
From S2P Require Import Prelude Filesystem Remote Downloader.
Local Open Scope py_scope.

(** Program points of [_fetch_remote(remote, dirname, force)]; [n] is the
    number of attempts left after the current one and [k] the number made
    before it. *)
Inductive dpc :=
| DStart (force : bool)                       (* if not force and isfile(final): return final *)
| DTemp (n k j i : nat)                       (* mkstemp: [j] candidates left, number [i] next *)
| DGet (n k : nat) (tmp : path)               (* resp = GET(url) *)
| DResp (n k : nat) (tmp : path) (resp : response)  (* write the body or remove tmp *)
| DRemove (n k : nat) (tmp : path)            (* os.remove(tmp) after a broken transfer *)
| DReject (tmp : path) (digest : string)      (* os.remove(tmp); raise IntegrityError *)
| DPlace (tmp : path)                         (* os.replace(tmp, final) *)
| DCleanup (tmp : path) (e : exn)             (* except: os.remove(tmp); raise *)
| DSleep (n k : nat)                          (* time.sleep(2 ** k) *)
| DDone (r : exn + path).                     (* returned or raised *)

(** Run one statement [mm], then go on at [kk a], or end at the exception. *)
Definition dresume {A} (mm : M A) (kk : A -> dpc) (w : World) : dpc * World :=
  match mm w with
  | (w', inr a) => (kk a, w')
  | (w', inl e) => (DDone (inl e), w')
  end.

Section Steps.
Context `{Digest} (m : RemoteFileMetadata) (d : path).

(** The first statement of [download_attempts n k]. *)
Definition attempt (n k : nat) : dpc :=
  match n with
  | 0 => DDone (inl (TransientFetchError (url m)))
  | S n' => DTemp n' k TMP_MAX 0
  end.

(** What [download_attempts (S n') k] does after a failed attempt. *)
Definition retry (n' k : nat) : dpc :=
  match n' with
  | 0 => DDone (inl (TransientFetchError (url m)))
  | S _ => DSleep n' k
  end.

(** One statement of [_fetch_remote(m, d, force)]. *)
Definition dstep (p : dpc) (w : World) : option (dpc * World) :=
  match p with
  | DStart force =>
      Some (if negb force && is_file w (final_path m d) then (DDone (inr (final_path m d)), w)
            else (attempt (S MAX_RETRIES) 0, w))
  | DTemp n k 0 i => Some (DDone (inl (FileExistsError (temp_candidate m d i))), w)
  | DTemp n k (S j) i =>
      let p := temp_candidate m d i in
      Some (if path_exists w p then (DTemp n k j (S i), w)
            else dresume (write_file p []) (fun _ => DGet n k p) w)
  | DGet n k tmp => Some (dresume (http_get (url m)) (DResp n k tmp) w)
  | DResp n k tmp (Served body) =>
      Some (dresume (write_file tmp body)
              (fun _ => if String.eqb (sha256 body) (checksum m) then DPlace tmp
                        else DReject tmp (sha256 body)) w)
  | DResp n k tmp (Interrupted partial) =>
      Some (dresume (write_file tmp partial) (fun _ => DRemove n k tmp) w)
  | DResp n k tmp _ => Some (dresume (os_remove tmp) (fun _ => retry n k) w)
  | DRemove n k tmp => Some (dresume (os_remove tmp) (fun _ => retry n k) w)
  | DReject tmp digest =>
      Some (dresume (os_remove tmp)
              (fun _ => DDone (inl (IntegrityError (final_path m d) (checksum m) digest))) w)
  | DPlace tmp =>
      Some (match os_replace tmp (final_path m d) w with
            | (w', inr _) => (DDone (inr (final_path m d)), w')
            | (w', inl e) => (DCleanup tmp e, w')
            end)
  | DCleanup tmp e => Some (dresume (os_remove tmp) (fun _ => DDone (inl e)) w)
  | DSleep n k => Some (dresume (sleep (backoff k)) (fun _ => attempt n (S k)) w)
  | DDone _ => None
  end.

(** The downloader on its own. *)
Definition dsolo : relation (dpc * World) := fun c c' => dstep c.1 c.2 = Some c'.

(** ** The statements compute [fetch_remote_impl] *)

Lemma dsolo_resume {A} (mm : M A) kk p w w' x :
  dstep p w = Some (dresume mm kk w) -> mm w = (w', x) ->
  dsolo (p, w) (match x with inr a => kk a | inl e => DDone (inl e) end, w').
Proof. intros Hs Hm. unfold dsolo. simpl. rewrite Hs. unfold dresume. rewrite Hm. by destruct x. Qed.

Lemma mkstemp_steps n k j i w w' r :
  mkstemp_from j i m d w = (w', r) ->
  rtc dsolo (DTemp n k j i, w) (match r with inr tmp => DGet n k tmp | inl e => DDone (inl e) end, w').
Proof.
  revert i w. induction j as [|j IH]; intros i w; simpl.
  { intros [= <- <-]. by apply rtc_once. }
  py_simpl. destruct (path_exists w (temp_candidate m d i)) eqn:E.
  - intros Hr. eapply rtc_l; [|by apply IH]. unfold dsolo. simpl. by rewrite E.
  - destruct (write_file _ [] w) as [w1 [e|[]]] eqn:Hw; intros [= <- <-]; apply rtc_once;
      unfold dsolo; simpl; rewrite E; unfold dresume; by rewrite Hw.
Qed.

(** Take the statement whose run is [H]. *)
Ltac dstep_by H := unfold dsolo; simpl; unfold dresume; rewrite H; try reflexivity.

Lemma transfer_steps n k tmp w w' r :
  transfer m d tmp w = (w', r) ->
  rtc dsolo (DGet n k tmp, w)
    (match r with
     | inr true => DDone (inr (final_path m d))
     | inr false => retry n k
     | inl e => DDone (inl e)
     end, w').
Proof.
  unfold transfer. py_simpl.
  destruct (http_get (url m) w) as [w1 [e|resp]] eqn:Hg.
  { intros [= <- <-]. apply rtc_once. by dstep_by Hg. }
  intros Hr. eapply rtc_l; [by dstep_by Hg|]. revert Hr.
  destruct resp as [body|partial| | |code]; py_simpl.
  - destruct (write_file tmp body w1) as [w2 [e|[]]] eqn:Hw.
    { intros [= <- <-]. apply rtc_once. by dstep_by Hw. }
    intros Hr'. eapply rtc_l; [by dstep_by Hw|]. revert Hr'.
    destruct (String.eqb (sha256 body) (checksum m)).
    + unfold place. py_simpl.
      destruct (os_replace tmp (final_path m d) w2) as [w3 [e|[]]] eqn:Hr.
      * destruct (os_remove tmp w3) as [w4 [e'|[]]] eqn:Hrm; intros [= <- <-];
          (eapply rtc_l; [unfold dsolo; simpl; by rewrite Hr|]); apply rtc_once; by dstep_by Hrm.
      * intros [= <- <-]. apply rtc_once. unfold dsolo; simpl. by rewrite Hr.
    + destruct (os_remove tmp w2) as [w3 [e|[]]] eqn:Hrm; intros [= <- <-];
        apply rtc_once; by dstep_by Hrm.
  - destruct (write_file tmp partial w1) as [w2 [e|[]]] eqn:Hw.
    { intros [= <- <-]. apply rtc_once. by dstep_by Hw. }
    intros Hr'. eapply rtc_l; [by dstep_by Hw|]. revert Hr'.
    destruct (os_remove tmp w2) as [w3 [e|[]]] eqn:Hrm; intros [= <- <-]; apply rtc_once; by dstep_by Hrm.
  - destruct (os_remove tmp w1) as [w2 [e|[]]] eqn:Hrm; intros [= <- <-]; apply rtc_once; by dstep_by Hrm.
  - destruct (os_remove tmp w1) as [w2 [e|[]]] eqn:Hrm; intros [= <- <-]; apply rtc_once; by dstep_by Hrm.
  - destruct (os_remove tmp w1) as [w2 [e|[]]] eqn:Hrm; intros [= <- <-]; apply rtc_once; by dstep_by Hrm.
Qed.

Lemma attempts_steps n k w w' r :
  download_attempts n k m d w = (w', r) -> rtc dsolo (attempt n k, w) (DDone r, w').
Proof.
  revert k w. induction n as [|n IH]; intros k w; simpl; [intros [= <- <-]; apply rtc_refl|].
  unfold download_once, mkstemp. py_simpl.
  destruct (mkstemp_from TMP_MAX 0 m d w) as [w1 [e|tmp]] eqn:Hm;
    apply (mkstemp_steps n k) in Hm; [intros [= <- <-]; exact Hm|].
  destruct (transfer m d tmp w1) as [w2 [e|[]]] eqn:Ht; apply (transfer_steps n k) in Ht.
  - intros [= <- <-]. by eapply rtc_trans.
  - intros [= <- <-]. by eapply rtc_trans.
  - destruct n as [|n]; [intros [= <- <-]; by eapply rtc_trans|]. py_simpl. intros Hrec.
    eapply rtc_trans; [exact Hm|]. eapply rtc_trans; [exact Ht|].
    eapply rtc_l; [unfold dsolo; simpl; unfold dresume; reflexivity|]. by apply IH.
Qed.

Lemma fetch_remote_steps force w w' r :
  fetch_remote_impl m d force w = (w', r) -> rtc dsolo (DStart force, w) (DDone r, w').
Proof.
  unfold fetch_remote_impl. py_simpl.
  destruct (negb force && is_file w (final_path m d)) eqn:E.
  - intros [= <- <-]. apply rtc_once. unfold dsolo. simpl. by rewrite E.
  - intros Ha. eapply rtc_l; [unfold dsolo; simpl; by rewrite E|]. exact (attempts_steps _ _ _ _ _ Ha).
Qed.

(** The statements compute exactly [_fetch_remote]: run alone from its
    first statement, the downloader of [m] into [d] ends in world [w'] with
    result [r] exactly when [fetch_remote_impl m d force] returns [r] (or
    raises) in [w']. *)
Theorem dsolo_fetch_remote_equiv force w w' r :
  fetch_remote_impl m d force w = (w', r) <-> rtc dsolo (DStart force, w) (DDone r, w').
Proof.
  split; [apply fetch_remote_steps|]. intros Hr.
  destruct (fetch_remote_impl m d force w) as [w'' r''] eqn:E.
  apply fetch_remote_steps in E.
  by pose proof (rtc_fun_final (fun c => dstep c.1 c.2) _ _ _ Hr E eq_refl eq_refl) as [= -> ->].
Qed.
End Steps.
