(* ===== verification/Composed.v ===== *)
(** * The fetch functions with the modelled downloader

    [Fetcher] proves the fetch functions against the [DownloaderSpec]
    contract; here the loop of adk_equilibrium.py lines 99-109 (ifabp_water.py
    lines 106-116) runs with [_fetch_remote] of [Downloader], and the
    downloader's own behaviour is lifted to the call [fetch_<name>]: the
    network events of a whole call, a corrupt download, a read-only
    dataset directory. *)

From stdpp Require Import base gmap strings list.
From S2P Require Import Prelude Filesystem Utf8 Remote Bunch CacheLocator Fetcher Downloader.
Local Open Scope py_scope.

Section Composed.
Context `{Digest}.

(** ** Where the loop meets the downloader *)

(** Roles whose files exist are skipped: the loop only records them. *)
Lemma fetch_files_present_prefix `{Downloader} loc dim pre rest r w :
  Forall (fun it => path_exists w (join loc (filename it.2)) = true) pre ->
  fetch_files loc dim (pre ++ rest) r w = fetch_files loc dim rest (archive_records loc pre r) w.
Proof.
  revert r. induction pre as [|[ft m] pre IH]; intros r Hpre; [done|].
  apply Forall_cons in Hpre as [Hm Hpre]. simpl in *. unfold os_path_exists. py_simpl.
  rewrite Hm. by apply IH.
Qed.

(** The loop runs up to the first role whose file is missing. *)
Lemma fetch_files_first_missing `{Downloader} loc dim archive r w i ft m :
  list_find (fun it => path_exists w (join loc (filename it.2)) = false) archive = Some (i, (ft, m)) ->
  fetch_files loc dim archive r w =
    fetch_files loc dim ((ft, m) :: drop (S i) archive) (archive_records loc (take i archive) r) w.
Proof.
  intros (Hi & _ & Hbefore)%list_find_Some.
  rewrite <- (take_drop_middle archive i (ft, m)) at 1 by done.
  apply fetch_files_present_prefix, Forall_lookup. intros j it Hj.
  apply lookup_take_Some in Hj as [Hj Hlt]. apply not_false_is_true. by apply (Hbefore j it).
Qed.

(** A download of a missing role that raises makes the loop raise. *)
Lemma fetch_files_download_err `{Downloader} loc ft m rest r w w1 e :
  path_exists w (join loc (filename m)) = false ->
  fetch_remote m loc false (log_world w (download_message ft m (join loc (filename m)))) = (w1, inl e) ->
  fetch_files loc true ((ft, m) :: rest) r w = (w1, inl e).
Proof.
  intros Hp Hdl. simpl. unfold os_path_exists. py_simpl. rewrite Hp. simpl.
  unfold logger_info. py_simpl. by rewrite Hdl.
Qed.

(** With the dataset directory in place, an exception of the loop is the
    exception of the call. *)
Lemma fetch_dataset_files_err `{Downloader} name description archive dh dim w w1 e :
  path_exists w (dataset_location w dh name) = true ->
  fetch_files (dataset_location w dh name) dim archive bunch_empty w = (w1, inl e) ->
  fetch_dataset name description archive dh dim w = (w1, inl e).
Proof.
  intros Hloc Hff. rewrite fetch_dataset_unfold. unfold fetch_into.
  rewrite (pbind_run _ _ w w true) by (unfold os_path_exists; by rewrite Hloc).
  rewrite (pbind_run _ _ w w tt) by done.
  by apply pbind_run_err.
Qed.

(** [os.makedirs(loc)] changes no path outside the prefixes of [loc]. *)
Lemma os_makedirs_path_frame loc w w1 r p :
  os_makedirs loc w = (w1, r) -> p ∉ inits loc -> path_exists w1 p = path_exists w p.
Proof.
  intros Hmk Hp. pose proof (makedirs_rev_dirs (rev loc) w w1 r Hmk) as [Hsub Hsup].
  rewrite rev_involutive in Hsup.
  assert (Hf : w_files w1 = w_files w) by (by apply (os_makedirs_keeps w_files) in Hmk).
  assert (p ∉ (list_to_set (inits loc) : gset path)) by (by rewrite elem_of_list_to_set).
  unfold path_exists, is_dir, is_file. rewrite Hf. f_equal. apply bool_decide_ext. set_solver.
Qed.

(** Before the loop a call only reads and creates prefixes of the dataset
    directory; after it, it only reads. *)
Lemma fetch_into_files `{Downloader} loc description archive dim w w' r :
  fetch_into loc description archive dim w = (w', r) ->
  (w_trace w' = w_trace w /\ forall b, r <> inr b) \/
  exists w1 r1, w_trace w1 = w_trace w /\
    (forall p, p ∉ inits loc -> path_exists w1 p = path_exists w p) /\
    fetch_files loc dim archive bunch_empty w1 = (w', r1) /\
    (forall b, r = inr b -> exists recs, r1 = inr recs).
Proof.
  assert (Hfin : forall w1 w2 recs,
    (let* module_dir := module_path in
     let* text := codecs_read (join (join module_dir "descr") description) in
     pret (bunch_set "DESCR" (BText text) recs)) w1 = (w2, r) -> w2 = w1).
  { intros w1 w2 recs. unfold module_path. py_simpl.
    destruct (codecs_read _ w1) as [w3 []] eqn:Hc; apply codecs_read_pure in Hc as ->; congruence. }
  unfold fetch_into, os_path_exists. py_simpl. destruct (path_exists w loc).
  - destruct (fetch_files loc dim archive bunch_empty w) as [w2 [e|recs]] eqn:Hf;
      intros Hrun; right; exists w; [injection Hrun as <- <-|apply Hfin in Hrun as ->]; eauto 10.
  - destruct (os_makedirs loc w) as [w1 [e|[]]] eqn:Hmk.
    { intros [= <- <-]. left. split; [by apply (os_makedirs_keeps w_trace) in Hmk|done]. }
    assert (Ht : w_trace w1 = w_trace w) by (by apply (os_makedirs_keeps w_trace) in Hmk).
    assert (Hp : forall p, p ∉ inits loc -> path_exists w1 p = path_exists w p)
      by (intros p; exact (os_makedirs_path_frame _ _ _ _ p Hmk)).
    destruct (fetch_files loc dim archive bunch_empty w1) as [w2 [e|recs]] eqn:Hf;
      intros Hrun; right; exists w1; [injection Hrun as <- <-|apply Hfin in Hrun as ->]; eauto 10.
Qed.

(** ** The network events of a whole call *)

(** The events of one role, given the cache [w] the call started on: none
    when its file was there; otherwise the [logger.info] record and then a
    prefix of the retry schedule of its URL. *)
Definition role_events (loc : path) (w : World) (it : string * RemoteFileMetadata) (evs : list event) : Prop :=
  if path_exists w (join loc (filename it.2)) then evs = []
  else exists rest, evs = Log (download_message it.1 it.2 (join loc (filename it.2))) :: rest /\
    rest `prefix_of` retry_schedule (url it.2) (S MAX_RETRIES) 0.

(** One block of events per role, in [ARCHIVE] order. *)
Definition schedule_blocks (loc : path) (w : World) (archive : Archive) (blocks : list (list event)) : Prop :=
  Forall2 (role_events loc w) (take (length blocks) archive) blocks.

Lemma schedule_blocks_cons loc w it archive b blocks :
  role_events loc w it b -> schedule_blocks loc w archive blocks ->
  schedule_blocks loc w (it :: archive) (b :: blocks).
Proof. intros Hb Hbs. unfold schedule_blocks. simpl. by constructor. Qed.

Lemma role_events_length loc w it evs : role_events loc w it evs -> length evs <= 2 * MAX_RETRIES + 2.
Proof.
  unfold role_events, MAX_RETRIES. destruct (path_exists _ _); [intros ->; simpl; lia|].
  intros (rest & -> & Hp). apply prefix_length in Hp. simpl in *. lia.
Qed.

Lemma schedule_blocks_length loc w archive blocks :
  schedule_blocks loc w archive blocks ->
  length (concat blocks) <= (2 * MAX_RETRIES + 2) * length archive.
Proof.
  unfold schedule_blocks. intros Hf.
  transitivity ((2 * MAX_RETRIES + 2) * length (take (length blocks) archive));
    [|apply Nat.mul_le_mono_l; rewrite length_take; lia].
  revert Hf. generalize (take (length blocks) archive). intros l Hf.
  induction Hf as [|it b l' blocks' Hp _ IH]; simpl; [lia|].
  apply role_events_length in Hp. rewrite length_app. unfold MAX_RETRIES in *. lia.
Qed.

(** A download of [m] changes no path but its final path. *)
Lemma fetch_remote_impl_path_frame m loc w w' r q :
  fetch_remote_impl m loc false w = (w', r) -> q <> final_path m loc -> path_exists w' q = path_exists w q.
Proof.
  intros [[_ Hd _ _] Hf]%fetch_remote_impl_frame Hq.
  unfold path_exists, is_dir, is_file. by rewrite Hd, Hf.
Qed.

(** The roles of an archive with distinct file names have distinct paths. *)
Lemma join_filename_ne loc m m' :
  filename m' <> filename m -> join loc (filename m') <> final_path m loc.
Proof. intros Hne Heq. unfold final_path, join in Heq. by apply app_inj_tail in Heq as [_ ?]. Qed.

Lemma fetch_files_trace loc dim items r w0 w w' res :
  NoDup ((fun it => filename it.2) <$> items) ->
  (forall it, it ∈ items -> path_exists w (join loc (filename it.2)) = path_exists w0 (join loc (filename it.2))) ->
  fetch_files (D := downloader_impl) loc dim items r w = (w', res) ->
  exists blocks, w_trace w' = w_trace w ++ concat blocks /\ schedule_blocks loc w0 items blocks /\
    (forall recs, res = inr recs -> length blocks = length items).
Proof.
  revert r w. induction items as [|[ft m] items IH]; intros r w Hnd Hsame; simpl.
  { intros [= <- <-]. exists []. rewrite app_nil_r. split_and!; [done|constructor|done]. }
  apply NoDup_cons in Hnd as [Hnin Hnd].
  assert (Hm := Hsame (ft, m) ltac:(by left)). cbn [snd] in Hm.
  assert (Hrest : forall it, it ∈ items -> path_exists w (join loc (filename it.2)) =
                                         path_exists w0 (join loc (filename it.2)))
    by (intros it Hit; apply Hsame; by right).
  assert (Hfn : forall it, it ∈ items -> filename it.2 <> filename m).
  { intros it Hit Heq. apply Hnin. apply list_elem_of_fmap. by exists it. }
  unfold os_path_exists. py_simpl. destruct (path_exists w _) eqn:E.
  { intros (blocks & Ht & Hb & Hl)%IH; [|done|done]. exists ([] :: blocks).
    split_and!; [done|apply schedule_blocks_cons; [unfold role_events; cbn [snd]; by rewrite <- Hm|done]|].
    intros recs Hr. simpl. by rewrite (Hl recs Hr). }
  destruct dim; simpl.
  2: { intros [= <- <-]. exists []. rewrite app_nil_r. split_and!; [done|constructor|done]. }
  unfold logger_info, fetch_remote, downloader_impl. py_simpl.
  set (msg := download_message ft m (join loc (filename m))).
  assert (Hrole : forall evs, evs `prefix_of` retry_schedule (url m) (S MAX_RETRIES) 0 ->
                    role_events loc w0 (ft, m) (Log msg :: evs)).
  { intros evs Hp. unfold role_events. cbn [snd]. rewrite <- Hm. by eexists. }
  destruct (fetch_remote_impl m loc false (log_world w msg)) as [w1 [e|q]] eqn:Hdl;
    pose proof Hdl as Hfr; apply fetch_remote_impl_schedule in Hdl as (evs & Ht1 & Hp & _); simpl in Ht1.
  - intros [= <- <-]. exists [Log msg :: evs]. simpl. rewrite app_nil_r.
    split_and!; [by rewrite Ht1, <- app_assoc|apply schedule_blocks_cons; [auto|constructor]|done].
  - intros (blocks & Ht & Hb & Hl)%IH; [|done|].
    + exists ((Log msg :: evs) :: blocks). simpl.
      split_and!; [by rewrite Ht, Ht1, <- !app_assoc|apply schedule_blocks_cons; auto|].
      intros recs Hr. by rewrite (Hl recs Hr).
    + intros it Hit. rewrite (fetch_remote_impl_path_frame _ _ _ _ _ _ Hfr); [by apply Hrest|].
      by apply join_filename_ne, Hfn.
Qed.

(** C9: bounded retries with back-off, for a whole call.  For an archive
    whose file names are distinct (both [ARCHIVE]s), the events of
    [fetch_<name>] are one block per role of [ARCHIVE], in order, up to the
    role that raised (all of them when the call returns): empty for a role
    whose file was in the cache when the call started, otherwise the
    [logger.info] record of the download followed by a prefix of
    [request; sleep 1; request; sleep 2; request; sleep 4; request] for
    that role's URL.  So a cached file is never requested, a missing one at
    most [1 + MAX_RETRIES] times, each retry after a doubling sleep, the log
    record comes before the first request, and a call has at most
    [(2 MAX_RETRIES + 2) |ARCHIVE|] events. *)
Theorem fetch_dataset_schedule name description archive dh dim w w' r :
  NoDup ((fun it => filename it.2) <$> archive) ->
  fetch_dataset (D := downloader_impl) name description archive dh dim w = (w', r) ->
  exists blocks, w_trace w' = w_trace w ++ concat blocks /\
    schedule_blocks (dataset_location w dh name) w archive blocks /\
    (forall b, r = inr b -> length blocks = length archive) /\
    length (concat blocks) <= (2 * MAX_RETRIES + 2) * length archive.
Proof.
  intros Hnd. rewrite fetch_dataset_unfold.
  intros [[Ht Hr]|(w1 & r1 & Ht & Hp & Hff & Hr)]%fetch_into_files.
  - exists []. rewrite Ht, app_nil_r. split_and!; [done|constructor|intros b ->; by destruct (Hr b)|simpl; lia].
  - apply fetch_files_trace with (w0 := w) in Hff as (blocks & Ht' & Hb & Hl); [|done|].
    + exists blocks. split_and!; [by rewrite Ht', Ht|done| |by eapply schedule_blocks_length].
      intros b Hrb. destruct (Hr b Hrb) as [recs ->]. by apply (Hl recs).
    + intros it _. apply Hp. intros Hin%inits_length. unfold join in Hin. rewrite length_app in Hin. simpl in Hin. lia.
Qed.

(** ** A failing download fails the call *)

Lemma dir_path_exists w d : d ∈ w_dirs w -> path_exists w d = true.
Proof. intros Hd. unfold path_exists, is_dir. by rewrite bool_decide_true. Qed.

Lemma missing_not_file w p : path_exists w p = false -> is_file w p = false.
Proof. unfold path_exists. by intros [_ ->]%orb_false_elim. Qed.

(** The first missing role's download decides the call when it raises. *)
Lemma fetch_dataset_first_download_err name description archive dh w i ft m w1 e :
  let loc := dataset_location w dh name in
  loc ∈ w_dirs w ->
  list_find (fun it => path_exists w (join loc (filename it.2)) = false) archive = Some (i, (ft, m)) ->
  fetch_remote_impl m loc false (log_world w (download_message ft m (join loc (filename m)))) = (w1, inl e) ->
  fetch_dataset (D := downloader_impl) name description archive dh true w = (w1, inl e).
Proof.
  intros loc Hd Hfind Hdl. apply fetch_dataset_files_err; [by apply dir_path_exists|].
  rewrite (fetch_files_first_missing _ _ _ _ _ _ _ _ Hfind).
  apply list_find_Some in Hfind as (_ & Hm & _).
  by apply fetch_files_download_err.
Qed.

(** C6: a corrupt download fails the call.  When the first role (in
    [ARCHIVE] order) whose file is missing is served content whose digest
    is not its checksum, [fetch_<name>()] logs the download, raises
    [IntegrityError(local_path, expected, actual)] after one request for it,
    and the files are exactly as before the call: the temporary file is
    removed and nothing appears at the final path. *)
Theorem fetch_dataset_integrity name description archive dh w i ft m body rest :
  let loc := dataset_location w dh name in
  loc ∈ w_dirs w -> loc ∉ w_readonly w ->
  list_find (fun it => path_exists w (join loc (filename it.2)) = false) archive = Some (i, (ft, m)) ->
  path_exists w (temp_candidate m loc 0) = false ->
  w_remote w !! url m = Some (Served body :: rest) -> sha256 body <> checksum m ->
  exists w', fetch_dataset (D := downloader_impl) name description archive dh true w =
               (w', inl (IntegrityError (join loc (filename m)) (checksum m) (sha256 body))) /\
             w_files w' = w_files w /\
             w_trace w' = w_trace w ++ [Log (download_message ft m (join loc (filename m)));
                                        Request (url m)].
Proof.
  intros loc Hd Hro Hfind Htmp Hrem Hbad.
  pose proof Hfind as (_ & Hm & _)%list_find_Some.
  set (msg := download_message ft m (join loc (filename m))).
  destruct (fetch_remote_impl_integrity m loc false (log_world w msg) body rest) as (w' & Hdl & Hf & Ht);
    [done|done|done|right; by apply missing_not_file|done|done|].
  exists w'. split_and!; [|done|by rewrite Ht; simpl; rewrite <- app_assoc].
  by apply (fetch_dataset_first_download_err _ _ _ _ _ i ft m); [done|done|exact Hdl].
Qed.

(** C10: a read-only dataset directory is fatal.  When the dataset
    directory is read-only and a role's file is missing, [fetch_<name>()]
    logs the download of the first missing role and raises
    [PermissionError] for its temporary file, without a network request and
    without changing anything else. *)
Theorem fetch_dataset_permission name description archive dh w i ft m :
  let loc := dataset_location w dh name in
  loc ∈ w_dirs w -> loc ∈ w_readonly w ->
  list_find (fun it => path_exists w (join loc (filename it.2)) = false) archive = Some (i, (ft, m)) ->
  path_exists w (temp_candidate m loc 0) = false ->
  fetch_dataset (D := downloader_impl) name description archive dh true w =
    (log_world w (download_message ft m (join loc (filename m))),
     inl (PermissionError (temp_candidate m loc 0))).
Proof.
  intros loc Hd Hro Hfind Htmp.
  pose proof Hfind as (_ & Hm & _)%list_find_Some.
  apply (fetch_dataset_first_download_err _ _ _ _ _ i ft m); [done|done|].
  apply fetch_remote_impl_permission; [done|done|done|right; by apply missing_not_file].
Qed.

(** ** Enough retries give the dataset *)

(** The host serves [m] correctly after at most [MAX_RETRIES] transient
    failures. *)
Definition serves_eventually (w : World) (m : RemoteFileMetadata) : Prop :=
  exists rs body rest, Forall (fun r => transient r = true) rs /\ length rs <= MAX_RETRIES /\
    w_remote w !! url m = Some (rs ++ Served body :: rest) /\ sha256 body = checksum m.

(** Every missing file of [items] can be downloaded into [loc]. *)
Definition ready (loc : path) (items : Archive) (w : World) : Prop :=
  forall ft m, (ft, m) ∈ items -> path_exists w (join loc (filename m)) = false ->
    path_exists w (temp_candidate m loc 0) = false /\ serves_eventually w m.

(** No role's temporary file is another role's final file. *)
Definition temps_apart (loc : path) (items : Archive) : Prop :=
  forall it1 it2, it1 ∈ items -> it2 ∈ items -> temp_candidate it1.2 loc 0 <> final_path it2.2 loc.

(** Files never disappear. *)
Definition files_grow : relation World := fun w w' =>
  forall p, is_Some (w_files w !! p) -> is_Some (w_files w' !! p).

#[export] Instance files_grow_preorder : PreOrder files_grow.
Proof. split; [intros ??; done|intros ??? H1 H2 ??; auto]. Qed.

Lemma fetch_remote_impl_files_grow m d force : preserves files_grow (fetch_remote_impl m d force).
Proof.
  intros w w' r Hr p Hp. pose proof (fetch_remote_impl_frame _ _ _ _ _ _ Hr) as Hf.
  destruct (decide (p = final_path m d)) as [->|Hne]; [|by rewrite (dl_files _ _ _ _ Hf)].
  destruct r as [e|q].
  - by rewrite (fetch_remote_err (D := downloader_impl) _ _ _ _ _ _ Hr).
  - by destruct (fetch_remote_ok (D := downloader_impl) _ _ _ _ _ _ Hr) as [<- (b & -> & _)].
Qed.

(** One successful download keeps the rest of the loop ready. *)
Lemma ready_after_download loc ft m items w w1 body :
  NoDup (url <$> ((ft, m) :: items).*2) -> temps_apart loc ((ft, m) :: items) ->
  ready loc ((ft, m) :: items) w -> dl_frame m loc w w1 ->
  w_files w1 = <[final_path m loc := body]> (w_files w) ->
  ready loc items w1.
Proof.
  intros Hnd Hap Hrd [[_ Hdirs Hrem _] _] Hf ft' m' Hin Hmiss.
  assert (Hext : forall q, q <> final_path m loc -> path_exists w1 q = path_exists w q).
  { intros q Hq. unfold path_exists, is_dir, is_file. by rewrite Hdirs, Hf, lookup_insert_ne. }
  assert (Hfin : join loc (filename m') <> final_path m loc).
  { intros Heq. rewrite Heq in Hmiss. unfold path_exists, is_file in Hmiss.
    rewrite Hf, lookup_insert_eq in Hmiss. by rewrite orb_true_r in Hmiss. }
  destruct (Hrd ft' m') as (Htmp & rs & b & rest & Hrs); [by right|by rewrite <- Hext|].
  split; [rewrite Hext; [done|by apply (Hap (ft', m') (ft, m)); [right|left]]|].
  exists rs, b, rest. rewrite Hrem; [done|].
  simpl in Hnd. apply NoDup_cons in Hnd as [Hu _]. intros Heq. apply Hu.
  rewrite <- Heq. apply list_elem_of_fmap. exists m'. split; [done|].
  apply list_elem_of_fmap. by exists (ft', m').
Qed.

Lemma fetch_files_downloads_succeed loc items r w :
  loc ∈ w_dirs w -> loc ∉ w_readonly w ->
  NoDup (url <$> items.*2) -> temps_apart loc items -> ready loc items w ->
  exists w' r', fetch_files (D := downloader_impl) loc true items r w = (w', inr r').
Proof.
  revert r w. induction items as [|[ft m] items IH]; intros r w Hd Hro Hnd Hap Hrd; simpl; [eauto|].
  assert (Hnd' : NoDup (url <$> items.*2)) by (simpl in Hnd; by apply NoDup_cons in Hnd as [_ ?]).
  assert (Hap' : temps_apart loc items) by (intros ????; apply Hap; by right).
  unfold os_path_exists. py_simpl. destruct (path_exists w _) eqn:Hp.
  { apply (IH _ w); [done|done|done|done|]. intros ft' m' Hin. apply (Hrd ft' m'). by right. }
  simpl. unfold logger_info, fetch_remote, downloader_impl. py_simpl.
  set (wl := log_world w (download_message ft m (join loc (filename m)))).
  destruct (Hrd ft m) as (Htmp & rs & body & rest & Htr & Hlen & Hrem & Hok); [by left|done|].
  destruct (fetch_remote_impl_retries_succeed m loc wl rs body rest) as (w1 & Hdl & Hf & _);
    [done|done|done|done|done|].
  rewrite Hdl. simpl. pose proof (fetch_remote_impl_frame _ _ _ _ _ _ Hdl) as Hfr.
  pose proof Hfr as [[Hcfg Hdirs _ _] _].
  apply IH.
  - by rewrite Hdirs.
  - unfold config in Hcfg. injection Hcfg as Hro1 _ _ _. by rewrite Hro1.
  - done.
  - done.
  - by apply (ready_after_download loc ft m items wl w1 body).
Qed.

(** C11: enough retries give the dataset.  When the dataset directory is
    in place and writable, the description file is installed, the roles
    have distinct URLs and no temporary name collides with a final one,
    and the host serves every missing file correctly after at most
    [MAX_RETRIES] transient failures, [fetch_<name>()] returns, and every
    file of [ARCHIVE] is then present. *)
Theorem fetch_dataset_downloads_succeed name description archive dh w :
  let loc := dataset_location w dh name in
  loc ∈ w_dirs w -> loc ∉ w_readonly w -> is_Some (read_text w (descr_path w description)) ->
  Forall (fun it => join loc (filename it.2) <> descr_path w description) archive ->
  NoDup (url <$> archive.*2) -> temps_apart loc archive -> ready loc archive w ->
  exists w' b, fetch_dataset (D := downloader_impl) name description archive dh true w = (w', inr b) /\
    all_present w' loc archive.
Proof.
  intros loc Hd Hro [text Htext] Hapart Hnd Hap Hrd.
  destruct (fetch_files_downloads_succeed loc archive bunch_empty w) as (w' & recs & Hff); [done..|].
  assert (Hkeep : unchanged (fun x => w_files x !! descr_path w description) w w').
  { eapply fetch_files_keeps_file; [|exact Hff]. intros ft m Hin Heq.
    rewrite Forall_forall in Hapart. apply (Hapart (ft, m) Hin). by rewrite Heq. }
  assert (Hc : unchanged config w w').
  { eapply (fetch_files_preserves (unchanged config)); [log_frame| |exact Hff].
    intros. apply fetch_remote_config. }
  assert (Hrun : fetch_dataset (D := downloader_impl) name description archive dh true w =
                   (w', inr (bunch_set "DESCR" (BText text) recs))).
  { rewrite fetch_dataset_unfold. unfold fetch_into.
    rewrite (pbind_run _ _ w w true) by (unfold os_path_exists; by rewrite dir_path_exists).
    rewrite (pbind_run _ _ w w tt) by done. rewrite (pbind_run _ _ w w' recs) by done.
    rewrite (pbind_run _ _ w' w' (w_pkg_dir w')) by done.
    rewrite (pbind_run _ _ w' w' text); [done|]. apply codecs_read_text.
    unfold read_text, unchanged in *. cbv beta in Hkeep. unfold descr_path in Htext, Hkeep.
    by rewrite (config_pkg_dir w w' Hc), Hkeep. }
  exists w', (bunch_set "DESCR" (BText text) recs). split; [done|].
  rewrite fetch_dataset_unfold in Hrun. by apply fetch_into_ok in Hrun as (_ & ? & _).
Qed.
End Composed.
