(* ===== verification/Datasets.v ===== *)
(** * The dataset modules

    [adk_equilibrium.py] and [ifabp_water.py]: their constants [NAME],
    [DESCRIPTION] and [ARCHIVE] (in the dict's insertion order) and their
    functions, which are [fetch_dataset] of these constants with the
    downloader of [Downloader].  The concrete worlds here are the inputs of
    the witnesses of the general theorems: a fresh home, the cache after a
    download, a corrupted or truncated file, downloads disabled, a flaky or
    read-only host. *)

From stdpp Require Import base gmap strings list.
From Stdlib Require Import Strings.Byte.
From S2P Require Import Prelude Filesystem Utf8 Remote Bunch CacheLocator Fetcher Downloader Composed.
#[local] Open Scope py_scope.

Module AdkEquilibrium.
Definition NAME : string := "adk_equilibrium".
Definition DESCRIPTION : string := "adk_equilibrium.rst".

Definition ARCHIVE : Archive := [
  ("topology",
    {| filename := "adk4AKE.psf";
       url := "https://ndownloader.figshare.com/files/8672230";
       checksum := "1aa947d58fb41b6805dc1e7be4dbe65c6a8f4690f0bd7fc2ae03e7bd437085f4" |});
  ("trajectory",
    {| filename := "1ake_007-nowater-core-dt240ps.dcd";
       url := "https://ndownloader.figshare.com/files/8672074";
       checksum := "598fcbcfcc425f6eafbe9997238320fcacc6a4613ecce061e1521732bab734bf" |})
].

(** [fetch_adk_equilibrium(data_home=None, download_if_missing=True)] *)
Definition fetch_adk_equilibrium `{Digest} (data_home : option path)
    (download_if_missing : bool) : M Bunch :=
  fetch_dataset NAME DESCRIPTION ARCHIVE data_home download_if_missing.
End AdkEquilibrium.

Module IfabpWater.
Definition NAME : string := "ifabp_water".
Definition DESCRIPTION : string := "ifabp_water.rst".

Definition ARCHIVE : Archive := [
  ("topology",
    {| filename := "ifabp_water.psf";
       url := "https://ndownloader.figshare.com/files/12980639";
       checksum := "ba40714318aabec537015dc550fe5bd5ac1ac0b853f5abdd2f0ae63af9cfcafa" |});
  ("structure",
    {| filename := "ifabp_water_0.pdb";
       url := "https://ndownloader.figshare.com/files/12980636";
       checksum := "8ccf5f75fd85385921c0cb77f00281a93b933fc1261c42fc9492f43983448a72" |});
  ("trajectory",
    {| filename := "rmsfit_ifabp_water_1.dcd";
       url := "https://ndownloader.figshare.com/files/12980642";
       checksum := "cebb48e58015abc8ff2f5bb7ba3eb7a289047f256351a8252bf1f29f9aaacf0e" |})
].

(** [fetch_ifabp_water(data_home=None, download_if_missing=True)]: the
    same body, ending in [return records] (line 123). *)
Definition fetch_ifabp_water `{Digest} (data_home : option path)
    (download_if_missing : bool) : M Bunch :=
  fetch_dataset NAME DESCRIPTION ARCHIVE data_home download_if_missing.
End IfabpWater.

(** ** Concrete worlds *)

(** Discharge a decidable hypothesis on concrete data by computation. *)
Ltac decide_concrete := apply (bool_decide_unpack _); vm_compute; exact I.

(** Close an equation between closed terms by evaluation; the kernel
    re-checks the cast with its virtual machine, without the normal forms
    (deep tries of path keys) ever being built as terms. *)
Ltac vm_eq := match goal with |- ?a = ?b => vm_cast_no_check (@eq_refl _ b) end.

Section Concrete.
(** A stand-in digest for runs: the hex digest is the content read as
    text, so a host that serves [list_byte_of_string checksum] serves a file
    of the right digest. *)
#[local] Instance text_digest : Digest := fun b => String.string_of_list_byte b.

Definition home : path := ["home"; "user"].
Definition pkg : path := ["site-packages"; "MDAnalysisData"].
Definition cache_root : path := join home default_data_folder.
Definition adk_loc : path := join cache_root AdkEquilibrium.NAME.
Definition ifabp_loc : path := join cache_root IfabpWater.NAME.

(** The code points of an ASCII string. *)
Definition ascii_text (s : string) : text := byte_val <$> String.list_byte_of_string s.

(** The descriptions, with a non-ASCII character each, and the files that
    hold their UTF-8 encoding. *)
Definition adk_text : text := ascii_text "AdK equilibrium, 1.004 " ++ [0xB5%Z] ++ ascii_text "s".
Definition ifabp_text : text := ascii_text "I-FABP in water, 500 ps, 2 fs " ++ [0x2192%Z] ++ ascii_text " 1 ps".
Definition adk_rst : bytes := utf8_encode adk_text.
Definition ifabp_rst : bytes := utf8_encode ifabp_text.

Definition good (m : RemoteFileMetadata) : bytes := String.list_byte_of_string (checksum m).

(** A user with an empty home, the package installed with its
    descriptions, and a host that serves every file correctly once. *)
Definition fresh_world : World := {|
  w_dirs := {[ []; ["home"]; home; ["site-packages"]; pkg; pkg ++ ["descr"] ]};
  w_files := <[ pkg ++ ["descr"; AdkEquilibrium.DESCRIPTION] := adk_rst ]>
             (<[ pkg ++ ["descr"; IfabpWater.DESCRIPTION] := ifabp_rst ]> ∅);
  w_readonly := ∅;
  w_remote := list_to_map ((fun it => (url it.2, [Served (good it.2)])) <$>
                             AdkEquilibrium.ARCHIVE ++ IfabpWater.ARCHIVE);
  w_trace := [];
  w_env_data_home := None;
  w_home := home;
  w_pkg_dir := pkg
|}.

Definition adk_topology : RemoteFileMetadata :=
  default {| filename := ""; url := ""; checksum := "" |} (snd <$> head AdkEquilibrium.ARCHIVE).
Definition adk_trajectory : RemoteFileMetadata :=
  default {| filename := ""; url := ""; checksum := "" |} (snd <$> last AdkEquilibrium.ARCHIVE).

(** The world after the download, evaluated once to its normal form. *)
Definition adk_world : World :=
  Eval vm_compute in (AdkEquilibrium.fetch_adk_equilibrium None true fresh_world).1.

Definition adk_bundle : Bunch :=
  {[ "topology" := BPath (join adk_loc (filename adk_topology));
     "trajectory" := BPath (join adk_loc (filename adk_trajectory));
     "DESCR" := BText adk_text ]}.

Lemma adk_run_eq :
  AdkEquilibrium.fetch_adk_equilibrium None true fresh_world = (adk_world, inr adk_bundle).
Proof. vm_eq. Qed.

(** *** Witnesses of the fetcher's theorems *)

Lemma fetch_dataset_ok_witness :
  path_exists adk_world adk_loc = true /\ all_present adk_world adk_loc AdkEquilibrium.ARCHIVE /\
  exists text, read_text adk_world (descr_path fresh_world AdkEquilibrium.DESCRIPTION) = Some text /\
    adk_bundle = bunch_set "DESCR" (BText text) (archive_records adk_loc AdkEquilibrium.ARCHIVE bunch_empty).
Proof.
  refine (fetch_dataset_ok AdkEquilibrium.NAME AdkEquilibrium.DESCRIPTION AdkEquilibrium.ARCHIVE
            None true fresh_world adk_world adk_bundle _).
  exact adk_run_eq.
Defined.

Lemma fetch_dataset_idempotent_witness :
  AdkEquilibrium.fetch_adk_equilibrium None true adk_world = (adk_world, inr adk_bundle).
Proof.
  refine (fetch_dataset_idempotent AdkEquilibrium.NAME AdkEquilibrium.DESCRIPTION
            AdkEquilibrium.ARCHIVE None true fresh_world adk_world adk_bundle _).
  exact adk_run_eq.
Defined.

(** The cache after a download, with the topology file truncated. *)
Definition truncated : bytes := String.list_byte_of_string "1aa947".
Definition corrupt_world : World :=
  with_files (<[join adk_loc (filename adk_topology) := truncated]> (w_files adk_world)) adk_world.


(** The cache after a download, with the description file cut inside its
    last non-ASCII character, as a partial write would leave it. *)
Definition cut_rst : bytes := utf8_encode (ascii_text "AdK equilibrium, 1.004 ") ++ [xc2].
Definition cut_world : World :=
  with_files (<[descr_path adk_world AdkEquilibrium.DESCRIPTION := cut_rst]> (w_files adk_world)) adk_world.

Lemma fetch_dataset_description_witness :
  AdkEquilibrium.fetch_adk_equilibrium None true cut_world =
    (cut_world, inr (bunch_set "DESCR" (BText (ascii_text "AdK equilibrium, 1.004 "))
                       (archive_records adk_loc AdkEquilibrium.ARCHIVE bunch_empty))).
Proof.
  refine (eq_trans (fetch_dataset_description AdkEquilibrium.NAME AdkEquilibrium.DESCRIPTION
            AdkEquilibrium.ARCHIVE None true cut_world cut_rst _ _ _) _).
  - vm_eq.
  - apply all_presentb_spec. vm_eq.
  - vm_eq.
  - vm_eq.
Defined.

Definition ifabp_off :=
  fetch_dataset IfabpWater.NAME IfabpWater.DESCRIPTION IfabpWater.ARCHIVE None false fresh_world.

Lemma fetch_dataset_disabled_frame_witness :
  ifabp_off.2 = inl (IOError "topology" (join ifabp_loc "ifabp_water.psf")) /\
  w_files ifabp_off.1 = w_files fresh_world /\ net ifabp_off.1 = net fresh_world.
Proof.
  split; [vm_eq|].
  apply (fetch_dataset_disabled_frame IfabpWater.NAME IfabpWater.DESCRIPTION IfabpWater.ARCHIVE
           None fresh_world ifabp_off.1 ifabp_off.2).
  apply surjective_pairing.
Defined.

(** The cache after a download, with the trajectory file removed. *)
Definition partial_world : World :=
  with_files (delete (join adk_loc (filename adk_trajectory)) (w_files adk_world)) adk_world.

Lemma fetch_dataset_disabled_missing_witness :
  AdkEquilibrium.fetch_adk_equilibrium None false partial_world =
    (partial_world, inl (IOError "trajectory" (join adk_loc (filename adk_trajectory)))).
Proof.
  apply (fetch_dataset_disabled_missing AdkEquilibrium.NAME AdkEquilibrium.DESCRIPTION
           AdkEquilibrium.ARCHIVE None partial_world 1 "trajectory" adk_trajectory).
  - vm_eq.
  - vm_eq.
Defined.

Lemma fetch_dataset_dirs_witness :
  dirs_within (list_to_set (inits adk_loc)) fresh_world adk_world.
Proof.
  apply (fetch_dataset_dirs AdkEquilibrium.NAME AdkEquilibrium.DESCRIPTION
           AdkEquilibrium.ARCHIVE None true fresh_world adk_world (inr adk_bundle)).
  exact adk_run_eq.
Defined.


Lemma fetch_dataset_paths_verified_witness :
  exists c, bunch_getattr adk_bundle "topology" = inr (BPath (join adk_loc (filename adk_topology))) /\
    read_file (join adk_loc (filename adk_topology)) adk_world = (adk_world, inr c) /\
    sha256 c = checksum adk_topology.
Proof.
  refine (fetch_dataset_paths_verified AdkEquilibrium.NAME AdkEquilibrium.DESCRIPTION
            AdkEquilibrium.ARCHIVE None true fresh_world adk_world adk_bundle
            _ _ _ _ _ _ "topology" adk_topology _).
  - decide_concrete.
  - decide_concrete.
  - apply archive_consistent_of_nodup. decide_concrete.
  - apply cache_okb_spec. vm_eq.
  - intros ft m Hin.
    repeat (apply elem_of_cons in Hin as [Hin|Hin]; [injection Hin as -> ->; vm_eq|]).
    by apply elem_of_nil in Hin.
  - exact adk_run_eq.
  - decide_concrete.
Defined.

(** *** Witnesses of the downloader's and [os.makedirs]'s theorems *)

(** The dataset directory exists; the host answers [answers] for the
    topology's URL; [ro] are the read-only directories. *)
Definition dl_world (answers : list response) (ro : gset path) : World := {|
  w_dirs := w_dirs fresh_world ∪ {[cache_root; adk_loc]};
  w_files := w_files fresh_world;
  w_readonly := ro;
  w_remote := {[url adk_topology := answers]};
  w_trace := [];
  w_env_data_home := None;
  w_home := home;
  w_pkg_dir := pkg
|}.

Definition flaky : list response :=
  [TimedOut; ConnectionReset; Interrupted (String.list_byte_of_string "1aa"); HttpStatus 503].
Definition flaky_run := AdkEquilibrium.fetch_adk_equilibrium None true (dl_world flaky ∅).

Lemma fetch_dataset_schedule_witness :
  exists blocks, w_trace flaky_run.1 = w_trace (dl_world flaky ∅) ++ concat blocks /\
    schedule_blocks adk_loc (dl_world flaky ∅) AdkEquilibrium.ARCHIVE blocks /\
    (forall b, flaky_run.2 = inr b -> length blocks = length AdkEquilibrium.ARCHIVE) /\
    length (concat blocks) <= (2 * MAX_RETRIES + 2) * length AdkEquilibrium.ARCHIVE.
Proof.
  apply (fetch_dataset_schedule AdkEquilibrium.NAME AdkEquilibrium.DESCRIPTION
           AdkEquilibrium.ARCHIVE None true (dl_world flaky ∅) flaky_run.1 flaky_run.2).
  - decide_concrete.
  - apply surjective_pairing.
Defined.

Definition bad_world := dl_world [Served truncated; Served (good adk_topology)] ∅.

Lemma fetch_dataset_integrity_witness :
  exists w', AdkEquilibrium.fetch_adk_equilibrium None true bad_world =
               (w', inl (IntegrityError (join adk_loc (filename adk_topology))
                           (checksum adk_topology) (sha256 truncated))) /\
             w_files w' = w_files bad_world /\
             w_trace w' = w_trace bad_world ++
               [Log (download_message "topology" adk_topology (join adk_loc (filename adk_topology)));
                Request (url adk_topology)].
Proof.
  apply (fetch_dataset_integrity AdkEquilibrium.NAME AdkEquilibrium.DESCRIPTION
           AdkEquilibrium.ARCHIVE None bad_world 0 "topology" adk_topology truncated
           [Served (good adk_topology)]).
  - decide_concrete.
  - decide_concrete.
  - vm_eq.
  - vm_eq.
  - vm_eq.
  - vm_compute. discriminate.
Defined.

Definition locked_world := dl_world [Served (good adk_topology)] {[adk_loc]}.

Lemma fetch_dataset_permission_witness :
  AdkEquilibrium.fetch_adk_equilibrium None true locked_world =
    (log_world locked_world
       (download_message "topology" adk_topology (join adk_loc (filename adk_topology))),
     inl (PermissionError (temp_candidate adk_topology adk_loc 0))).
Proof.
  apply (fetch_dataset_permission AdkEquilibrium.NAME AdkEquilibrium.DESCRIPTION
           AdkEquilibrium.ARCHIVE None locked_world 0 "topology" adk_topology).
  - decide_concrete.
  - decide_concrete.
  - vm_eq.
  - vm_eq.
Defined.

Definition recovering : list response :=
  [Interrupted (String.list_byte_of_string "1aa9"); HttpStatus 503].
Definition recovering_world := dl_world (recovering ++ [Served (good adk_topology)]) ∅.

(** Both files of [adk_equilibrium] missing; the host answers the topology
    after two transient failures and the trajectory after one. *)
Definition retry_world : World :=
  with_net (<[url adk_trajectory := [TimedOut; Served (good adk_trajectory)]]>
              (w_remote recovering_world)) [] recovering_world.

Lemma fetch_dataset_downloads_succeed_witness :
  exists w' b, AdkEquilibrium.fetch_adk_equilibrium None true retry_world = (w', inr b) /\
    all_present w' adk_loc AdkEquilibrium.ARCHIVE.
Proof.
  apply (fetch_dataset_downloads_succeed AdkEquilibrium.NAME AdkEquilibrium.DESCRIPTION
           AdkEquilibrium.ARCHIVE None retry_world).
  - decide_concrete.
  - decide_concrete.
  - decide_concrete.
  - decide_concrete.
  - decide_concrete.
  - intros it1 it2 H1. revert it2. apply Forall_forall. revert it1 H1. apply Forall_forall.
    decide_concrete.
  - intros ft m Hin _.
    repeat (apply elem_of_cons in Hin as [Hin|Hin]; [injection Hin as -> ->|]);
      [| |by apply elem_of_nil in Hin]; (split; [vm_eq|]).
    + exists recovering, (good adk_topology), [].
      split_and!; [decide_concrete|vm_compute; lia|vm_eq|vm_eq].
    + exists [TimedOut], (good adk_trajectory), [].
      split_and!; [decide_concrete|vm_compute; lia|vm_eq|vm_eq].
Defined.

End Concrete.
