(* ===== verification/Concurrency.v ===== *)
(** * Two fetch calls on one cache

    The specification (section 5) expects two processes that fetch the same
    dataset at the same time to be safe: the cache is shared, and the only
    protocol is that a process finding the data already there reuses it.
    The prologue of [fetch_<name>] (adk_equilibrium.py lines 95-96,
    ifabp_water.py lines 102-103) is a check followed by an action:
<<
    if not exists(data_location):
        makedirs(data_location)
>>
    Each process is a program counter over these two statements, each
    statement one atomic step on the shared world ([os.makedirs] as one
    step; [MakedirsSteps] splits it into its own statements and shows that
    its recursion tolerates a parent created concurrently).  [step]
    interleaves two processes.

    Theorems: there is an interleaving in which a process raises
    [FileExistsError] for the dataset directory although the other one
    created it (both check before either creates); and, as a check of the
    model, a process running alone computes exactly [prologue] of
    [Fetcher].  What every interleaving guarantees is proved in
    [MakedirsSteps], with [os.makedirs] split into its statements. *)

From stdpp Require Import base gmap strings list relations.
From S2P Require Import Prelude Filesystem Remote Bunch CacheLocator Fetcher Downloader Datasets.

Inductive pc :=
| CheckDir            (* if not exists(data_location): *)
| MakeDir             (*     makedirs(data_location) *)
| Loop                (* past the prologue: the loop over ARCHIVE *)
| Raised (e : exn).

(** One statement of one process. *)
Definition proc_step (loc : path) (p : pc) (w : World) : option (pc * World) :=
  match p with
  | CheckDir => Some (if path_exists w loc then Loop else MakeDir, w)
  | MakeDir =>
      match os_makedirs loc w with
      | (w', inr _) => Some (Loop, w')
      | (w', inl e) => Some (Raised e, w')
      end
  | Loop | Raised _ => None
  end.

Definition config2 := (pc * pc * World)%type.

(** Either process takes its next step. *)
Inductive step (loc : path) : config2 -> config2 -> Prop :=
| step_l p1 p2 w p1' w' :
    proc_step loc p1 w = Some (p1', w') -> step loc (p1, p2, w) (p1', p2, w')
| step_r p1 p2 w p2' w' :
    proc_step loc p2 w = Some (p2', w') -> step loc (p1, p2, w) (p1, p2', w').

Section Prologue.
Context (loc : path).

(** The world stays a tree in which [os.makedirs(loc)] can only fail because
    [loc] exists: no prefix of [loc] is a file and each missing one may be
    created. *)
Definition world_ok (w : World) : Prop :=
  wf_world w /\ loc <> [] /\
  Forall (fun q => is_file w q = false) (inits loc) /\
  Forall (fun q => q ∉ w_dirs w -> dirname q ∉ w_readonly w) (inits loc).

#[export] Instance world_ok_dec w : Decision (world_ok w).
Proof. unfold world_ok. apply _. Defined.

End Prologue.

(** C8: the race.  When the dataset directory does not exist yet, the
    interleaving "check, check, create, create" makes the second process
    raise [FileExistsError] although the first one succeeded: the
    check-then-create of lines 95-96 is not safe for two processes sharing
    the cache. *)
Theorem prologue_race loc w :
  world_ok loc w -> path_exists w loc = false ->
  exists w', rtc (step loc) (CheckDir, CheckDir, w) (Loop, Raised (FileExistsError loc), w').
Proof.
  intros (Hwf & Hne & Hf & Hro) Hp.
  set (w1 := with_dirs (w_dirs w ∪ list_to_set (inits loc)) w).
  assert (Hc : os_makedirs loc w = (w1, inr tt)) by (by apply os_makedirs_creates).
  assert (Hw1 : wf_world w1) by (apply (os_makedirs_wf loc w _ (inr tt)); done).
  assert (Hp1 : path_exists w1 loc = true).
  { unfold path_exists, is_dir. simpl. rewrite bool_decide_true; [done|].
    apply elem_of_union_r, elem_of_list_to_set, elem_of_inits_self. }
  exists w1.
  eapply rtc_l; [apply step_l; simpl; by rewrite Hp|].
  eapply rtc_l; [apply step_r; simpl; by rewrite Hp|].
  eapply rtc_l; [apply step_l; simpl; by rewrite Hc|].
  eapply rtc_l; [apply step_r; simpl; by rewrite os_makedirs_exists|].
  apply rtc_refl.
Qed.

(** ** One process alone *)

(** A process with nobody interleaved: its own steps. *)
Definition solo (loc : path) : relation (pc * World) :=
  fun c c' => proc_step loc c.1 c.2 = Some c'.

(** The program point at which a prologue with result [r] ends. *)
Definition final_pc (r : exn + unit) : pc :=
  match r with inr _ => Loop | inl e => Raised e end.

Lemma solo_terminal loc p w c :
  proc_step loc p w = None -> rtc (solo loc) (p, w) c -> c = (p, w).
Proof.
  intros Hn Hr. inversion Hr as [|? y ? Hs]; subst; [done|].
  unfold solo in Hs. simpl in Hs. congruence.
Qed.

Lemma final_pc_inj r r' : final_pc r = final_pc r' -> r = r'.
Proof. destruct r as [|[]], r' as [|[]]; simpl; congruence. Qed.

Lemma solo_makedirs loc w c :
  rtc (solo loc) (MakeDir, w) c ->
  c = (MakeDir, w) \/ c = (final_pc (os_makedirs loc w).2, (os_makedirs loc w).1).
Proof.
  intros Hr. inversion Hr as [|? [p1 w1] ? Hs Hrest]; subst; [by left|right].
  unfold solo in Hs. simpl in Hs.
  destruct (os_makedirs loc w) as [w2 [e|[]]]; injection Hs as <- <-;
    by apply solo_terminal in Hrest.
Qed.

(** The step relation is the code: a process running alone
    reaches the end of the prologue in world [w'] at [Loop] exactly when
    the prologue of [fetch_<name>] (lines 95-96) returns in [w'], and at
    [Raised e] exactly when it raises [e]. *)
Theorem solo_prologue_equiv loc w w' r :
  prologue loc w = (w', r) <-> rtc (solo loc) (CheckDir, w) (final_pc r, w').
Proof.
  unfold prologue, os_path_exists. py_simpl. split.
  - destruct (path_exists w loc) eqn:E.
    + intros [= <- <-]. apply rtc_once. unfold solo. simpl. by rewrite E.
    + intros Hmk. eapply rtc_l; [unfold solo; simpl; rewrite E; reflexivity|].
      apply rtc_once. unfold solo. simpl. rewrite Hmk. by destruct r as [|[]].
  - intros Hr. inversion Hr as [Heq|? [p1 w1] ? Hs Hrest]; subst.
    { by destruct r. }
    unfold solo in Hs. simpl in Hs. injection Hs as <- <-.
    destruct (path_exists w loc).
    + apply solo_terminal in Hrest; [|done]. injection Hrest as Hp ->.
      by rewrite (final_pc_inj r (inr tt)).
    + apply solo_makedirs in Hrest as [Hc|Hc]; [by destruct r|].
      injection Hc as Hp ->. apply final_pc_inj in Hp as ->. apply surjective_pairing.
Qed.

(** Witnesses: the fresh home of the examples in [Datasets], where
    [~/MDAnalysis_data/adk_equilibrium] does not exist yet. *)
Section Witnesses.
#[local] Existing Instance text_digest.

Lemma prologue_race_witness :
  exists w', rtc (step adk_loc) (CheckDir, CheckDir, fresh_world)
               (Loop, Raised (FileExistsError adk_loc), w').
Proof.
  apply (prologue_race adk_loc fresh_world).
  - decide_concrete.
  - vm_compute. reflexivity.
Defined.
End Witnesses.
