(* ===== verification/MakedirsSteps.v ===== *)
(** * [os.makedirs] statement by statement: fetching two datasets at once

    [Concurrency] takes [os.makedirs(data_location)] (adk_equilibrium.py
    line 96, ifabp_water.py line 103) as one atomic step.  CPython's
    [os.makedirs] is itself a check followed by an action, on every missing
    parent:
<<
    head, tail = path.split(name)
    if head and tail and not path.exists(head):
        try:
            makedirs(head, exist_ok=exist_ok)
        except FileExistsError:
            pass
    mkdir(name, mode)
>>
    Here each of its statements is a step: a process inside [makedirs] is a
    call stack of frames [mframe], the innermost first; a frame is at the
    parent check ([MCheck]) or at its [mkdir] ([MMkdir]); the frames below
    it wait at their [mkdir], inside the [try].  An exception of the
    innermost frame is caught by the frame below when it is a
    [FileExistsError] and goes through every frame otherwise ([unwind]).

    Theorems: one process alone computes [prologue] of [Fetcher], the check
    that the statement-level model is the code
    ([solo_prologue_steps_equiv]); two processes whose dataset directories
    are different and neither inside the other (the two datasets of this
    repository in one data home) never raise in the prologue, in any
    interleaving of these statements: the race on the shared parents is
    caught by the [except FileExistsError] of CPython's recursion
    ([sibling_prologues_safe]); and for any two calls, the same dataset
    included, the only exception a prologue raises is [FileExistsError]
    for its own dataset directory ([prologues_raise_only_exists]), the
    race of [Concurrency.prologue_race]. *)

From stdpp Require Import base gmap strings list relations.
From S2P Require Import Prelude Filesystem Remote Bunch CacheLocator Fetcher Downloader Datasets.
Local Open Scope py_scope.

(** A frame of [makedirs(name)], with [name] as its reversed component list
    (as [makedirs_rev]). *)
Inductive mframe :=
| MCheck (rp : list string)    (* if head and tail and not exists(head): makedirs(head) *)
| MMkdir (rp : list string).   (* mkdir(name) *)

(** Program points of the prologue [if not exists(loc): makedirs(loc)]. *)
Inductive ppc :=
| PCheck                        (* if not exists(data_location): *)
| PMake (stack : list mframe)   (* inside makedirs(data_location), innermost frame first *)
| PLoop                         (* past the prologue *)
| PRaised (e : exn).

(** The frame below returns to its [mkdir]; the outermost returns from
    [makedirs]. *)
Definition mreturn (rest : list mframe) : ppc :=
  match rest with [] => PLoop | _ => PMake rest end.

(** The innermost frame raised [e]: the frame below catches a
    [FileExistsError]; anything else leaves [makedirs]. *)
Definition unwind (e : exn) (rest : list mframe) : ppc :=
  match rest with
  | [] => PRaised e
  | _ => if is_FileExistsError e then PMake rest else PRaised e
  end.

(** One statement of the prologue of a call for [loc]. *)
Definition pstep (loc : path) (p : ppc) (w : World) : option (ppc * World) :=
  match p with
  | PCheck => Some (if path_exists w loc then PLoop else PMake [MCheck (rev loc)], w)
  | PMake (MCheck [] :: rest) => Some (PMake (MMkdir [] :: rest), w)
  | PMake (MCheck (x :: rh) :: rest) =>
      Some (if path_exists w (rev rh) then PMake (MMkdir (x :: rh) :: rest)
            else PMake (MCheck rh :: MMkdir (x :: rh) :: rest), w)
  | PMake (MMkdir rp :: rest) =>
      Some (match os_mkdir (rev rp) w with
            | (w', inr _) => (mreturn rest, w')
            | (w', inl e) => (unwind e rest, w')
            end)
  | PMake [] | PLoop | PRaised _ => None
  end.

(** A process alone. *)
Definition psolo (loc : path) : relation (ppc * World) :=
  fun c c' => pstep loc c.1 c.2 = Some c'.

(** Two processes, for the dataset directories [loc1] and [loc2]. *)
Definition pstep2 (loc1 loc2 : path) : relation (ppc * ppc * World) :=
  interleave (pstep loc1) (pstep loc2).

(** The program point at which a prologue with result [r] ends. *)
Definition pfinal (r : exn + unit) : ppc :=
  match r with inr _ => PLoop | inl e => PRaised e end.

(** ** One process alone is [prologue] *)

Section Solo.
Context (loc : path).

Lemma mkdir_steps rp rest w :
  psolo loc (PMake (MMkdir rp :: rest), w)
    (match (os_mkdir (rev rp) w).2 with inr _ => mreturn rest | inl e => unwind e rest end,
     (os_mkdir (rev rp) w).1).
Proof. unfold psolo. simpl. by destruct (os_mkdir (rev rp) w) as [w' [e|[]]]. Qed.

(** The recursion of [makedirs_rev rp] is the frames above [rest]. *)
Lemma makedirs_steps rp rest w w' r :
  makedirs_rev rp w = (w', r) ->
  rtc (psolo loc) (PMake (MCheck rp :: rest), w)
    (match r with inr _ => mreturn rest | inl e => unwind e rest end, w').
Proof.
  revert rest w w' r. induction rp as [|x rh IH]; intros rest w w' r Hr.
  - eapply rtc_l; [reflexivity|]. apply rtc_once. pose proof (mkdir_steps [] rest w) as Hs.
    cbn [rev app] in Hs. simpl in Hr. rewrite Hr in Hs. exact Hs.
  - revert Hr. cbn [makedirs_rev]. unfold os_path_exists. py_simpl.
    destruct (path_exists w (rev rh)) eqn:E.
    + intros Hr. eapply rtc_l; [unfold psolo; simpl; by rewrite E|]. apply rtc_once.
      pose proof (mkdir_steps (x :: rh) rest w) as Hs. rewrite Hr in Hs. exact Hs.
    + unfold pcatch. destruct (makedirs_rev rh w) as [w1 r1] eqn:Hrec. intros Hr.
      eapply rtc_l; [unfold psolo; simpl; by rewrite E|].
      apply (IH (MMkdir (x :: rh) :: rest)) in Hrec. eapply rtc_trans; [exact Hrec|]. revert Hr.
      destruct r1 as [e|[]]; [destruct (is_FileExistsError e) eqn:He|]; cbn [unwind mreturn]; rewrite ?He;
        cbv beta iota.
      * intros Hr. apply rtc_once. pose proof (mkdir_steps (x :: rh) rest w1) as Hs.
        rewrite Hr in Hs. exact Hs.
      * intros [= <- <-]. destruct rest as [|f rest]; [apply rtc_refl|]. simpl. rewrite He. apply rtc_refl.
      * intros Hr. apply rtc_once. pose proof (mkdir_steps (x :: rh) rest w1) as Hs.
        rewrite Hr in Hs. exact Hs.
Qed.

Lemma prologue_steps w w' r : prologue loc w = (w', r) -> rtc (psolo loc) (PCheck, w) (pfinal r, w').
Proof.
  unfold prologue, os_path_exists. py_simpl. destruct (path_exists w loc) eqn:E.
  - intros [= <- <-]. apply rtc_once. unfold psolo. simpl. by rewrite E.
  - intros Hmk. eapply rtc_l; [unfold psolo; simpl; rewrite E; reflexivity|].
    unfold os_makedirs in Hmk. apply (makedirs_steps _ []) in Hmk. by destruct r as [|[]].
Qed.

(** The statement-level prologue is the code: a process running the
    prologue alone, [os.makedirs] statement by statement, reaches [PLoop]
    in world [w'] exactly when [prologue loc] (lines 95-96) returns in [w'],
    and [PRaised e] exactly when it raises [e]. *)
Theorem solo_prologue_steps_equiv w w' r :
  prologue loc w = (w', r) <-> rtc (psolo loc) (PCheck, w) (pfinal r, w').
Proof.
  split; [apply prologue_steps|]. intros Hr.
  destruct (prologue loc w) as [w'' r''] eqn:E. apply prologue_steps in E.
  destruct r as [|[]], r'' as [|[]];
    pose proof (rtc_fun_final (fun c => pstep loc c.1 c.2) _ _ _ Hr E eq_refl eq_refl) as Heq; by simplify_eq.
Qed.
End Solo.

(** ** Two datasets at once *)

(** The frames below the innermost one, whose name is [rp]: each waits at
    the [mkdir] of the name one component longer, down to the frame of the
    dataset directory, whose reversed name is [rl]. *)
Fixpoint waiting_ok (rl rp : list string) (rest : list mframe) : Prop :=
  match rest with
  | [] => rp = rl
  | MMkdir rp' :: rest' => (exists x, rp' = x :: rp) /\ waiting_ok rl rp' rest'
  | MCheck _ :: _ => False
  end.

(** What the files and the permissions along [loc] let [makedirs] do: no
    prefix of [loc] is a file and none lies in a read-only directory. *)
Definition route_ok (loc : path) (w : World) : Prop :=
  Forall (fun q => is_file w q = false /\ dirname q ∉ w_readonly w) (inits loc).

(** What a process has established: past the prologue its directory
    exists; inside [makedirs] the frames are those of the recursion on
    [loc], and a frame at its [mkdir] has its parent directory; the only
    exception it has raised is [FileExistsError] for its directory. *)
Definition pinv (loc : path) (p : ppc) (w : World) : Prop :=
  match p with
  | PCheck => True
  | PLoop => loc ∈ w_dirs w
  | PRaised e => e = FileExistsError loc
  | PMake [] => False
  | PMake (MCheck rp :: rest) => waiting_ok (rev loc) rp rest
  | PMake (MMkdir rp :: rest) => waiting_ok (rev loc) rp rest /\ dirname (rev rp) ∈ w_dirs w
  end.

(** A process inside [makedirs] whose directory nobody has created yet, or
    one that has not raised. *)
Definition pfresh (loc : path) (p : ppc) (w : World) : Prop :=
  match p with
  | PMake _ => loc ∉ w_dirs w
  | PRaised _ => False
  | PCheck | PLoop => True
  end.

(** What a statement may do to the world: nothing, or create one prefix of
    its dataset directory. *)
Definition creates_within (loc : path) (w w' : World) : Prop :=
  w' = w \/ exists q, q ∈ inits loc /\ w' = with_dirs ({[q]} ∪ w_dirs w) w.

Lemma waiting_ok_suffix rl rp rest : waiting_ok rl rp rest -> exists pre, rl = pre ++ rp.
Proof.
  revert rp. induction rest as [|[rp'|rp'] rest IH]; intros rp; simpl; [intros ->; by exists []|done|].
  intros [[x ->] Hw]. destruct (IH _ Hw) as [pre ->]. exists (pre ++ [x]). by rewrite <- app_assoc.
Qed.

(** A frame's name is a prefix of the dataset directory, a strict one when
    frames wait below it. *)
Lemma frame_prefix loc rp rest :
  waiting_ok (rev loc) rp rest -> rev rp ∈ inits loc /\ (rest <> [] -> rev rp <> loc).
Proof.
  intros Hw. split.
  - destruct (waiting_ok_suffix _ _ _ Hw) as [pre Hpre]. apply elem_of_inits. exists (rev pre).
    by rewrite <- rev_app_distr, <- Hpre, rev_involutive.
  - intros Hne Heq. destruct rest as [|[rp'|rp'] rest]; [done|done|]. destruct Hw as [[x ->] Hw].
    destruct (waiting_ok_suffix _ _ _ Hw) as [pre Hpre]. apply (f_equal length) in Hpre.
    rewrite length_rev, length_app, <- Heq, length_rev in Hpre. simpl in Hpre. lia.
Qed.

Lemma route_ok_at loc w q : route_ok loc w -> q ∈ inits loc -> is_file w q = false /\ dirname q ∉ w_readonly w.
Proof. intros Hr Hq. by eapply Forall_forall in Hr; [|exact Hq]. Qed.

(** An existing prefix of the route is a directory. *)
Lemma route_exists_dir loc w q :
  route_ok loc w -> q ∈ inits loc -> path_exists w q = true -> q ∈ w_dirs w.
Proof.
  intros Hr Hq. destruct (route_ok_at _ _ _ Hr Hq) as [Hf _]. unfold path_exists, is_dir.
  rewrite Hf, orb_false_r. by apply bool_decide_eq_true.
Qed.

Lemma dirname_rev_cons x rh : dirname (rev (x :: rh)) = rev rh.
Proof. apply removelast_last. Qed.

Lemma inits_app_prefix {A} (p q l : list A) : p ++ q ∈ inits l -> p ∈ inits l.
Proof. rewrite !elem_of_inits. intros [r ->]. exists (q ++ r). by rewrite app_assoc. Qed.

(** [os.mkdir] of an existing path raises [FileExistsError] and changes
    nothing. *)
Lemma os_mkdir_exists p w : path_exists w p = true -> os_mkdir p w = (w, inl (FileExistsError p)).
Proof. intros E. unfold os_mkdir. py_simpl. by rewrite E. Qed.

(** A statement of a process keeps its facts and creates at most one
    prefix of its directory; if nobody else creates its directory, it does
    not raise. *)
Lemma pstep_own loc p w p' w' :
  [] ∈ w_dirs w -> route_ok loc w -> pinv loc p w -> pstep loc p w = Some (p', w') ->
  pinv loc p' w' /\ creates_within loc w w' /\ (pfresh loc p w -> pfresh loc p' w').
Proof.
  intros Hroot Hr Hp Hs.
  destruct p as [|[|[[|x rh]|rp] rest]| |e]; cbn [pstep] in Hs; try discriminate Hs.
  - destruct (path_exists w loc) eqn:E; injection Hs as <- <-; (split_and!; [|by left|]); cbn [pinv pfresh].
    + exact (route_exists_dir loc w loc Hr (elem_of_inits_self loc) E).
    + done.
    + done.
    + intros _ Hin. unfold path_exists, is_dir in E. by rewrite bool_decide_true in E.
  - injection Hs as <- <-. split_and!; [|by left|done]. done.
  - pose proof (proj1 (frame_prefix _ _ _ Hp)) as Hq. cbn [rev] in Hq. apply inits_app_prefix in Hq.
    destruct (path_exists w (rev rh)) eqn:E; injection Hs as <- <-; (split_and!; [|by left|done]); cbn [pinv].
    + split; [done|]. rewrite dirname_rev_cons. exact (route_exists_dir _ _ _ Hr Hq E).
    + split; [by exists x|done].
  - destruct Hp as (Hw & Hpar). destruct (frame_prefix _ _ _ Hw) as [Hq Hstrict].
    destruct (path_exists w (rev rp)) eqn:E.
    + rewrite os_mkdir_exists in Hs by done. injection Hs as <- <-. split; [|split; [by left|]].
      all: destruct rest as [|[rp'|rp'] rest]; [cbn [waiting_ok] in Hw|done|].
      * cbn [unwind pinv]. by rewrite Hw, rev_involutive.
      * destruct Hw as [[x' ->] Hw]. cbn [unwind is_FileExistsError pinv]. split; [done|].
        rewrite dirname_rev_cons. exact (route_exists_dir _ _ _ Hr Hq E).
      * cbn [pfresh]. intros Hn. apply Hn. rewrite <- (rev_involutive loc), <- Hw.
        exact (route_exists_dir _ _ _ Hr Hq E).
      * done.
    + rewrite os_mkdir_run in Hs by (done || apply (route_ok_at _ _ _ Hr Hq)). injection Hs as <- <-.
      split; [|split; [right; by exists (rev rp)|]].
      all: destruct rest as [|[rp'|rp'] rest]; [cbn [waiting_ok] in Hw|done|].
      * cbn [mreturn pinv w_dirs with_dirs]. rewrite Hw, rev_involutive. set_solver.
      * destruct Hw as [[x' ->] Hw]. cbn [mreturn pinv w_dirs with_dirs].
        rewrite dirname_rev_cons. split; [done|set_solver].
      * done.
      * assert (rev rp <> loc) by (by apply Hstrict). cbn [mreturn pfresh w_dirs with_dirs]. set_solver.
Qed.

(** The other process's facts survive any statement: they only ask for
    directories to exist. *)
Lemma pinv_other loc loc' p w w' : creates_within loc' w w' -> pinv loc p w -> pinv loc p w'.
Proof.
  intros [->|(q & Hq & ->)]; [done|].
  destruct p as [|[|[rp|rp] rest]| |e]; cbn [pinv w_dirs with_dirs]; try done;
    intros; destruct_and?; split_and?; (done || set_solver).
Qed.

(** Its directory stays missing while the other creates only prefixes of
    a directory that does not contain it. *)
Lemma pfresh_other loc loc' p w w' :
  loc ∉ inits loc' -> creates_within loc' w w' -> pfresh loc p w -> pfresh loc p w'.
Proof.
  intros Hap [->|(q & Hq & ->)]; [done|]. assert (q <> loc) by (intros ->; contradiction).
  destruct p; cbn [pfresh w_dirs with_dirs]; try done. set_solver.
Qed.

Lemma creates_within_keeps loc w w' :
  creates_within loc w w' -> ([] ∈ w_dirs w -> [] ∈ w_dirs w') /\ (forall l, route_ok l w -> route_ok l w').
Proof. intros [->|(q & _ & ->)]; [done|]. split; [cbn [w_dirs with_dirs]; set_solver|]. intros l Hl. exact Hl. Qed.

Section Two.
Context (loc1 loc2 : path).

(** The invariant of two prologues. *)
Definition pinv2 (c : ppc * ppc * World) : Prop :=
  [] ∈ w_dirs c.2 /\ route_ok loc1 c.2 /\ route_ok loc2 c.2 /\ pinv loc1 c.1.1 c.2 /\ pinv loc2 c.1.2 c.2.

(** One statement of either process: the invariant is kept, and the world
    changes as the process's [creates_within] allows. *)
Lemma pstep2_spec c c' :
  pstep2 loc1 loc2 c c' -> pinv2 c ->
  pinv2 c' /\
  ((creates_within loc1 c.2 c'.2 /\ c'.1.2 = c.1.2 /\ (pfresh loc1 c.1.1 c.2 -> pfresh loc1 c'.1.1 c'.2)) \/
   (creates_within loc2 c.2 c'.2 /\ c'.1.1 = c.1.1 /\ (pfresh loc2 c.1.2 c.2 -> pfresh loc2 c'.1.2 c'.2))).
Proof.
  intros [p1 p2 w p1' w' Hs|p1 p2 w p2' w' Hs] (Hroot & Hr1 & Hr2 & H1 & H2); cbn [fst snd] in *.
  - destruct (pstep_own _ _ _ _ _ Hroot Hr1 H1 Hs) as (H1' & Hc & Hf).
    destruct (creates_within_keeps _ _ _ Hc) as [Hk Hl].
    split; [|by left]. split_and!; [by apply Hk|by apply Hl|by apply Hl|done|by apply (pinv_other _ loc1 _ w)].
  - destruct (pstep_own _ _ _ _ _ Hroot Hr2 H2 Hs) as (H2' & Hc & Hf).
    destruct (creates_within_keeps _ _ _ Hc) as [Hk Hl].
    split; [|by right]. split_and!; [by apply Hk|by apply Hl|by apply Hl|by apply (pinv_other _ loc2 _ w)|done].
Qed.

Lemma rtc_pinv2 c c' : rtc (pstep2 loc1 loc2) c c' -> pinv2 c -> pinv2 c'.
Proof. induction 1 as [|x y z Hxy _ IH]; [done|]. intros Hx. apply IH. by apply (pstep2_spec x y). Qed.

(** C23: the only exception of a prologue.  For any two calls, on a tree
    where no prefix of their dataset directories is a file or lies in a
    read-only directory, in every interleaving of their prologues with
    [os.makedirs] statement by statement, a call that raised raised
    [FileExistsError] for its own dataset directory, and a call past its
    prologue has its directory: every race on a parent directory is caught
    by CPython's recursion, the race on the dataset directory itself is
    not ([Concurrency.prologue_race]). *)
Theorem prologues_raise_only_exists w c :
  [] ∈ w_dirs w -> route_ok loc1 w -> route_ok loc2 w ->
  rtc (pstep2 loc1 loc2) (PCheck, PCheck, w) c ->
  (forall e, c.1.1 = PRaised e -> e = FileExistsError loc1) /\
  (forall e, c.1.2 = PRaised e -> e = FileExistsError loc2) /\
  (c.1.1 = PLoop -> loc1 ∈ w_dirs c.2) /\ (c.1.2 = PLoop -> loc2 ∈ w_dirs c.2).
Proof.
  intros Hroot Hr1 Hr2 Hr. destruct (rtc_pinv2 _ _ Hr) as (_ & _ & _ & H1 & H2); [by split_and!|].
  destruct c as [[p1 p2] w']. cbn [fst snd] in *. split_and!; intros; subst; done.
Qed.

Section Siblings.
Context (Hap1 : loc1 ∉ inits loc2) (Hap2 : loc2 ∉ inits loc1).

Lemma rtc_pfresh2 c c' :
  rtc (pstep2 loc1 loc2) c c' -> pinv2 c ->
  pfresh loc1 c.1.1 c.2 -> pfresh loc2 c.1.2 c.2 -> pfresh loc1 c'.1.1 c'.2 /\ pfresh loc2 c'.1.2 c'.2.
Proof.
  induction 1 as [|x y z Hxy _ IH]; [done|]. intros Hx H1 H2.
  destruct (pstep2_spec x y Hxy Hx) as [Hy [(Hc & Heq & Hf)|(Hc & Heq & Hf)]]; apply IH; try done.
  - by apply Hf.
  - rewrite Heq. by apply (pfresh_other _ loc1 _ x.2).
  - rewrite Heq. by apply (pfresh_other _ loc2 _ x.2).
  - by apply Hf.
Qed.

(** C22: fetching two different datasets at once.  Two calls whose dataset
    directories [loc1] and [loc2] are different and neither inside the
    other, on a tree where no prefix of either is a file or lies in a
    read-only directory, run their prologues ([if not exists(loc):
    makedirs(loc)]) with [os.makedirs] statement by statement: in every
    interleaving neither raises, and a call past its prologue has its
    directory.  The missing parents both create are raced for, and the
    loser's [FileExistsError] is caught by CPython's recursion. *)
Theorem sibling_prologues_safe w c :
  [] ∈ w_dirs w -> route_ok loc1 w -> route_ok loc2 w ->
  rtc (pstep2 loc1 loc2) (PCheck, PCheck, w) c ->
  (forall e, c.1.1 <> PRaised e /\ c.1.2 <> PRaised e) /\
  (c.1.1 = PLoop -> loc1 ∈ w_dirs c.2) /\ (c.1.2 = PLoop -> loc2 ∈ w_dirs c.2).
Proof.
  intros Hroot Hr1 Hr2 Hr. destruct (rtc_pinv2 _ _ Hr) as (_ & _ & _ & H1 & H2); [by split_and!|].
  destruct (rtc_pfresh2 _ _ Hr) as [F1 F2]; [by split_and!|done|done|].
  destruct c as [[p1 p2] w']. cbn [fst snd] in *.
  split_and!; [intros e; split; intros ->; done|intros ->; exact H1|intros ->; exact H2].
Qed.
End Siblings.
End Two.

(** Witness: the two datasets of this repository fetched at once on the
    fresh home of [Datasets], where [~/MDAnalysis_data] does not exist, the
    statements alternating.  Both find [~/MDAnalysis_data] missing and both
    recurse into it; the first creates it, the [mkdir] of the second raises
    [FileExistsError], which its [makedirs(ifabp_water)] frame catches; both
    then create their own directory.  Two calls of the same dataset run the
    same way, and the second raises [FileExistsError] for
    [~/MDAnalysis_data/adk_equilibrium]. *)
Section Witnesses.

Definition siblings_turns : list bool := concat (replicate 7 [true; false]).

Definition siblings_end : ppc * ppc * World :=
  Eval vm_compute in schedule (pstep adk_loc) (pstep ifabp_loc) siblings_turns (PCheck, PCheck, fresh_world).

Lemma siblings_run :
  schedule (pstep adk_loc) (pstep ifabp_loc) siblings_turns (PCheck, PCheck, fresh_world) = siblings_end.
Proof. vm_eq. Qed.

Lemma sibling_prologues_safe_witness :
  (forall e, siblings_end.1.1 <> PRaised e /\ siblings_end.1.2 <> PRaised e) /\
  (siblings_end.1.1 = PLoop -> adk_loc ∈ w_dirs siblings_end.2) /\
  (siblings_end.1.2 = PLoop -> ifabp_loc ∈ w_dirs siblings_end.2).
Proof.
  refine (sibling_prologues_safe adk_loc ifabp_loc _ _ fresh_world siblings_end _ _ _ _);
    [decide_concrete|decide_concrete|decide_concrete|decide_concrete|decide_concrete|].
  rewrite <- siblings_run. apply schedule_rtc.
Defined.

Definition same_end : ppc * ppc * World :=
  Eval vm_compute in schedule (pstep adk_loc) (pstep adk_loc) siblings_turns (PCheck, PCheck, fresh_world).

Lemma same_run :
  schedule (pstep adk_loc) (pstep adk_loc) siblings_turns (PCheck, PCheck, fresh_world) = same_end.
Proof. vm_eq. Qed.

Lemma same_end_raised : same_end.1.2 = PRaised (FileExistsError adk_loc).
Proof. reflexivity. Qed.

Lemma prologues_raise_only_exists_witness :
  (forall e, same_end.1.1 = PRaised e -> e = FileExistsError adk_loc) /\
  (forall e, same_end.1.2 = PRaised e -> e = FileExistsError adk_loc) /\
  (same_end.1.1 = PLoop -> adk_loc ∈ w_dirs same_end.2) /\ (same_end.1.2 = PLoop -> adk_loc ∈ w_dirs same_end.2).
Proof.
  refine (prologues_raise_only_exists adk_loc adk_loc fresh_world same_end _ _ _ _);
    [decide_concrete|decide_concrete|decide_concrete|].
  rewrite <- same_run. apply schedule_rtc.
Defined.
End Witnesses.
