(* ===== verification/Interleaving.v ===== *)
(** * Two whole fetch calls on one cache

    [Concurrency] interleaves the prologue of two calls.  Here each call
    is a program counter over every statement of [fetch_into] (the body of
    [fetch_<name>] once [data_location] is known, adk_equilibrium.py lines
    95-114): the [exists] check and [makedirs] of the prologue, for each
    role of [ARCHIVE] the [exists(local_path)] check (with the [raise] of
    disabled downloads) and the [logger.info] + [_fetch_remote] call, and
    the description read.  Each statement is one atomic step on the shared
    world; the downloader is any implementation of [DownloaderSpec].

    Lemmas: a call running alone computes exactly [fetch_into] (the check
    that the statement-level model is the code), and each statement keeps
    what its call has established ([passed]: every role it has passed has
    its file), also across statements of another call that only add
    paths.  [SharedCache] interleaves two such calls with their downloads
    split into statements. *)

From stdpp Require Import base gmap strings list relations.
From S2P Require Import Prelude Filesystem Utf8 Remote Bunch CacheLocator Fetcher Downloader.
Local Open Scope py_scope.

(** Program points of one call. *)
Inductive fpc :=
| FCheckDir                                         (* if not exists(data_location): *)
| FMakeDir                                          (*     makedirs(data_location) *)
| FFile (items : Archive) (records : Bunch)         (* the loop, [items] still to do *)
| FDownload (file_type : string) (meta : RemoteFileMetadata)
            (items : Archive) (records : Bunch)     (* logger.info(...); _fetch_remote(meta, ...) *)
| FDone (r : exn + Bunch).                          (* returned or raised *)

(** Run one statement [m], then go on at [k a], or end at the exception. *)
Definition resume {A} (m : M A) (k : A -> fpc) (w : World) : fpc * World :=
  match m w with
  | (w', inr a) => (k a, w')
  | (w', inl e) => (FDone (inl e), w')
  end.

Section Call.
Context `{Digest} `{D : Downloader}.
Context (loc : path) (description : string) (archive : Archive) (dim : bool).

(** One statement of a call of [fetch_into loc description archive dim]. *)
Definition fstep (p : fpc) (w : World) : option (fpc * World) :=
  match p with
  | FCheckDir =>
      Some (resume (os_path_exists loc)
              (fun ex => if ex then FFile archive bunch_empty else FMakeDir) w)
  | FMakeDir => Some (resume (os_makedirs loc) (fun _ => FFile archive bunch_empty) w)
  | FFile [] records =>
      Some (resume (let* module_dir := module_path in
                    codecs_read (join (join module_dir "descr") description))
              (fun text => FDone (inr (bunch_set "DESCR" (BText text) records))) w)
  | FFile ((file_type, meta) :: rest) records =>
      let local_path := join loc (filename meta) in
      let records := bunch_set file_type (BPath local_path) records in
      Some (resume (os_path_exists local_path)
              (fun ex => if ex then FFile rest records
                         else if negb dim then FDone (inl (IOError file_type local_path))
                         else FDownload file_type meta rest records) w)
  | FDownload file_type meta rest records =>
      Some (resume (let* _ := logger_info (download_message file_type meta
                                             (join loc (filename meta))) in
                    fetch_remote meta loc false)
              (fun _ => FFile rest records) w)
  | FDone _ => None
  end.

(** A call on its own. *)
Definition solo : relation (fpc * World) := fun c c' => fstep c.1 c.2 = Some c'.

(** ** A call alone is [fetch_into] *)

Lemma solo_resume {A} (m : M A) k p w :
  fstep p w = Some (resume m k w) -> forall a w', m w = (w', inr a) -> solo (p, w) (k a, w').
Proof. intros Hs a w' Hm. unfold solo. simpl. rewrite Hs. unfold resume. by rewrite Hm. Qed.

Lemma fetch_files_solo items r w w' res :
  fetch_files loc dim items r w = (w', res) ->
  rtc solo (FFile items r, w)
    (match res with inr recs => FFile [] recs | inl e => FDone (inl e) end, w').
Proof.
  revert r w. induction items as [|[ft m] items IH]; intros r w; simpl.
  { intros [= <- <-]. apply rtc_refl. }
  unfold os_path_exists. py_simpl.
  set (lp := join loc (filename m)). set (r' := bunch_set ft (BPath lp) r).
  assert (Hchk : forall ex, path_exists w lp = ex ->
            solo (FFile ((ft, m) :: items) r, w)
              (if ex then FFile items r'
               else if negb dim then FDone (inl (IOError ft lp)) else FDownload ft m items r', w)).
  { intros ex Hex. unfold solo. simpl. unfold resume, os_path_exists. unfold lp, r' in *.
    by rewrite Hex. }
  destruct (path_exists w lp) eqn:E.
  { intros Hrun. eapply rtc_l; [by apply (Hchk true)|]. by apply IH. }
  destruct dim; simpl.
  2: { intros [= <- <-]. apply rtc_once. by apply (Hchk false). }
  unfold logger_info. py_simpl.
  set (msg := download_message ft m lp).
  assert (Hdl : forall w1 x, fetch_remote m loc false (log_world w msg) = (w1, x) ->
            solo (FDownload ft m items r', w)
              (match x with inr _ => FFile items r' | inl e => FDone (inl e) end, w1)).
  { intros w1 x Hx. unfold solo. simpl. unfold resume, logger_info. py_simpl.
    unfold msg, lp, r' in *. rewrite Hx. by destruct x. }
  destruct (fetch_remote m loc false (log_world w msg)) as [w1 [e|q]] eqn:Hf.
  - intros [= <- <-]. eapply rtc_l; [by apply (Hchk false)|]. apply rtc_once.
    by apply (Hdl w1 (inl e)).
  - intros Hrun. eapply rtc_l; [by apply (Hchk false)|].
    eapply rtc_l; [by apply (Hdl w1 (inr q))|]. by apply IH.
Qed.

(** The loop and the description read, from the loop head. *)
Lemma files_descr_solo w w' r :
  (let* records := fetch_files loc dim archive bunch_empty in
   let* module_dir := module_path in
   let* text := codecs_read (join (join module_dir "descr") description) in
   pret (bunch_set "DESCR" (BText text) records)) w = (w', r) ->
  rtc solo (FFile archive bunch_empty, w) (FDone r, w').
Proof.
  py_simpl. destruct (fetch_files loc dim archive bunch_empty w) as [w1 [e|recs]] eqn:Hf;
    apply fetch_files_solo in Hf; [by intros [= <- <-]|].
  intros Hrun. eapply rtc_r; [exact Hf|]. unfold solo. simpl. unfold resume.
  revert Hrun. unfold module_path, codecs_read, read_file. py_simpl.
  destruct (w_files w1 !! _); [destruct (stream_read _); intros [= <- <-]; done|].
  destruct (is_dir w1 _); intros [= <- <-]; done.
Qed.

Lemma fetch_into_solo w w' r :
  fetch_into loc description archive dim w = (w', r) -> rtc solo (FCheckDir, w) (FDone r, w').
Proof.
  rewrite fetch_into_prologue. unfold prologue, os_path_exists. py_simpl.
  assert (Hck : solo (FCheckDir, w) (if path_exists w loc then FFile archive bunch_empty else FMakeDir, w))
    by done.
  destruct (path_exists w loc).
  { intros Hrun. eapply rtc_l; [exact Hck|]. by apply files_descr_solo. }
  intros Hrun. eapply rtc_l; [exact Hck|].
  assert (Hmk : solo (FMakeDir, w)
            (resume (os_makedirs loc) (fun _ => FFile archive bunch_empty) w)) by done.
  unfold resume in Hmk. revert Hrun.
  destruct (os_makedirs loc w) as [w1 [e|[]]].
  - intros [= <- <-]. by apply rtc_once.
  - intros Hrun. eapply rtc_l; [exact Hmk|]. by apply files_descr_solo.
Qed.

(** The statement-level model is the code: a call of
    [fetch_into] (the body of [fetch_<name>]) running alone ends in world
    [w'] with result [r] exactly when [fetch_into] returns [r] (or raises)
    in [w']: the interleaving model of [SharedCache] runs the same
    statements. *)
Theorem solo_fetch_into_equiv w w' r :
  fetch_into loc description archive dim w = (w', r) <-> rtc solo (FCheckDir, w) (FDone r, w').
Proof.
  split; [apply fetch_into_solo|]. intros Hr.
  destruct (fetch_into loc description archive dim w) as [w'' r''] eqn:E.
  apply fetch_into_solo in E.
  by pose proof (rtc_fun_final (fun c => fstep c.1 c.2) _ _ _ Hr E eq_refl eq_refl) as [= -> ->].
Qed.
End Call.

(** ** What a call establishes about the cache *)

Section Shared.
Context `{Digest} `{D : Downloader} `{!DownloaderSpec D}.
Context (loc : path) (description : string) (archive : Archive) (dim : bool).

(** What a call has established about the cache: each role it has passed
    has its file, and a call that returned passed them all. *)
Definition passed (p : fpc) (w : World) : Prop :=
  match p with
  | FCheckDir | FMakeDir | FDone (inl _) => True
  | FFile items _ => exists pre, archive = pre ++ items /\ all_present w loc pre
  | FDownload ft m items _ => exists pre, archive = pre ++ (ft, m) :: items /\ all_present w loc pre
  | FDone (inr _) => all_present w loc archive
  end.

Lemma all_present_grow w w' items :
  exists_grow w w' -> all_present w loc items -> all_present w' loc items.
Proof. intros Hg Hall ft m Hin. apply Hg. by apply (Hall ft m). Qed.

Lemma all_present_snoc w pre ft m :
  all_present w loc pre -> path_exists w (join loc (filename m)) = true ->
  all_present w loc (pre ++ [(ft, m)]).
Proof.
  intros Hall Hm ft' m' [Hin|[[= -> ->]|[]%elem_of_nil]%elem_of_cons]%elem_of_app;
    [by apply (Hall ft' m')|done].
Qed.

Lemma passed_grow p w w' : exists_grow w w' -> passed p w -> passed p w'.
Proof.
  intros Hg. destruct p as [| |items r|ft m items r|[e|b]]; simpl; try done.
  - intros (pre & -> & Hall). exists pre. split; [done|]. by apply (all_present_grow w).
  - intros (pre & -> & Hall). exists pre. split; [done|]. by apply (all_present_grow w).
  - by apply all_present_grow.
Qed.

Lemma resume_preserves {A} (R : relation World) (m : M A) k w p' w' :
  preserves R m -> resume m k w = (p', w') -> R w w'.
Proof. unfold resume. intros Hm. destruct (m w) as [w1 [e|a]] eqn:E; intros [= _ <-]; eauto. Qed.

(** A statement keeps every preorder kept by [makedirs], by log records
    and by the downloads of the archive's files. *)
Lemma fstep_preserves (R : relation World) `{!PreOrder R} p w p' w' :
  preserves R (os_makedirs loc) -> (forall w msg, R w (log_world w msg)) ->
  (forall ft m, (ft, m) ∈ archive -> preserves R (fetch_remote m loc false)) ->
  passed p w -> fstep loc description archive dim p w = Some (p', w') -> R w w'.
Proof.
  intros Hmk Hlog Hdl Hp.
  destruct p as [| |[|[ft m] items] r|ft m items r|res]; intros Hs;
    cbv beta iota zeta delta [fstep] in Hs; try discriminate Hs;
    apply (inj Some) in Hs; (eapply resume_preserves; [|exact Hs]).
  - frame_tac.
  - exact Hmk.
  - apply preserves_bind; [exact _|apply preserves_pure_read; [exact _|apply module_path_pure]|].
    intros. apply preserves_pure_read; [exact _|apply codecs_read_pure].
  - frame_tac.
  - apply preserves_bind; [exact _|by apply logger_info_preserves|]. intros _.
    destruct Hp as (pre & -> & _). apply (Hdl ft). apply elem_of_app. right. by left.
Qed.

Lemma os_makedirs_exists_grow p : preserves exists_grow (os_makedirs p).
Proof.
  intros w w' r Hr q. pose proof (makedirs_rev_dirs (rev p) w w' r Hr) as [Hsub _].
  assert (Hf : w_files w' = w_files w) by (by apply (os_makedirs_keeps w_files) in Hr).
  unfold path_exists, is_dir, is_file. rewrite Hf.
  rewrite !orb_true_iff, !bool_decide_eq_true. set_solver.
Qed.

Lemma fstep_exists_grow p w p' w' :
  passed p w -> fstep loc description archive dim p w = Some (p', w') -> exists_grow w w'.
Proof.
  apply fstep_preserves; [exact _|apply os_makedirs_exists_grow|log_frame|].
  intros. apply fetch_remote_exists_grow.
Qed.

Lemma all_present_nil w : all_present w loc [].
Proof. intros ?? []%elem_of_nil. Qed.

(** A statement keeps what its own call has established and extends it. *)
Lemma fstep_passed p w p' w' :
  passed p w -> fstep loc description archive dim p w = Some (p', w') -> passed p' w'.
Proof.
  intros Hp Hs. pose proof (fstep_exists_grow p w p' w' Hp Hs) as Hg.
  destruct p as [| |[|[ft m] items] r|ft m items r|res]; intros;
    cbv beta iota zeta delta [fstep] in Hs; try discriminate Hs;
    apply (inj Some) in Hs; unfold resume in Hs.
  - unfold os_path_exists in Hs. injection Hs as <- <-.
    destruct (path_exists w loc); simpl; [|done]. exists []. split; [done|apply all_present_nil].
  - destruct (os_makedirs loc w) as [w1 [e|[]]]; injection Hs as <- <-; simpl; [done|].
    exists []. split; [done|apply all_present_nil].
  - destruct Hp as (pre & Hpre & Hall). rewrite app_nil_r in Hpre. subst pre.
    revert Hs. unfold module_path, codecs_read, read_file. py_simpl.
    repeat case_match; intros [= <- <-]; simpl; first [done|by eapply all_present_grow].
  - destruct Hp as (pre & -> & Hall). unfold os_path_exists in Hs.
    destruct (path_exists w (join loc (filename m))) eqn:E; [|destruct dim];
      injection Hs as <- <-; simpl; [|by exists pre|done].
    exists (pre ++ [(ft, m)]). split; [by rewrite <- app_assoc|by apply all_present_snoc].
  - destruct Hp as (pre & -> & Hall). unfold logger_info in Hs. py_simpl in Hs.
    destruct (fetch_remote m loc false _) as [w1 [e|q]] eqn:Hrun; injection Hs as <- <-;
      simpl; [done|].
    exists (pre ++ [(ft, m)]). split; [by rewrite <- app_assoc|].
    apply all_present_snoc; [by apply (all_present_grow w)|].
    destruct (fetch_remote_ok _ _ _ _ _ _ Hrun) as [-> (b & Hb & _)].
    unfold path_exists, is_file. unfold final_path in Hb. by rewrite Hb, orb_true_r.
Qed.

End Shared.
