(* ===== verification/SharedCache.v ===== *)
(** * Two fetch calls on one cache, the downloaders statement by statement

    [Interleaving] takes each [_fetch_remote] call as one atomic step.  Here
    a call of [fetch_<name>] is the statements of [fetch_into] (as in
    [Interleaving]) in which the download is the statements of
    [DownloadSteps]: the log record, the cache check, each [mkstemp]
    candidate, the GET, the write of the temporary file, the
    [os.replace] and the removals.  Two calls interleave at that grain.

    The specification's argument for the shared cache is that the
    temporary file is private to its download and the final placement is
    one [os.replace]: a final path only ever receives a verified file.  The
    invariant [ginv] makes that argument: each download's temporary file is
    one of its [mkstemp] candidates, it exists, it is not the other call's
    temporary file, and before the [os.replace] it holds the verified
    body; no temporary name is a final name ([temps_apart_all]).
    Theorems: one call alone at this grain is [fetch_into]
    ([gsolo_fetch_into_equiv]); in every interleaving the cache stays
    verified, a call that has returned finds all its files and the two
    downloads hold different temporary files ([shared_cache_safe]). *)

From stdpp Require Import base gmap strings list relations.
From S2P Require Import Prelude Filesystem Utf8 Remote Bunch CacheLocator Fetcher Downloader DownloadSteps Datasets Interleaving.
Local Open Scope py_scope.

(** No temporary name [mkstemp] may try is a final name of the archive. *)
Definition temps_apart_all (loc : path) (items : Archive) : Prop :=
  forall it1 it2 i, it1 ∈ items -> it2 ∈ items -> i < TMP_MAX ->
    temp_candidate it1.2 loc i <> final_path it2.2 loc.

(** [temps_apart_all] as a check. *)
Definition temps_apartb (loc : path) (items : Archive) : bool :=
  forallb (fun it1 => forallb (fun it2 => forallb (fun i =>
    negb (bool_decide (temp_candidate it1.2 loc i = final_path it2.2 loc))) (seq 0 TMP_MAX)) items) items.

Lemma temps_apartb_spec loc items : temps_apartb loc items = true -> temps_apart_all loc items.
Proof.
  unfold temps_apartb. rewrite forallb_forall. intros Hall it1 it2 i H1 H2 Hi.
  apply list_elem_of_In in H1, H2. specialize (Hall it1 H1). rewrite forallb_forall in Hall.
  specialize (Hall it2 H2). rewrite forallb_forall in Hall.
  specialize (Hall i ltac:(apply in_seq; lia)). apply negb_true_iff, bool_decide_eq_false in Hall. done.
Qed.

(** The temporary file a downloader state holds. *)
Definition holds (q : dpc) : option path :=
  match q with
  | DGet _ _ t | DResp _ _ t _ | DRemove _ _ t | DReject t _ | DPlace t | DCleanup t _ => Some t
  | _ => None
  end.

Section Temps.
Context `{Digest} (m : RemoteFileMetadata) (loc : path).

(** A downloader state's facts about its temporary file: it is one of the
    [mkstemp] candidates, it exists, and before the [os.replace] it holds a
    verified body; [mkstemp] counts its candidates. *)
Definition temp_ok (q : dpc) (w : World) : Prop :=
  (match q with DTemp _ _ j i => i + j = TMP_MAX | _ => True end) /\
  match holds q with
  | None => True
  | Some t =>
      (exists i, i < TMP_MAX /\ t = temp_candidate m loc i) /\ is_Some (w_files w !! t) /\
      match q with
      | DPlace _ => exists b, w_files w !! t = Some b /\ sha256 b = checksum m
      | _ => True
      end
  end.

Lemma temp_ok_attempt n k w : temp_ok (attempt m n k) w.
Proof. destruct n; split; simpl; done. Qed.

Lemma temp_ok_retry n k w : temp_ok (retry m n k) w.
Proof. destruct n; split; simpl; done. Qed.

Lemma temp_ok_done r w : temp_ok (DDone r) w.
Proof. by split. Qed.

#[local] Hint Resolve temp_ok_attempt temp_ok_retry temp_ok_done : core.

(** What one statement of the downloader does to the files: it keeps
    every file but its temporary files and the final path; a temporary
    file it starts holding did not exist; the final path is never removed
    and only receives a verified body; when it returns, the final file is
    there. *)
Record dstep_effect (q : dpc) (w : World) (q' : dpc) (w' : World) : Prop := {
  de_temp : temp_ok q' w';
  de_dirs : w_dirs w' = w_dirs w;
  de_frame : forall x, holds q <> Some x -> holds q' <> Some x -> x <> final_path m loc ->
               w_files w' !! x = w_files w !! x;
  de_fresh : forall t, holds q' = Some t -> holds q <> Some t -> w_files w !! t = None /\ t ∉ w_dirs w;
  de_final : forall b, w_files w' !! final_path m loc = Some b ->
               w_files w !! final_path m loc = Some b \/ sha256 b = checksum m;
  de_final_kept : is_Some (w_files w !! final_path m loc) -> is_Some (w_files w' !! final_path m loc);
  de_done : forall p, q' = DDone (inr p) -> is_file w' (final_path m loc) = true
}.

(** A statement that changes no file and ends without a temporary file. *)
Lemma dstep_effect_same q w q' :
  temp_ok q' w -> holds q' = None -> (forall p, q' <> DDone (inr p)) -> dstep_effect q w q' w.
Proof.
  intros Hok Hh Hd. split; try done;
    [intros t Ht; by rewrite Hh in Ht|intros b Hb; by left|intros p Hp; by destruct (Hd p)].
Qed.

(** A statement that changes no file and keeps its temporary file. *)
Lemma dstep_effect_keep q w q' w' :
  temp_ok q' w' -> w_files w' = w_files w -> w_dirs w' = w_dirs w -> holds q' = holds q ->
  (forall p, q' <> DDone (inr p)) -> dstep_effect q w q' w'.
Proof.
  intros Hok Hf Hd Hh Hn. split; try done.
  - intros x _ _ _. by rewrite Hf.
  - intros t Ht Ht'. by rewrite Hh in Ht.
  - intros b Hb. left. by rewrite <- Hf.
  - by rewrite Hf.
  - intros p Hp. by destruct (Hn p).
Qed.

(** The cache check finds the final file. *)
Lemma dstep_effect_cached q w :
  is_file w (final_path m loc) = true -> dstep_effect q w (DDone (inr (final_path m loc))) w.
Proof. intros Hf. split; try done; intros; by left. Qed.

Lemma temp_ne_final' i : temp_candidate m loc i <> final_path m loc.
Proof. apply temp_ne_final. Qed.

(** A statement that writes [b] into its temporary file [t]: the one it
    holds, or a fresh [mkstemp] candidate. *)
Lemma dstep_effect_write q w q' t b i :
  i < TMP_MAX -> t = temp_candidate m loc i -> holds q' = Some t ->
  (holds q = Some t \/ (holds q = None /\ w_files w !! t = None /\ t ∉ w_dirs w)) ->
  (match q' with DTemp _ _ j i => i + j = TMP_MAX | _ => True end) ->
  (match q' with DPlace _ => sha256 b = checksum m | _ => True end) ->
  (forall p, q' <> DDone (inr p)) ->
  dstep_effect q w q' (with_files (<[t := b]> (w_files w)) w).
Proof.
  intros Hi -> Hh' Hh Hpc Hpl Hn. pose proof (temp_ne_final' i) as Hne. split.
  - split; [done|]. rewrite Hh'. cbn [w_files with_files]. rewrite lookup_insert_eq. split_and!; [eauto|done|].
    destruct q'; try done. simpl in Hpl. eauto.
  - done.
  - intros x Hx Hx' _. cbn [w_files with_files]. rewrite lookup_insert_ne; [done|]. intros <-. by apply Hx'.
  - intros t' Ht' Hnot. rewrite Hh' in Ht'. injection Ht' as <-. destruct Hh as [Hh|[_ ?]]; [done|done].
  - intros b' Hb'. left. cbn [w_files with_files] in Hb'. by rewrite lookup_insert_ne in Hb'.
  - cbn [w_files with_files]. by rewrite lookup_insert_ne.
  - intros p Hp. by destruct (Hn p).
Qed.

(** A statement that removes the temporary file it holds. *)
Lemma dstep_effect_remove q w q' t :
  holds q = Some t -> (exists i, t = temp_candidate m loc i) -> holds q' = None ->
  temp_ok q' w -> (forall p, q' <> DDone (inr p)) ->
  dstep_effect q w q' (with_files (delete t (w_files w)) w).
Proof.
  intros Hh [i ->] Hh' [Hpc _] Hn. pose proof (temp_ne_final' i) as Hne. split.
  - split; [done|]. by rewrite Hh'.
  - done.
  - intros x Hx _ _. cbn [w_files with_files]. rewrite lookup_delete_ne; [done|]. intros <-. by apply Hx.
  - intros t' Ht'. by rewrite Hh' in Ht'.
  - intros b' Hb'. left. cbn [w_files with_files] in Hb'. by rewrite lookup_delete_ne in Hb'.
  - cbn [w_files with_files]. by rewrite lookup_delete_ne.
  - intros p Hp. by destruct (Hn p).
Qed.
(** The [os.replace] of a verified temporary file onto the final path. *)
Lemma dstep_effect_place t w b :
  w_files w !! t = Some b -> sha256 b = checksum m ->
  dstep_effect (DPlace t) w (DDone (inr (final_path m loc)))
    (with_files (<[final_path m loc := b]> (delete t (w_files w))) w).
Proof.
  intros Hb Hsha. split; try done.
  - intros x Hx _ Hxf. cbn [w_files with_files].
    rewrite lookup_insert_ne by done. rewrite lookup_delete_ne; [done|]. intros <-. by apply Hx.
  - intros b' Hb'. right. cbn [w_files with_files] in Hb'. rewrite lookup_insert_eq in Hb'. by injection Hb' as <-.
  - cbn [w_files with_files]. by rewrite lookup_insert_eq.
  - intros p _. unfold is_file. cbn [w_files with_files]. by rewrite lookup_insert_eq.
Qed.

Lemma path_exists_false_fresh w p :
  path_exists w p = false -> w_files w !! p = None /\ p ∉ w_dirs w.
Proof.
  unfold path_exists, is_dir, is_file. intros [Hd Hf]%orb_false_elim.
  apply bool_decide_eq_false in Hd. split; [|done]. by destruct (w_files w !! p).
Qed.

(** One statement of the downloader, and its effect on the files. *)
Lemma dstep_spec q w q' w' :
  temp_ok q w -> dstep m loc q w = Some (q', w') -> dstep_effect q w q' w'.
Proof.
  intros [Hpc Hok] Hs.
  destruct q as [force|n k [|j] i|n k t|n k t resp|n k t|t dg|t|t e|n k|r];
    cbn [dstep] in Hs; try discriminate Hs; try apply (inj Some) in Hs; unfold dresume in Hs.
  - destruct (negb force && is_file w _) eqn:E; injection Hs as <- <-.
    + apply andb_prop in E as [_ E]. by apply dstep_effect_cached.
    + apply dstep_effect_same; [exact (temp_ok_attempt (S MAX_RETRIES) 0 w)|done|by intros ? [=]].
  - injection Hs as <- <-. apply dstep_effect_same; [done|done|by intros ? [=]].
  - destruct (path_exists w (temp_candidate m loc i)) eqn:E.
    + injection Hs as <- <-. apply dstep_effect_same; [split; [simpl in *; lia|done]|done|by intros ? [=]].
    + destruct (write_file _ [] w) as [w1 r1] eqn:Hw.
      apply write_file_inv in Hw as [(-> & _ & _ & _ & ->)|(-> & e & ->)]; injection Hs as <- <-.
      * apply path_exists_false_fresh in E.
        eapply (dstep_effect_write _ _ _ _ _ i); [simpl in *; lia|done|done|by right|done|done|by intros ? [=]].
      * apply dstep_effect_same; [done|done|by intros ? [=]].
  - destruct (http_get (url m) w) as [w1 r1] eqn:Hg.
    pose proof Hg as (resp & -> & Hf & Hd & _)%http_get_inv. injection Hs as <- <-.
    apply dstep_effect_keep; [|done|done|done|by intros ? [=]].
    destruct Hok as (Hi & Hsome & _). split; [done|]. simpl. by rewrite Hf.
  - destruct Hok as ((i & Hi & ->) & Hsome & _).
    destruct resp as [body|partial| | |code]; apply (inj Some) in Hs.
    + destruct (write_file _ body w) as [w1 r1] eqn:Hw.
      apply write_file_inv in Hw as [(-> & _ & _ & _ & ->)|(-> & e & ->)].
      * destruct (String.eqb_spec (sha256 body) (checksum m)); injection Hs as <- <-;
          (eapply (dstep_effect_write _ _ _ _ _ i); [done|done|done|by left|done|done|by intros ? [=]]).
      * injection Hs as <- <-. apply dstep_effect_same; [done|done|by intros ? [=]].
    + destruct (write_file _ partial w) as [w1 r1] eqn:Hw.
      apply write_file_inv in Hw as [(-> & _ & _ & _ & ->)|(-> & e & ->)]; injection Hs as <- <-.
      * eapply (dstep_effect_write _ _ _ _ _ i); [done|done|done|by left|done|done|by intros ? [=]].
      * apply dstep_effect_same; [done|done|by intros ? [=]].
    + destruct (os_remove _ w) as [w1 r1] eqn:Hr.
      apply os_remove_inv in Hr as [(-> & _ & ->)|(-> & e & ->)]; injection Hs as <- <-.
      * apply dstep_effect_remove; [done|eauto|by destruct n|apply temp_ok_retry|by destruct n].
      * apply dstep_effect_same; [done|done|by intros ? [=]].
    + destruct (os_remove _ w) as [w1 r1] eqn:Hr.
      apply os_remove_inv in Hr as [(-> & _ & ->)|(-> & e & ->)]; injection Hs as <- <-.
      * apply dstep_effect_remove; [done|eauto|by destruct n|apply temp_ok_retry|by destruct n].
      * apply dstep_effect_same; [done|done|by intros ? [=]].
    + destruct (os_remove _ w) as [w1 r1] eqn:Hr.
      apply os_remove_inv in Hr as [(-> & _ & ->)|(-> & e & ->)]; injection Hs as <- <-.
      * apply dstep_effect_remove; [done|eauto|by destruct n|apply temp_ok_retry|by destruct n].
      * apply dstep_effect_same; [done|done|by intros ? [=]].
  - destruct Hok as ((i & Hi & ->) & Hsome & _).
    destruct (os_remove _ w) as [w1 r1] eqn:Hr.
    apply os_remove_inv in Hr as [(-> & _ & ->)|(-> & e & ->)]; injection Hs as <- <-.
    + apply dstep_effect_remove; [done|eauto|by destruct n|apply temp_ok_retry|by destruct n].
    + apply dstep_effect_same; [done|done|by intros ? [=]].
  - destruct Hok as ((i & Hi & ->) & Hsome & _).
    destruct (os_remove _ w) as [w1 r1] eqn:Hr.
    apply os_remove_inv in Hr as [(-> & _ & ->)|(-> & e & ->)]; injection Hs as <- <-.
    + apply dstep_effect_remove; [done|eauto|done|done|by intros ? [=]].
    + apply dstep_effect_same; [done|done|by intros ? [=]].
  - destruct Hok as ((i & Hi & ->) & Hsome & (b & Hb & Hsha)).
    destruct (os_replace _ _ w) as [w1 r1] eqn:Hr.
    apply os_replace_inv in Hr as [(-> & _ & _ & b' & Hb' & ->)|(-> & e & ->)]; injection Hs as <- <-.
    + rewrite Hb in Hb'. injection Hb' as <-. by apply dstep_effect_place.
    + apply dstep_effect_keep; [|done|done|done|by intros ? [=]]. split; [done|]. simpl. eauto.
  - destruct Hok as ((i & Hi & ->) & Hsome & _).
    destruct (os_remove _ w) as [w1 r1] eqn:Hr.
    apply os_remove_inv in Hr as [(-> & _ & ->)|(-> & e' & ->)]; injection Hs as <- <-.
    + apply dstep_effect_remove; [done|eauto|done|done|by intros ? [=]].
    + apply dstep_effect_same; [done|done|by intros ? [=]].
  - injection Hs as <- <-. apply dstep_effect_keep; [apply temp_ok_attempt|done|done|by destruct n|].
    destruct n; by intros ? [=].
Qed.
End Temps.

(** Program points of a call whose downloads run statement by statement. *)
Inductive gpc :=
| GCall (p : fpc)                                  (* a statement of [fetch_into] *)
| GDl (file_type : string) (meta : RemoteFileMetadata)
      (items : Archive) (records : Bunch) (q : dpc).  (* inside [_fetch_remote(meta, ...)] *)

(** The temporary file a call's download holds. *)
Definition gtemp (p : gpc) : option path :=
  match p with GDl _ _ _ _ q => holds q | GCall _ => None end.

Section Race.
Context `{Digest} (loc : path) (description : string) (archive : Archive) (dim : bool).

(** Back in [fetch_into] when the downloader returns or raises. *)
Definition dl_next (ft : string) (m : RemoteFileMetadata) (items : Archive) (records : Bunch)
    (c : dpc * World) : gpc * World :=
  match c with
  | (DDone (inr _), w) => (GCall (FFile items records), w)
  | (DDone (inl e), w) => (GCall (FDone (inl e)), w)
  | (q, w) => (GDl ft m items records q, w)
  end.

(** One statement of a call: [logger.info] starts the download, whose
    statements follow; every other statement is [fstep]'s. *)
Definition gstep (p : gpc) (w : World) : option (gpc * World) :=
  match p with
  | GCall (FDownload ft m items records) =>
      Some (GDl ft m items records (DStart false),
            (logger_info (download_message ft m (join loc (filename m))) w).1)
  | GCall p => (fun c => (GCall c.1, c.2)) <$> fstep (D := downloader_impl) loc description archive dim p w
  | GDl ft m items records q => dl_next ft m items records <$> dstep m loc q w
  end.

(** Two calls: either takes its next statement. *)
Definition gstep2 : relation (gpc * gpc * World) := interleave gstep gstep.

Lemma gstep_call p w :
  (forall ft m items r, p <> FDownload ft m items r) ->
  gstep (GCall p) w = (fun c => (GCall c.1, c.2)) <$> fstep (D := downloader_impl) loc description archive dim p w.
Proof. intros Hnd. destruct p as [| | |ft m items r|]; try done. by destruct (Hnd ft m items r). Qed.

(** ** One call alone is [fetch_into] *)

(** A call on its own. *)
Definition gsolo : relation (gpc * World) := fun c c' => gstep c.1 c.2 = Some c'.

(** A run of the downloader is a run of the call, until it returns. *)
Lemma dsolo_gsolo ft m items r x res w' :
  rtc (dsolo m loc) x (DDone res, w') ->
  rtc gsolo (dl_next ft m items r x) (dl_next ft m items r (DDone res, w')).
Proof.
  induction 1 as [x|[q w] y z Hxy _ IH]; [apply rtc_refl|]. eapply rtc_l; [|exact IH].
  unfold dsolo in Hxy. unfold gsolo.
  cbn [fst snd] in Hxy. destruct q as [| | | | | | | | |r0]; [..|discriminate Hxy];
    cbn [dl_next fst snd gstep]; by rewrite Hxy.
Qed.

(** A statement of [fetch_into] is a run of the call: the download is its
    log record and then the downloader's statements. *)
Lemma solo_gsolo c c' :
  solo (D := downloader_impl) loc description archive dim c c' ->
  rtc gsolo (GCall c.1, c.2) (GCall c'.1, c'.2).
Proof.
  destruct c as [p w], c' as [p' w']. unfold solo. cbn [fst snd]. intros Hs.
  destruct (decide (is_Some (match p with FDownload ft m items r => Some (ft, m, items, r) | _ => None end)))
    as [[[[[ft m] items] r] Hp]|Hnd].
  - destruct p; try discriminate Hp. injection Hp as -> -> -> ->.
    revert Hs. cbn [fstep]. unfold resume.
    set (msg := download_message ft m (join loc (filename m))).
    assert (Hrun : (let* _ := logger_info msg in fetch_remote (Downloader := downloader_impl) m loc false) w =
                   fetch_remote_impl m loc false (log_world w msg)) by done.
    rewrite Hrun. destruct (fetch_remote_impl m loc false (log_world w msg)) as [w1 res] eqn:E.
    apply (fetch_remote_steps m loc), (dsolo_gsolo ft m items r) in E.
    intros Hs. eapply rtc_l; [unfold gsolo; reflexivity|].
    destruct res; injection Hs as <- <-; exact E.
  - apply rtc_once. unfold gsolo. cbn [fst snd].
    rewrite gstep_call by (intros ft m items r ->; apply Hnd; by eexists). by rewrite Hs.
Qed.

Lemma rtc_solo_gsolo c c' :
  rtc (solo (D := downloader_impl) loc description archive dim) c c' ->
  rtc gsolo (GCall c.1, c.2) (GCall c'.1, c'.2).
Proof. induction 1 as [|x y z Hxy _ IH]; [apply rtc_refl|]. eapply rtc_trans; [by apply solo_gsolo|exact IH]. Qed.

(** The model of a call with its downloads statement by statement is
    the code: a call of [fetch_into] (the body of [fetch_<name>]) with the
    downloader of [Downloader], running alone at the grain of the
    downloader's statements, ends in world [w'] with result [r] exactly when
    [fetch_into] returns [r] (or raises) in [w']. *)
Theorem gsolo_fetch_into_equiv w w' r :
  fetch_into (D := downloader_impl) loc description archive dim w = (w', r) <->
  rtc gsolo (GCall FCheckDir, w) (GCall (FDone r), w').
Proof.
  split; [intros E; exact (rtc_solo_gsolo (FCheckDir, w) (FDone r, w') (fetch_into_solo _ _ _ _ _ _ _ E))|].
  intros Hr. destruct (fetch_into loc description archive dim w) as [w'' r''] eqn:E.
  apply fetch_into_solo, (rtc_solo_gsolo (FCheckDir, w) (FDone r'', w'')) in E.
  by pose proof (rtc_fun_final (fun c => gstep c.1 c.2) _ _ _ Hr E eq_refl eq_refl) as [= -> ->].
Qed.

(** ** The invariant *)

(** What a call has established: [passed] of [Interleaving], and the
    facts about its download's temporary file. *)
Definition ginv1 (p : gpc) (w : World) : Prop :=
  match p with
  | GCall p => passed loc archive p w
  | GDl ft m items records q => passed loc archive (FDownload ft m items records) w /\ temp_ok m loc q w
  end.

(** The cache is verified, each call keeps what it has established, and
    the two calls never hold the same temporary file. *)
Definition ginv (c : gpc * gpc * World) : Prop :=
  cache_ok c.2 loc archive /\ ginv1 c.1.1 c.2 /\ ginv1 c.1.2 c.2 /\
  (forall t, gtemp c.1.1 = Some t -> gtemp c.1.2 <> Some t).

(** The final paths of the archive that exist keep existing. *)
Definition finals_kept (w w' : World) : Prop :=
  forall ft m, (ft, m) ∈ archive -> path_exists w (join loc (filename m)) = true ->
    path_exists w' (join loc (filename m)) = true.

Lemma passed_kept p w w' : finals_kept w w' -> passed loc archive p w -> passed loc archive p w'.
Proof.
  intros Hk. destruct p as [| |items r|ft m items r|[e|b]]; simpl; try done.
  - intros (pre & Ha & Hall). exists pre. split; [done|].
    intros ft m Hin. apply (Hk ft m); [rewrite Ha; apply elem_of_app; by left|by apply (Hall ft m)].
  - intros (pre & Ha & Hall). exists pre. split; [done|].
    intros ft' m' Hin. apply (Hk ft' m'); [rewrite Ha; apply elem_of_app; by left|by apply (Hall ft' m')].
  - intros Hall ft m Hin. apply (Hk ft m Hin). by apply (Hall ft m).
Qed.

(** A statement of [fetch_into] other than the download changes no file
    and only adds directories. *)
Lemma fstep_files p w p' w' :
  fstep (D := downloader_impl) loc description archive dim p w = Some (p', w') ->
  (forall ft m items r, p <> FDownload ft m items r) ->
  w_files w' = w_files w /\ w_dirs w ⊆ w_dirs w'.
Proof.
  intros Hs Hnd. destruct p as [| |[|[ft m] items] r|ft m items r|res];
    cbv beta iota zeta delta [fstep] in Hs; try discriminate Hs; apply (inj Some) in Hs; unfold resume in Hs.
  - unfold os_path_exists in Hs. by destruct (path_exists w loc); injection Hs as <- <-.
  - destruct (os_makedirs loc w) as [w1 r1] eqn:Hmk.
    assert (Hf : w_files w1 = w_files w) by (by apply (os_makedirs_keeps w_files) in Hmk).
    pose proof (makedirs_rev_dirs (rev loc) w w1 r1 Hmk) as [Hsub _].
    destruct r1; injection Hs as <- <-; done.
  - destruct ((let* md := module_path in codecs_read (join (join md "descr") description)) w)
      as [w1 r1] eqn:Hr.
    assert (w1 = w) as ->.
    { revert Hr. unfold module_path. py_simpl. intros Hr. by apply codecs_read_pure in Hr. }
    by destruct r1; injection Hs as <- <-.
  - unfold os_path_exists in Hs. destruct (path_exists w _); [|destruct dim];
      injection Hs as <- <-; done.
  - by destruct (Hnd ft m items r).
Qed.
(** Paths are monotone in the files and the directories. *)
Lemma path_exists_mono w w' x :
  (is_Some (w_files w !! x) -> is_Some (w_files w' !! x)) -> w_dirs w ⊆ w_dirs w' ->
  path_exists w x = true -> path_exists w' x = true.
Proof.
  intros Hf Hd. unfold path_exists, is_dir, is_file. rewrite !orb_true_iff, !bool_decide_eq_true.
  intros [Hx|Hx]; [left; set_solver|right].
  destruct (w_files w !! x) eqn:E; [|done]. destruct (Hf ltac:(by eexists)) as [? ->]. done.
Qed.

(** A download's temporary file is not a final path of the archive. *)
Lemma temp_not_final m q w t ft' m' :
  temps_apart_all loc archive -> (exists ft, (ft, m) ∈ archive) -> temp_ok m loc q w ->
  holds q = Some t -> (ft', m') ∈ archive -> t <> join loc (filename m').
Proof.
  intros Hap [ft Hm] [_ Hok] Ht Hm'. rewrite Ht in Hok. destruct Hok as ((i & Hi & ->) & _).
  exact (Hap (ft, m) (ft', m') i Hm Hm' Hi).
Qed.

(** What a statement of one call does, as the other call and the cache
    see it. *)
Record gstep_effect (p : gpc) (w : World) (p' : gpc) (w' : World) : Prop := {
  ge_own : ginv1 p' w';
  ge_frame : forall x, gtemp p <> Some x -> gtemp p' <> Some x ->
               (forall ft m, (ft, m) ∈ archive -> x <> join loc (filename m)) ->
               w_files w' !! x = w_files w !! x;
  ge_fresh : forall t, gtemp p' = Some t -> gtemp p <> Some t -> w_files w !! t = None;
  ge_finals : finals_kept w w';
  ge_cache : cache_ok w loc archive -> cache_ok w' loc archive
}.

(** A statement that changes no file. *)
Lemma gstep_effect_files p w p' w' :
  ginv1 p' w' -> w_files w' = w_files w -> w_dirs w ⊆ w_dirs w' -> gtemp p' = None ->
  gstep_effect p w p' w'.
Proof.
  intros Hown Hf Hd Ht. split; [done| |by rewrite Ht| |].
  - intros x _ _ _. by rewrite Hf.
  - intros ft m _. apply path_exists_mono; [by rewrite Hf|done].
  - intros Hok ft m b. rewrite Hf. apply Hok.
Qed.
Lemma passed_download_in ft m items r w :
  passed loc archive (FDownload ft m items r) w -> (ft, m) ∈ archive.
Proof. intros (pre & -> & _). apply elem_of_app. right. by left. Qed.

Lemma gtemp_dl_next ft m items r q w : gtemp (dl_next ft m items r (q, w)).1 = holds q.
Proof. by destruct q as [| | | | | | | | |[]]. Qed.

(** One statement of the download of [m]. *)
Lemma gstep_dl_effect ft m items r q w p' w' :
  archive_consistent archive -> temps_apart_all loc archive ->
  ginv1 (GDl ft m items r q) w -> gstep (GDl ft m items r q) w = Some (p', w') ->
  gstep_effect (GDl ft m items r q) w p' w'.
Proof.
  intros Hcons Hap [Hpass Hok] Hs. pose proof (passed_download_in _ _ _ _ _ Hpass) as Hin.
  simpl in Hs. destruct (dstep m loc q w) as [[q' w1]|] eqn:Hd; [|discriminate Hs].
  simpl in Hs. apply (inj Some) in Hs.
  pose proof (dstep_spec m loc q w q' w1 Hok Hd) as E.
  assert (Hw' : w' = w1) by (destruct q' as [| | | | | | | | |[]]; by injection Hs). subst w'.
  assert (Hgt : gtemp p' = holds q') by (destruct q' as [| | | | | | | | |[]]; by injection Hs as <-).
  assert (Hnf : forall t ft' m', (holds q = Some t \/ holds q' = Some t) -> (ft', m') ∈ archive ->
                  t <> join loc (filename m')).
  { intros t ft' m' [Ht|Ht] Hm'; [eapply (temp_not_final m q w)|eapply (temp_not_final m q' w1)];
      eauto using de_temp. }
  (* the final paths *)
  assert (Hfin : forall ft' m', (ft', m') ∈ archive ->
            join loc (filename m') = final_path m loc \/
            w_files w1 !! join loc (filename m') = w_files w !! join loc (filename m')).
  { intros ft' m' Hm'. destruct (decide (join loc (filename m') = final_path m loc)) as [|Hne]; [by left|].
    right. apply (de_frame _ _ _ _ _ _ E); [intros Ht|intros Ht|done]; eapply Hnf; eauto. }
  assert (Hkept : finals_kept w w1).
  { intros ft' m' Hm'. apply path_exists_mono; [|by rewrite (de_dirs _ _ _ _ _ _ E)].
    destruct (Hfin ft' m' Hm') as [Heq | Heq]; [rewrite Heq; apply (de_final_kept _ _ _ _ _ _ E)|by rewrite Heq]. }
  split.
  - revert Hs. destruct q' as [| | | | | | | | |[e|p0]]; intros Hs; injection Hs as <-; cbn [ginv1];
      try (split; [by apply (passed_kept _ w)|exact (de_temp _ _ _ _ _ _ E)]); [exact I|].
    simpl. destruct Hpass as (pre & Ha & Hall). exists (pre ++ [(ft, m)]).
    split; [by rewrite Ha, <- app_assoc|].
    apply all_present_snoc.
    + intros ft' m' Hm'. apply (Hkept ft' m'); [rewrite Ha; apply elem_of_app; by left|by apply (Hall ft' m')].
    + unfold path_exists. change (join loc (filename m)) with (final_path m loc).
      by rewrite (de_done _ _ _ _ _ _ E p0 eq_refl), orb_true_r.
  - intros x Hx Hx' Hxf. rewrite Hgt in Hx'. apply (de_frame _ _ _ _ _ _ E); [done|done|].
    intros Heq. by apply (Hxf ft m Hin).
  - intros t Ht Hnt. rewrite Hgt in Ht. by apply (de_fresh _ _ _ _ _ _ E).
  - exact Hkept.
  - intros Hc ft' m' b Hm' Hb. destruct (Hfin ft' m' Hm') as [Heq|Heq]; [|rewrite Heq in Hb; eauto].
    rewrite Heq in Hb. destruct (de_final _ _ _ _ _ _ E b Hb) as [Hold|Hsha].
    + rewrite <- Heq in Hold. eauto.
    + rewrite Hsha. apply (Hcons ft m ft' m' Hin Hm'). unfold final_path, join in Heq.
      by apply app_inj_tail in Heq as [_ <-].
Qed.

(** One statement of a call. *)
Lemma gstep_spec p w p' w' :
  archive_consistent archive -> temps_apart_all loc archive ->
  ginv1 p w -> gstep p w = Some (p', w') -> gstep_effect p w p' w'.
Proof.
  intros Hcons Hap Hinv Hs. destruct p as [p0|ft m items r q]; [|by apply gstep_dl_effect].
  destruct (decide (is_Some (match p0 with FDownload ft m items r => Some (ft, m, items, r) | _ => None end)))
    as [[[[[ft m] items] r] Hp]|Hnd].
  - destruct p0; try discriminate Hp. injection Hp as -> -> -> ->.
    simpl in Hs. injection Hs as <- <-. unfold logger_info, pmodify.
    apply gstep_effect_files; [|done|done|done]. split; [|done].
    apply (passed_kept _ w); [|done]. intros ft' m' _. apply path_exists_mono; done.
  - rewrite gstep_call in Hs by (intros ft m items r ->; apply Hnd; by eexists).
    destruct (fstep loc description archive dim p0 w) as [[p1 w1]|] eqn:Hf; [|discriminate Hs].
    injection Hs as <- <-.
    destruct (fstep_files _ _ _ _ Hf) as [Hfiles Hdirs];
      [intros ft m items r ->; apply Hnd; by eexists|].
    apply gstep_effect_files; [|done|done|done]. simpl. eapply fstep_passed; [exact Hinv|exact Hf].
Qed.

(** The other call keeps its facts across a statement of this one, and
    the two temporary files stay apart. *)
Lemma other_kept pA w pA' w' pB :
  temps_apart_all loc archive -> gstep_effect pA w pA' w' -> ginv1 pB w ->
  (forall t, gtemp pA = Some t -> gtemp pB <> Some t) ->
  ginv1 pB w' /\ (forall t, gtemp pA' = Some t -> gtemp pB <> Some t).
Proof.
  intros Hap E HB Hapart.
  assert (Hdis : forall t, gtemp pA' = Some t -> gtemp pB = Some t -> False).
  { intros t Ht HtB. destruct (decide (gtemp pA = Some t)) as [HtA|HtA]; [by apply (Hapart t)|].
    pose proof (ge_fresh _ _ _ _ E t Ht HtA) as Hnone.
    destruct pB as [|ftB mB itB rB qB]; [discriminate HtB|]. destruct HB as [_ [_ HokB]].
    simpl in HtB. rewrite HtB in HokB. destruct HokB as (_ & [b Hb] & _). by rewrite Hnone in Hb. }
  split; [|intros t Ht HtB; by apply (Hdis t)].
  destruct pB as [pB|ftB mB itB rB qB]; cbn [ginv1 gtemp] in *;
    [exact (passed_kept _ _ _ (ge_finals _ _ _ _ E) HB)|].
  destruct HB as [Hpass HokB].
  assert (Hnf : forall tB ft' m', holds qB = Some tB -> (ft', m') ∈ archive -> tB <> join loc (filename m')).
  { intros tB ft' m' HtB Hm'. eapply (temp_not_final mB qB w); [done| |exact HokB|exact HtB|exact Hm'].
    exists ftB. by apply passed_download_in in Hpass. }
  split; [exact (passed_kept _ _ _ (ge_finals _ _ _ _ E) Hpass)|].
  destruct HokB as [Hpc Hok]. split; [done|]. destruct (holds qB) as [tB|] eqn:HtB; [|done].
  assert (Hsame : w_files w' !! tB = w_files w !! tB).
  { apply (ge_frame _ _ _ _ E); [intros HtA; by apply (Hapart tB)|intros HtA; by apply (Hdis tB)|].
    intros ft' m' Hm'. by apply (Hnf tB ft' m'). }
  by rewrite Hsame.
Qed.
End Race.

Section RaceInv.
Context `{Digest} (loc : path) (description : string) (archive : Archive) (dim : bool).
Context (Hcons : archive_consistent archive) (Hap : temps_apart_all loc archive).

Lemma apart_sym (pA pB : gpc) :
  (forall t, gtemp pA = Some t -> gtemp pB <> Some t) -> forall t, gtemp pB = Some t -> gtemp pA <> Some t.
Proof. intros Hd t HB HA. by apply (Hd t). Qed.

Lemma gstep2_inv c c' : gstep2 loc description archive dim c c' -> ginv loc archive c -> ginv loc archive c'.
Proof.
  intros [p1 p2 w p1' w' Hs|p1 p2 w p2' w' Hs] (Hok & H1 & H2 & Hd); cbn [fst snd] in *.
  - pose proof (gstep_spec _ _ _ _ _ _ _ _ Hcons Hap H1 Hs) as E.
    destruct (other_kept _ _ _ _ _ _ _ Hap E H2 Hd) as [H2' Hd'].
    split_and!; [by apply (ge_cache _ _ _ _ _ _ E)|exact (ge_own _ _ _ _ _ _ E)|exact H2'|exact Hd'].
  - pose proof (gstep_spec _ _ _ _ _ _ _ _ Hcons Hap H2 Hs) as E.
    destruct (other_kept _ _ _ _ _ _ _ Hap E H1 (apart_sym _ _ Hd)) as [H1' Hd'].
    split_and!; [by apply (ge_cache _ _ _ _ _ _ E)|exact H1'|exact (ge_own _ _ _ _ _ _ E)|].
    by apply apart_sym.
Qed.

Lemma rtc_ginv c c' : rtc (gstep2 loc description archive dim) c c' -> ginv loc archive c -> ginv loc archive c'.
Proof. induction 1; eauto using gstep2_inv. Qed.

(** C20: two calls on one cache, their downloads statement by statement.
    In every interleaving of the statements of two calls of [fetch_<name>]
    (the downloads' [mkstemp] candidates, GETs, writes, [os.replace]s and
    removals included) that start on a cache consistent with the checksums,
    where no temporary name is a final name: the cache stays consistent
    with the checksums, a call that has returned finds every file of
    [ARCHIVE] in place, and the two downloads never hold the same temporary
    file. *)
Theorem shared_cache_safe w c :
  cache_ok w loc archive ->
  rtc (gstep2 loc description archive dim) (GCall FCheckDir, GCall FCheckDir, w) c ->
  cache_ok c.2 loc archive /\
  (forall b, c.1.1 = GCall (FDone (inr b)) \/ c.1.2 = GCall (FDone (inr b)) ->
     all_present c.2 loc archive) /\
  (forall t, gtemp c.1.1 = Some t -> gtemp c.1.2 <> Some t).
Proof.
  intros Hok Hr. destruct (rtc_ginv _ _ Hr) as (Hc & H1 & H2 & Hd); [by split_and!|].
  destruct c as [[p1 p2] w'']. cbn [fst snd] in *. split_and!; [done| |done].
  by intros b [-> | ->].
Qed.
End RaceInv.

(** Witness: two calls of [fetch_adk_equilibrium] on the fresh home, with
    a host that serves each file twice.  The first call creates the dataset
    directory before the second checks it; then their statements alternate:
    both find the topology missing, the first creates [adk4AKE.psf.part0],
    the second finds it taken and creates [adk4AKE.psf.part1], both
    download, verify and replace, and both return. *)
Section Witnesses.
#[local] Existing Instance text_digest.

Definition race_world : World := {|
  w_dirs := w_dirs fresh_world;
  w_files := w_files fresh_world;
  w_readonly := ∅;
  w_remote := list_to_map ((fun it => (url it.2, [Served (good it.2); Served (good it.2)])) <$>
                             AdkEquilibrium.ARCHIVE);
  w_trace := [];
  w_env_data_home := None;
  w_home := home;
  w_pkg_dir := pkg
|}.

Definition race_schedule : list bool :=
  replicate 4 true ++ replicate 4 false ++ concat (replicate 20 [true; false]).

Definition race_end : gpc * gpc * World :=
  Eval vm_compute in schedule (gstep adk_loc AdkEquilibrium.DESCRIPTION AdkEquilibrium.ARCHIVE true)
    (gstep adk_loc AdkEquilibrium.DESCRIPTION AdkEquilibrium.ARCHIVE true)
    race_schedule (GCall FCheckDir, GCall FCheckDir, race_world).

Lemma race_run :
  schedule (gstep adk_loc AdkEquilibrium.DESCRIPTION AdkEquilibrium.ARCHIVE true)
    (gstep adk_loc AdkEquilibrium.DESCRIPTION AdkEquilibrium.ARCHIVE true)
    race_schedule (GCall FCheckDir, GCall FCheckDir, race_world) = race_end.
Proof. vm_eq. Qed.

Lemma race_both_return : exists b1 b2, race_end.1.1 = GCall (FDone (inr b1)) /\ race_end.1.2 = GCall (FDone (inr b2)).
Proof. by do 2 eexists. Qed.

Lemma shared_cache_safe_witness :
  cache_ok race_end.2 adk_loc AdkEquilibrium.ARCHIVE /\
  (forall b, race_end.1.1 = GCall (FDone (inr b)) \/ race_end.1.2 = GCall (FDone (inr b)) ->
     all_present race_end.2 adk_loc AdkEquilibrium.ARCHIVE) /\
  (forall t, gtemp race_end.1.1 = Some t -> gtemp race_end.1.2 <> Some t).
Proof.
  refine (shared_cache_safe adk_loc AdkEquilibrium.DESCRIPTION AdkEquilibrium.ARCHIVE true _ _
            race_world race_end _ _).
  - apply archive_consistent_of_nodup. decide_concrete.
  - apply temps_apartb_spec. vm_eq.
  - apply cache_okb_spec. vm_eq.
  - rewrite <- race_run. apply schedule_rtc.
Defined.
End Witnesses.
