(* ===== verification/SharedTermination.v ===== *)
(** * Two calls on one cache always finish

    The interleaving of [SharedCache] runs two calls of [fetch_<name>] at
    the grain of the downloader's statements.  Every loop of the code is
    bounded: the loop over [ARCHIVE], the [TMP_MAX] candidates of
    [mkstemp], the [MAX_RETRIES + 1] attempts of [_fetch_remote].  The rank
    of a program point counts the statements it may still run
    ([drank] for the downloader, [grank] for a call); every statement
    lowers it.

    Theorem: every interleaving of two calls takes at most
    [2 * (3 + |ARCHIVE| * (drank (DStart false) + 3))] statements, that is
    [2 * (3 + 427 * |ARCHIVE|)] with [TMP_MAX = 100] and [MAX_RETRIES = 3]
    ([shared_cache_terminates]). *)

From stdpp Require Import base gmap strings list relations.
From S2P Require Import Prelude Filesystem Utf8 Remote Bunch CacheLocator Fetcher Downloader DownloadSteps Datasets Interleaving SharedCache.
Local Open Scope py_scope.

(** ** Ranks *)

(** Statements left from [attempt n k]: each attempt tries at most
    [TMP_MAX] names, then creates the file, GETs, writes and either places
    the file (and may clean up), or removes it; a retry sleeps first. *)
Fixpoint arank (n : nat) : nat :=
  match n with
  | 0 => 0
  | S n' => TMP_MAX + 5 + match n' with 0 => 0 | S _ => 1 + arank n' end
  end.

(** Statements left from [retry n k]. *)
Definition rrank (n : nat) : nat := match n with 0 => 0 | S _ => 1 + arank n end.

(** Statements a downloader state may still run. *)
Definition drank (q : dpc) : nat :=
  match q with
  | DStart _ => 1 + arank (S MAX_RETRIES)
  | DTemp n _ j _ => j + 5 + rrank n
  | DGet n _ _ => 4 + rrank n
  | DResp n _ _ _ => 3 + rrank n
  | DRemove n _ _ => 1 + rrank n
  | DReject _ _ | DCleanup _ _ => 1
  | DPlace _ => 2
  | DSleep n _ => 1 + arank n
  | DDone _ => 0
  end.

(** The statements of one download. *)
Definition DL : nat := drank (DStart false).

Lemma DL_value : DL = 424.
Proof. reflexivity. Qed.

(** Statements a call may still run: the loop over the roles left, each at
    most its check, its log record and its download; the prologue; the
    description read. *)
Definition loop_rank (items : Archive) : nat := 1 + length items * (DL + 3).

Definition grank (archive : Archive) (p : gpc) : nat :=
  match p with
  | GCall FCheckDir => 2 + loop_rank archive
  | GCall FMakeDir => 1 + loop_rank archive
  | GCall (FFile items _) => loop_rank items
  | GCall (FDownload _ _ rest _) => DL + 2 + loop_rank rest
  | GCall (FDone _) => 0
  | GDl _ _ rest _ q => drank q + 1 + loop_rank rest
  end.

(** ** Every statement lowers the rank *)

Section Rank.
Context `{Digest} (m : RemoteFileMetadata) (loc : path).

Lemma drank_attempt n k : drank (attempt m n k) = arank n.
Proof. by destruct n. Qed.

Lemma drank_retry n k : drank (retry m n k) = rrank n.
Proof. by destruct n. Qed.

Lemma dresume_rank {A} (mm : M A) kk w r :
  (forall a, drank (kk a) < r) -> 0 < r -> drank (dresume mm kk w).1 < r.
Proof. intros Hk Hr. unfold dresume. destruct (mm w) as [w' [e|a]]; [simpl; lia|apply Hk]. Qed.

(** A statement that runs [mm] and goes on at [kk], or ends. *)
Ltac dresume_rank_tac :=
  first [ apply dresume_rank;
            [intros; rewrite ?drank_attempt, ?drank_retry; try destruct (String.eqb _ _); cbn [drank]; lia
            |cbn [drank]; lia]
        | cbn [fst]; rewrite ?drank_attempt; cbn [drank]; lia ].

Lemma dstep_rank q w q' w' : dstep m loc q w = Some (q', w') -> drank q' < drank q.
Proof.
  intros Hs.
  destruct q as [force|n k [|j] i|n k t|n k t resp|n k t|t dg|t|t e|n k|r];
    cbn [dstep] in Hs; cbv zeta in Hs; try discriminate Hs; try destruct resp;
    apply (inj Some), (f_equal fst) in Hs; cbn [fst] in Hs; subst q';
    repeat match goal with |- context [if ?b then _ else _] => destruct b end;
    try (destruct (os_replace _ _ w) as [? [?|?]]); dresume_rank_tac.
Qed.
End Rank.

Section CallRank.
Context `{Digest} (loc : path) (description : string) (archive : Archive) (dim : bool).

Lemma resume_rank {A} (mm : M A) k w r :
  (forall a, grank archive (GCall (k a)) < r) -> 0 < r -> grank archive (GCall (resume mm k w).1) < r.
Proof. intros Hk Hr. unfold resume. destruct (mm w) as [w' [e|a]]; [simpl; lia|apply Hk]. Qed.

(** A statement of [fetch_into] lowers the rank. *)
Lemma fstep_rank p w p' w' :
  fstep (D := downloader_impl) loc description archive dim p w = Some (p', w') ->
  grank archive (GCall p') < grank archive (GCall p).
Proof.
  intros Hs. destruct p as [| |[|[ft m] items] r|ft m items r|res];
    cbv beta iota zeta delta [fstep] in Hs; try discriminate Hs;
    apply (inj Some), (f_equal fst) in Hs; cbn [fst] in Hs; subst p';
    apply resume_rank; intros; repeat (case_match; simplify_eq);
    cbn [grank]; unfold loop_rank; rewrite ?DL_value; cbn [length]; lia.
Qed.

(** The rank of the call once the downloader is at [q]. *)
Lemma dl_next_rank ft m items r q w :
  grank archive (dl_next ft m items r (q, w)).1 <= drank q + 1 + loop_rank items.
Proof. destruct q as [| | | | | | | | |[]]; cbn [dl_next fst grank]; lia. Qed.

(** A statement of a call lowers its rank. *)
Lemma gstep_rank p w p' w' :
  gstep loc description archive dim p w = Some (p', w') -> grank archive p' < grank archive p.
Proof.
  intros Hs. destruct p as [p0|ft m items r q].
  - destruct (decide (is_Some (match p0 with FDownload ft m items r => Some (ft, m, items, r) | _ => None end)))
      as [[[[[ft m] items] r] Hp]|Hnd].
    + destruct p0; try discriminate Hp. injection Hp as -> -> -> ->.
      cbn [gstep] in Hs. injection Hs as <- _. cbn [grank]. unfold DL. lia.
    + rewrite gstep_call in Hs by (intros ft m items r ->; apply Hnd; by eexists).
      destruct (fstep loc description archive dim p0 w) as [[p1 w1]|] eqn:Hf; [|discriminate Hs].
      injection Hs as <- _. exact (fstep_rank _ _ _ _ Hf).
  - cbn [gstep] in Hs. destruct (dstep m loc q w) as [[q' w1]|] eqn:Hd; [|discriminate Hs].
    apply (inj Some) in Hs. pose proof (dl_next_rank ft m items r q' w1) as Hle. rewrite Hs in Hle.
    apply dstep_rank in Hd. cbn [grank]. simpl in Hle. lia.
Qed.
End CallRank.

(** ** Termination of two calls *)

Section Finish.
Context `{Digest} (loc : path) (description : string) (archive : Archive) (dim : bool).

Definition gmeasure (c : gpc * gpc * World) : nat := grank archive c.1.1 + grank archive c.1.2.

Lemma gstep2_measure c c' : gstep2 loc description archive dim c c' -> gmeasure c' < gmeasure c.
Proof. intros [????? Hs|????? Hs]; apply gstep_rank in Hs; unfold gmeasure; simpl; lia. Qed.

Lemma nsteps_gmeasure n c c' :
  nsteps (gstep2 loc description archive dim) n c c' -> n + gmeasure c' <= gmeasure c.
Proof. induction 1 as [|n c1 c2 c3 Hs _ IH]; [lia|]. apply gstep2_measure in Hs. lia. Qed.

(** C21: termination.  Every interleaving of two calls of [fetch_<name>],
    run at the grain of the downloader's statements, takes at most
    [2 * (3 + 427 * |ARCHIVE|)] statements: each call checks and may create
    its directory, and each role costs its check, its log record and at
    most [424] statements of [_fetch_remote] ([TMP_MAX = 100] names per
    attempt, [MAX_RETRIES + 1 = 4] attempts). *)
Theorem shared_cache_terminates w n c :
  nsteps (gstep2 loc description archive dim) n (GCall FCheckDir, GCall FCheckDir, w) c ->
  n <= 2 * (3 + length archive * 427).
Proof.
  intros Hn. apply nsteps_gmeasure in Hn. unfold gmeasure in Hn. cbn [grank fst snd] in Hn.
  unfold loop_rank in Hn. rewrite DL_value in Hn. lia.
Qed.

End Finish.

(** Witness: the run of [SharedCache] where both calls download the
    topology at once. *)
Section Witnesses.
#[local] Existing Instance text_digest.

Lemma shared_cache_terminates_witness :
  exists n, nsteps (gstep2 adk_loc AdkEquilibrium.DESCRIPTION AdkEquilibrium.ARCHIVE true) n
              (GCall FCheckDir, GCall FCheckDir, race_world) race_end /\
            n <= 2 * (3 + length AdkEquilibrium.ARCHIVE * 427).
Proof.
  pose proof (schedule_rtc (gstep adk_loc AdkEquilibrium.DESCRIPTION AdkEquilibrium.ARCHIVE true)
                (gstep adk_loc AdkEquilibrium.DESCRIPTION AdkEquilibrium.ARCHIVE true)
                race_schedule (GCall FCheckDir, GCall FCheckDir, race_world)) as Hr.
  rewrite race_run in Hr. apply rtc_nsteps in Hr as [n Hn]. exists n. split; [exact Hn|].
  exact (shared_cache_terminates adk_loc AdkEquilibrium.DESCRIPTION AdkEquilibrium.ARCHIVE true
           race_world n race_end Hn).
Defined.

End Witnesses.
